(** * Verification of the datagolf caching proxy

    A shallow embedding of the JavaScript services of the repository
    (cache key derivation, the three-level cache, the upstream client's retry
    loop and transformers, the circuit breaker, the request pipeline of
    [DataGolfService] and the session envelope), with the properties that the
    specification states about them.

    Conventions of the embedding:
    - JavaScript strings are [string]; the default [Array.prototype.sort]
      order (code units) is the lexicographic order of [String.compare];
    - a JavaScript [Map] is an association list in insertion order;
    - [Date.now()] is an explicit argument, in milliseconds;
    - objects that the code shares between several containers live in an
      explicit heap and are named by their location. *)

From Stdlib Require Import ZArith Ascii String Strings.Byte List.
From stdpp Require Import base decidable option list strings sorting pretty.

Local Open Scope string_scope.
Local Open Scope Z_scope.

Set Warnings "-register-all".

(** ** JavaScript helpers shared by the services *)

Module Js.

(** [Array.prototype.join]. *)
Fixpoint join (sep : string) (l : list string) : string :=
  match l with
  | [] => ""
  | [x] => x
  | x :: rest => x ++ sep ++ join sep rest
  end.

(** [s.slice(0, -1)]: every character but the last one; the empty string
    stays empty. *)
Definition slice_0_m1 (s : string) : string :=
  String.substring 0 (String.length s - 1) s.

(** Truthiness of a string: only the empty one is falsy. *)
Definition truthy_str (s : string) : bool :=
  match s with EmptyString => false | _ => true end.

(** The association-list reading of a [Map] or of an object's own
    properties. *)
Section Assoc.
Context {V : Type}.

Fixpoint assoc_get (k : string) (m : list (string * V)) : option V :=
  match m with
  | [] => None
  | (k', v) :: rest => if String.eqb k k' then Some v else assoc_get k rest
  end.

Definition assoc_has (k : string) (m : list (string * V)) : bool :=
  match assoc_get k m with Some _ => true | None => false end.

(** [Map.prototype.set]: an existing key keeps its position. *)
Fixpoint assoc_set (k : string) (v : V) (m : list (string * V))
  : list (string * V) :=
  match m with
  | [] => [(k, v)]
  | (k', v') :: rest =>
      if String.eqb k k' then (k', v) :: rest
      else (k', v') :: assoc_set k v rest
  end.

(** [Map.prototype.delete]. *)
Fixpoint assoc_delete (k : string) (m : list (string * V))
  : list (string * V) :=
  match m with
  | [] => []
  | (k', v') :: rest =>
      if String.eqb k k' then rest else (k', v') :: assoc_delete k rest
  end.

(** [map.keys().next().value]. *)
Definition first_key (m : list (string * V)) : option string :=
  match m with
  | [] => None
  | (k, _) :: _ => Some k
  end.
End Assoc.

End Js.

(** ** Cache key derivation: [CacheService.generateKey] *)

Module CacheKey.
Import Js.

(** Values that reach the parameter bag: the routes pass query strings,
    parsed integers and flags. *)
Inductive pvalue : Type :=
| PStr (s : string)
| PInt (z : Z)
| PBool (b : bool).

(** The conversion that a template literal applies. *)
Definition to_display (v : pvalue) : string :=
  match v with
  | PStr s => s
  | PInt z => pretty z
  | PBool true => "true"
  | PBool false => "false"
  end.

(** An object literal used as a parameter bag: its own properties in
    insertion order.  Property names are unique. *)
Definition params : Type := list (string * pvalue).

Definition wf_params (p : params) : Prop := NoDup (p.*1).

(** [this.keyPatterns]. *)
Definition keyPatterns : list (string * string) :=
  [ ("tournament", "tournament:");
    ("rankings", "rankings:");
    ("field", "field:");
    ("scoring", "scoring:");
    ("playerStats", "player-stats:");
    ("bettingOdds", "betting-odds:") ].

(** [keyPatterns] is a plain object, so a property read also finds what
    [Object.prototype] provides. *)
Definition objectPrototypeNames : list string :=
  [ "constructor"; "hasOwnProperty"; "isPrototypeOf";
    "propertyIsEnumerable"; "toLocaleString"; "toString"; "valueOf";
    "__defineGetter__"; "__defineSetter__"; "__lookupGetter__";
    "__lookupSetter__"; "__proto__" ].

Definition inherited (name : string) : bool :=
  bool_decide (name ∈ objectPrototypeNames).

(** What [this.keyPatterns[pattern] || pattern] evaluates to. *)
Inductive base : Type :=
| BStr (s : string)          (* a string *)
| BInherited (name : string) (* a function or object of Object.prototype *).

Definition resolve (pattern : string) : base :=
  match assoc_get pattern keyPatterns with
  | Some b => if truthy_str b then BStr b else BStr pattern
  | None =>
      if inherited pattern then BInherited pattern else BStr pattern
  end.

(** The text of an inherited value inside a template literal. *)
Definition inherited_display (name : string) : string :=
  if String.eqb name "__proto__" then "[object Object]"
  else if String.eqb name "constructor"
       then "function Object() { [native code] }"
       else "function " ++ name ++ "() { [native code] }".

(** [Object.keys(params).sort().map(key => `${key}:${params[key]}`)
      .join('|')].  Without a comparator, [sort()] orders strings by their
    character codes: [String.le]. *)
Definition render (p : params) (key : string) : string :=
  key ++ ":" ++
  match assoc_get key p with
  | Some v => to_display v
  | None => "undefined"
  end.

Definition paramString (p : params) : string :=
  join "|" (render p <$> merge_sort String.le (p.*1)).

(** The outcome of a call: the key, or the [TypeError] raised by calling
    [slice] on a value that has none. *)
Inductive outcome : Type :=
| Key (k : string)
| TypeError.

Definition generateKey (pattern : string) (p : params) : outcome :=
  let baseKey := resolve pattern in
  let ps := paramString p in
  if truthy_str ps then
    match baseKey with
    | BStr b => Key (b ++ ps)
    | BInherited n => Key (inherited_display n ++ ps)
    end
  else
    match baseKey with
    | BStr b => Key (slice_0_m1 b)
    | BInherited _ => TypeError
    end.

End CacheKey.

(** ** The three-level cache: [CacheService] *)

Module Cache.
Import Js.

(** A heap location of an entry object. *)
Definition loc : Type := nat.

(** A value handed to the cache.  [DPlain] stands for a non-null value on
    which [typeof data === 'object' && data.timestamp] is falsy (the
    normalized bodies of the upstream client); [DRef] is a reference to an
    entry object of the heap. *)
Inductive jsdata : Type :=
| DPlain (body : string)
| DRef (l : loc).

(** A number that may be absent ([null] or [undefined]). *)
Definition num : Type := option Z.

Definition truthy_num (n : num) : bool :=
  match n with
  | Some z => negb (z =? 0)
  | None => false
  end.

(** [a || b] on such numbers. *)
Definition or_num (a b : num) : num := if truthy_num a then a else b.

(** The object [{ data, timestamp, ttl, accessCount }]. *)
Record entry : Type := Entry {
  data : jsdata;
  timestamp : Z;
  ttl : num;
  accessCount : Z
}.

Record stats : Type := Stats { hits : Z; misses : Z; evictions : Z }.

(** [cacheConfig.l1], [.l2], [.l3]; the development configuration leaves
    [maxSize] and [ttl] of a disabled level out. *)
Record levelConfig : Type := LevelConfig {
  enabled : bool;
  maxSize : num;
  cfg_ttl : num
}.

Record cacheConfig : Type := CacheConfig {
  l1 : levelConfig;
  l2 : levelConfig;
  l3 : levelConfig
}.

(** The mutable fields of a [CacheService] instance, with the heap of the
    entry objects that its maps point to.  [ttlTimers] keeps, for each key,
    the time from which the pending timeout is due to call [delete]. *)
Record cache : Type := CacheState {
  heap : list entry;
  l1Cache : list (string * loc);
  l1AccessOrder : list (string * Z);
  l1Stats : stats;
  l2Cache : list (string * loc);
  l2Stats : stats;
  l3Cache : list (string * loc);
  l3Stats : stats;
  ttlTimers : list (string * Z)
}.

Definition zeroStats : stats := Stats 0 0 0.

(** The state that the constructor builds. *)
Definition empty : cache :=
  CacheState [] [] [] zeroStats [] zeroStats [] zeroStats [].

Definition set_heap (c : cache) h : cache :=
  CacheState h (l1Cache c) (l1AccessOrder c) (l1Stats c) (l2Cache c)
    (l2Stats c) (l3Cache c) (l3Stats c) (ttlTimers c).
Definition set_l1 (c : cache) m o : cache :=
  CacheState (heap c) m o (l1Stats c) (l2Cache c) (l2Stats c) (l3Cache c)
    (l3Stats c) (ttlTimers c).
Definition set_l1Stats (c : cache) s : cache :=
  CacheState (heap c) (l1Cache c) (l1AccessOrder c) s (l2Cache c)
    (l2Stats c) (l3Cache c) (l3Stats c) (ttlTimers c).
Definition set_l2 (c : cache) m : cache :=
  CacheState (heap c) (l1Cache c) (l1AccessOrder c) (l1Stats c) m
    (l2Stats c) (l3Cache c) (l3Stats c) (ttlTimers c).
Definition set_l2Stats (c : cache) s : cache :=
  CacheState (heap c) (l1Cache c) (l1AccessOrder c) (l1Stats c) (l2Cache c)
    s (l3Cache c) (l3Stats c) (ttlTimers c).
Definition set_l3 (c : cache) m : cache :=
  CacheState (heap c) (l1Cache c) (l1AccessOrder c) (l1Stats c) (l2Cache c)
    (l2Stats c) m (l3Stats c) (ttlTimers c).
Definition set_l3Stats (c : cache) s : cache :=
  CacheState (heap c) (l1Cache c) (l1AccessOrder c) (l1Stats c) (l2Cache c)
    (l2Stats c) (l3Cache c) s (ttlTimers c).
Definition set_timers (c : cache) t : cache :=
  CacheState (heap c) (l1Cache c) (l1AccessOrder c) (l1Stats c) (l2Cache c)
    (l2Stats c) (l3Cache c) (l3Stats c) t.

Definition hit (s : stats) : stats :=
  Stats (hits s + 1) (misses s) (evictions s).
Definition miss (s : stats) : stats :=
  Stats (hits s) (misses s + 1) (evictions s).
Definition evicted (s : stats) : stats :=
  Stats (hits s) (misses s) (evictions s + 1).

(** [map.size]. *)
Definition size {V} (m : list (string * V)) : Z :=
  Z.of_nat (List.length m).

(** [size >= maxSize]; a comparison with [undefined] is false. *)
Definition at_capacity {V} (m : list (string * V)) (cfg : levelConfig)
  : bool :=
  match maxSize cfg with
  | Some n => n <=? size m
  | None => false
  end.

(** [_isExpired(entry)] at clock reading [now]. *)
Definition _isExpired (now : Z) (e : entry) : bool :=
  match ttl e with
  | Some t => if t =? 0 then false else t * 1000 <? now - timestamp e
  | None => false
  end.

(** [entry.accessCount++] on the object at [l]. *)
Definition bump (l : loc) (h : list entry) : list entry :=
  match h !! l with
  | Some e =>
      <[l := Entry (data e) (timestamp e) (ttl e) (accessCount e + 1)]> h
  | None => h
  end.

(** [typeof data === 'object' && data.timestamp ? data : { data,
    timestamp: Date.now(), ttl, accessCount: 0 }]: the location of the
    entry to store, and the heap after a possible allocation. *)
Definition as_entry (now : Z) (d : jsdata) (t : num) (h : list entry)
  : loc * list entry :=
  let fresh := (List.length h, (h ++ [Entry d now t 0])%list) in
  match d with
  | DRef l =>
      match h !! l with
      | Some e => if timestamp e =? 0 then fresh else (l, h)
      | None => fresh
      end
  | DPlain _ => fresh
  end.

(** The delay that Node's [setTimeout] gives a timer: one that is not
    between 1 and [TIMEOUT_MAX] milliseconds is replaced by 1. *)
Definition TIMEOUT_MAX : Z := 2147483647.

Definition setTimeout_delay (ms : Z) : Z :=
  if (1 <=? ms) && (ms <=? TIMEOUT_MAX) then ms else 1.

(** [_setTTLTimer(key, ttl)]: replaces the pending timeout of the key by
    one of [ttl * 1000] milliseconds. *)
Definition _setTTLTimer (now : Z) (key : string) (t : Z) (c : cache)
  : cache :=
  set_timers c
    (assoc_set key (now + setTimeout_delay (t * 1000)) (ttlTimers c)).

(** *** Level 1 *)

Definition _evictFromL1 (c : cache) : cache :=
  match first_key (l1AccessOrder c) with
  | Some oldestKey =>
      if truthy_str oldestKey then
        set_l1Stats
          (set_l1 c (assoc_delete oldestKey (l1Cache c))
                    (assoc_delete oldestKey (l1AccessOrder c)))
          (evicted (l1Stats c))
      else c
  | None => c
  end.

Definition _setToL1 (cfg : cacheConfig) (now : Z) (key : string)
    (d : jsdata) (t : num) (c : cache) : cache :=
  let c1 := if at_capacity (l1Cache c) (l1 cfg) then _evictFromL1 c else c in
  let '(l, h) := as_entry now d t (heap c1) in
  let c2 :=
    set_l1 (set_heap c1 h) (assoc_set key l (l1Cache c1))
           (assoc_set key now (l1AccessOrder c1)) in
  match t with
  | Some z => if z =? 0 then c2 else _setTTLTimer now key z c2
  | None => c2
  end.

Definition _getFromL1 (now : Z) (key : string) (c : cache)
  : option jsdata * cache :=
  match assoc_get key (l1Cache c) with
  | None => (None, set_l1Stats c (miss (l1Stats c)))
  | Some l =>
      match heap c !! l with
      | None => (None, c)
      | Some e =>
          if _isExpired now e then
            (None,
             set_l1Stats
               (set_l1 c (assoc_delete key (l1Cache c))
                         (assoc_delete key (l1AccessOrder c)))
               (miss (l1Stats c)))
          else
            let order :=
              assoc_set key now (assoc_delete key (l1AccessOrder c)) in
            let c1 := set_heap (set_l1 c (l1Cache c) order)
                               (bump l (heap c)) in
            (Some (data e), set_l1Stats c1 (hit (l1Stats c1)))
      end
  end.

(** *** Level 2 *)

Definition _evictFromL2 (c : cache) : cache :=
  match first_key (l2Cache c) with
  | Some firstKey =>
      if truthy_str firstKey then
        set_l2Stats (set_l2 c (assoc_delete firstKey (l2Cache c)))
                    (evicted (l2Stats c))
      else c
  | None => c
  end.

Definition _setToL2 (cfg : cacheConfig) (now : Z) (key : string)
    (d : jsdata) (t : num) (c : cache) : cache :=
  let c1 := if at_capacity (l2Cache c) (l2 cfg) then _evictFromL2 c else c in
  let '(l, h) := as_entry now d t (heap c1) in
  set_l2 (set_heap c1 h) (assoc_set key l (l2Cache c1)).

Definition _getFromL2 (now : Z) (key : string) (c : cache)
  : option jsdata * cache :=
  match assoc_get key (l2Cache c) with
  | None => (None, set_l2Stats c (miss (l2Stats c)))
  | Some l =>
      match heap c !! l with
      | None => (None, c)
      | Some e =>
          if _isExpired now e then
            (None,
             set_l2Stats (set_l2 c (assoc_delete key (l2Cache c)))
                         (miss (l2Stats c)))
          else
            let c1 := set_heap c (bump l (heap c)) in
            (Some (data e), set_l2Stats c1 (hit (l2Stats c1)))
      end
  end.

(** *** Level 3 *)

(** The scan of [_evictFromL3]: the first key whose entry has the least
    [accessCount]; [best] is [(leastUsedKey, leastUsedCount)], absent
    while the count is still [Infinity]. *)
Fixpoint leastUsed (h : list entry) (m : list (string * loc))
    (best : option (string * Z)) : option (string * Z) :=
  match m with
  | [] => best
  | (k, l) :: rest =>
      match h !! l with
      | Some e =>
          match best with
          | Some (_, n) =>
              if accessCount e <? n
              then leastUsed h rest (Some (k, accessCount e))
              else leastUsed h rest best
          | None => leastUsed h rest (Some (k, accessCount e))
          end
      | None => leastUsed h rest best
      end
  end.

Definition _evictFromL3 (c : cache) : cache :=
  match leastUsed (heap c) (l3Cache c) None with
  | Some (leastUsedKey, _) =>
      if truthy_str leastUsedKey then
        set_l3Stats (set_l3 c (assoc_delete leastUsedKey (l3Cache c)))
                    (evicted (l3Stats c))
      else c
  | None => c
  end.

Definition _setToL3 (cfg : cacheConfig) (now : Z) (key : string)
    (d : jsdata) (t : num) (c : cache) : cache :=
  let c1 := if at_capacity (l3Cache c) (l3 cfg) then _evictFromL3 c else c in
  let '(l, h) := as_entry now d t (heap c1) in
  set_l3 (set_heap c1 h) (assoc_set key l (l3Cache c1)).

Definition _getFromL3 (now : Z) (key : string) (c : cache)
  : option jsdata * cache :=
  match assoc_get key (l3Cache c) with
  | None => (None, set_l3Stats c (miss (l3Stats c)))
  | Some l =>
      match heap c !! l with
      | None => (None, c)
      | Some e =>
          if _isExpired now e then
            (None,
             set_l3Stats (set_l3 c (assoc_delete key (l3Cache c)))
                         (miss (l3Stats c)))
          else
            let c1 := set_heap c (bump l (heap c)) in
            (Some (data e), set_l3Stats c1 (hit (l3Stats c1)))
      end
  end.

(** *** The public operations *)

(** [get(key)]: probes the enabled levels in order and promotes a hit of a
    lower level with the upper level's configured TTL. *)
Definition get (cfg : cacheConfig) (now : Z) (key : string) (c : cache)
  : option jsdata * cache :=
  let '(r1, c1) :=
    if enabled (l1 cfg) then _getFromL1 now key c else (None, c) in
  match r1 with
  | Some d => (Some d, c1)
  | None =>
      let '(r2, c2) :=
        if enabled (l2 cfg) then _getFromL2 now key c1 else (None, c1) in
      match r2 with
      | Some d =>
          (Some d,
           if enabled (l1 cfg)
           then _setToL1 cfg now key d (cfg_ttl (l1 cfg)) c2 else c2)
      | None =>
          let '(r3, c3) :=
            if enabled (l3 cfg) then _getFromL3 now key c2
            else (None, c2) in
          match r3 with
          | Some d =>
              let c4 :=
                if enabled (l2 cfg)
                then _setToL2 cfg now key d (cfg_ttl (l2 cfg)) c3
                else c3 in
              (Some d,
               if enabled (l1 cfg)
               then _setToL1 cfg now key d (cfg_ttl (l1 cfg)) c4 else c4)
          | None => (None, c3)
          end
      end
  end.

(** [set(key, data, ttl)]: one entry object is built and handed to every
    enabled level. *)
Definition set (cfg : cacheConfig) (now : Z) (key : string) (d : jsdata)
    (t : num) (c : cache) : cache :=
  let cacheEntry := Entry d now (or_num t (cfg_ttl (l1 cfg))) 0 in
  let e := List.length (heap c) in
  let c0 := set_heap c (heap c ++ [cacheEntry])%list in
  let c1 :=
    if enabled (l1 cfg)
    then _setToL1 cfg now key (DRef e) (or_num t (cfg_ttl (l1 cfg))) c0
    else c0 in
  let c2 :=
    if enabled (l2 cfg)
    then _setToL2 cfg now key (DRef e) (or_num t (cfg_ttl (l2 cfg))) c1
    else c1 in
  if enabled (l3 cfg)
  then _setToL3 cfg now key (DRef e) (or_num t (cfg_ttl (l3 cfg))) c2
  else c2.

(** [delete(key)]: removes the key from every level and clears its
    timeout; this is also the callback of the TTL timer. *)
Definition delete (key : string) (c : cache) : bool * cache :=
  let d1 := assoc_has key (l1Cache c) in
  let d2 := assoc_has key (l2Cache c) in
  let d3 := assoc_has key (l3Cache c) in
  (d1 || d2 || d3,
   CacheState (heap c)
     (assoc_delete key (l1Cache c)) (assoc_delete key (l1AccessOrder c))
     (l1Stats c)
     (assoc_delete key (l2Cache c)) (l2Stats c)
     (assoc_delete key (l3Cache c)) (l3Stats c)
     (assoc_delete key (ttlTimers c))).

(** The entry that a level holds for a key, read through the heap. *)
Definition entry_of (h : list entry) (m : list (string * loc))
    (key : string) : option entry :=
  l ← assoc_get key m; h !! l.

(** The keys of a level. *)
Definition keys {V} (m : list (string * V)) : list string := m.*1.

(** The three production settings of [config/environment.js]. *)
Definition productionConfig : cacheConfig :=
  CacheConfig (LevelConfig true (Some 5000) (Some 900))
              (LevelConfig true (Some 25000) (Some 7200))
              (LevelConfig true (Some 100000) (Some 86400)).

(** A level 1 of capacity two, filled by two calls of [set]. *)
Definition smallConfig : cacheConfig :=
  CacheConfig (LevelConfig true (Some 2) (Some 300))
              (LevelConfig false None None)
              (LevelConfig false None None).

Definition fullL1 : cache :=
  set smallConfig 2000 "rankings:tour:PGA" (DPlain "B") None
    (set smallConfig 1000 "tournament:season:2024" (DPlain "A") None empty).

End Cache.

(** ** The upstream client: [DataGolfClient] *)

Module Client.

(** Why an attempt was rejected by axios. *)
Inductive failure : Type :=
| NetworkError
| Timeout
| HttpStatus (status : Z).

(** The outcome of one [await apiCall()]. *)
Inductive attempt_result (A : Type) : Type :=
| Resolved (response : A)
| Rejected (error : failure).
Arguments Resolved {A} response.
Arguments Rejected {A} error.

(** [config.dataGolf.retryAttempts] and [.retryDelay]. *)
Record retryConfig : Type := RetryConfig {
  retryAttempts : Z;
  retryDelay : Z
}.

(** What a call of [_retryWithBackoff] did: the value it returned or the
    error it threw, how often it invoked [apiCall], and the delays it
    slept, oldest first. *)
Record run (A : Type) : Type := Run {
  result : attempt_result A;
  calls : nat;
  delays : list Z
}.
Arguments Run {A} result calls delays.
Arguments result {A} r.
Arguments calls {A} r.
Arguments delays {A} r.

Section Retry.
Context {A : Type}.
Variable cfg : retryConfig.
(** The upstream seen through [apiCall]: the outcome of the invocation
    that follows [n] earlier ones. *)
Variable apiCall : nat -> attempt_result A.

(** The recursion of [_retryWithBackoff]; [done] counts the invocations
    already made and [fuel] bounds the depth of the recursion.  [attempt]
    starts at one, its default value. *)
Fixpoint retry (fuel : nat) (attempt : Z) (done : nat) (slept : list Z)
  : option (run A) :=
  match fuel with
  | O => None
  | S fuel' =>
      match apiCall done with
      | Resolved r => Some (Run (Resolved r) (S done) slept)
      | Rejected error =>
          if retryAttempts cfg <=? attempt
          then Some (Run (Rejected error) (S done) slept)
          else
            let delay := retryDelay cfg * 2 ^ (attempt - 1) in
            retry fuel' (attempt + 1) (S done) (slept ++ [delay])%list
      end
  end.

(** [_retryWithBackoff(apiCall, attempt)]. *)
Definition _retryWithBackoff (attempt : Z) : option (run A) :=
  retry (S (Z.to_nat (retryAttempts cfg - attempt))) attempt 0%nat [].

(** The delays slept before the [k] retries that follow [attempt]. *)
Definition backoff (attempt : Z) (k : nat) : list Z :=
  (fun i => retryDelay cfg * 2 ^ (attempt - 1 + Z.of_nat i)) <$> seq 0 k.
End Retry.

(** An upstream that answers every attempt with the same failure. *)
Definition always_fails (f : failure) : nat -> attempt_result unit :=
  fun _ => Rejected f.

(** The 4xx statuses that the specification calls non-retryable. *)
Definition client_error (f : failure) : bool :=
  match f with
  | HttpStatus s => (400 <=? s) && (s <? 500) && negb (s =? 429)
  | _ => false
  end.

(** *** Transformers *)

(** A parsed response body.  [JUndefined] is the value of a missing
    property; [JIsoDate ms] is the string [new Date(ms).toISOString()] and
    [JYear ms] the number [new Date(ms).getFullYear()]. *)
Inductive json : Type :=
| JUndefined
| JNull
| JBool (b : bool)
| JNum (z : Z)
| JStr (s : string)
| JIsoDate (ms : Z)
| JYear (ms : Z)
| JArr (items : list json)
| JObj (fields : list (string * json)).

Definition truthy (v : json) : bool :=
  match v with
  | JUndefined | JNull => false
  | JBool b => b
  | JNum z => negb (z =? 0)
  | JStr s => Js.truthy_str s
  | JIsoDate _ | JYear _ | JArr _ | JObj _ => true
  end.

(** [a || b]. *)
Definition or (a b : json) : json := if truthy a then a else b.

(** [value.name] for the field names that the transformers read: a
    [TypeError] on [null] and [undefined], the own property of an object,
    [undefined] on everything else. *)
Definition prop (v : json) (name : string) : option json :=
  match v with
  | JUndefined | JNull => None
  | JObj fields =>
      Some (match Js.assoc_get name fields with
            | Some x => x
            | None => JUndefined
            end)
  | _ => Some JUndefined
  end.

(** [a.x || a.y]. *)
Definition either (v : json) (x y : string) : option json :=
  a ← prop v x; b ← prop v y; Some (or a b).

(** [a.x || literal]. *)
Definition default (v : json) (x : string) (d : json) : option json :=
  a ← prop v x; Some (or a d).

(** The arrow function of [_transformTournamentData], at clock [now]. *)
Definition tournamentItem (now : Z) (tournament : json) : option json :=
  id ← either tournament "dg_id" "id";
  name ← either tournament "event_name" "name";
  course ← default tournament "course" JNull;
  startDate ← either tournament "event_start_date" "start_date";
  endDate ← either tournament "event_end_date" "end_date";
  season ← either tournament "calendar_year" "season";
  tour ← default tournament "tour" (JStr "PGA");
  status ← default tournament "event_status" (JStr "scheduled");
  purse ← default tournament "purse" JNull;
  city ← default tournament "city" JNull;
  state ← default tournament "state" JNull;
  country ← default tournament "country" (JStr "USA");
  Some (JObj [ ("id", id); ("name", name); ("course", course);
               ("startDate", startDate); ("endDate", endDate);
               ("season", season); ("tour", tour); ("status", status);
               ("purse", purse);
               ("location", JObj [ ("city", city); ("state", state);
                                   ("country", country) ]);
               ("transformedAt", JIsoDate now) ]).

(** The arrow function of [_transformRankingsData]. *)
Definition rankingItem (now : Z) (player : json) : option json :=
  playerId ← either player "dg_id" "player_id";
  playerName ← either player "player_name" "name";
  rank ← either player "rank" "position";
  points ← either player "points" "total_points";
  averagePoints ← default player "avg_points" JNull;
  eventsPlayed ← default player "events_played" (JNum 0);
  wins ← default player "wins" (JNum 0);
  top10s ← default player "top_10s" (JNum 0);
  earnings ← default player "earnings" (JNum 0);
  Some (JObj [ ("playerId", playerId); ("playerName", playerName);
               ("rank", rank); ("points", points);
               ("averagePoints", averagePoints);
               ("eventsPlayed", eventsPlayed); ("wins", wins);
               ("top10s", top10s); ("earnings", earnings);
               ("transformedAt", JIsoDate now) ]).

(** The common shape of the list transformers: the body is wrapped under
    [label] with its metadata; anything but an array gives the empty
    result.  [None] is a [TypeError] thrown by an item. *)
Definition transformList (label : string)
    (item : Z -> json -> option json) (now : Z) (data : json)
  : option json :=
  match data with
  | JArr elements =>
      items ← mapM (item now) elements;
      Some (JObj [ (label, JArr items);
                   ("metadata",
                    JObj [ ("count", JNum (Z.of_nat (List.length items)));
                           ("transformedAt", JIsoDate now) ]) ])
  | _ =>
      Some (JObj [ (label, JArr []);
                   ("metadata", JObj [ ("count", JNum 0);
                                       ("transformedAt", JIsoDate now) ]) ])
  end.

Definition _transformTournamentData : Z -> json -> option json :=
  transformList "tournaments" tournamentItem.

Definition _transformRankingsData : Z -> json -> option json :=
  transformList "rankings" rankingItem.

(** The arrow function of [_transformFieldData]. *)
Definition fieldItem (now : Z) (player : json) : option json :=
  playerId ← either player "dg_id" "player_id";
  playerName ← either player "player_name" "name";
  status ← default player "status" (JStr "active");
  teeTime ← default player "tee_time" JNull;
  group ← default player "group" JNull;
  odds ← default player "odds" JNull;
  ranking ← either player "owgr" "ranking";
  Some (JObj [ ("playerId", playerId); ("playerName", playerName);
               ("status", status); ("teeTime", teeTime); ("group", group);
               ("odds", odds); ("ranking", ranking);
               ("transformedAt", JIsoDate now) ]).

Definition _transformFieldData : Z -> json -> option json :=
  transformList "field" fieldItem.

(** The arrow function of [_transformScoringData]. *)
Definition scoreItem (now : Z) (score : json) : option json :=
  playerId ← either score "dg_id" "player_id";
  playerName ← either score "player_name" "name";
  totalScore ← either score "total_score" "score";
  currentRound ← default score "current_round" (JNum 1);
  roundScores ← default score "round_scores" (JArr []);
  position ← either score "position" "rank";
  status ← default score "status" (JStr "active");
  holesCompleted ← default score "holes_completed" (JNum 0);
  lastUpdated ← default score "last_updated" (JIsoDate now);
  Some (JObj [ ("playerId", playerId); ("playerName", playerName);
               ("totalScore", totalScore); ("currentRound", currentRound);
               ("roundScores", roundScores); ("position", position);
               ("status", status); ("holesCompleted", holesCompleted);
               ("lastUpdated", lastUpdated);
               ("transformedAt", JIsoDate now) ]).

Definition _transformScoringData : Z -> json -> option json :=
  transformList "scores" scoreItem.

(** The arrow function of [_transformBettingOddsData]. *)
Definition oddItem (now : Z) (odd : json) : option json :=
  playerId ← either odd "dg_id" "player_id";
  playerName ← either odd "player_name" "name";
  tournamentId ← either odd "tournament_id" "event_id";
  bookmaker ← default odd "bookmaker" (JStr "unknown");
  decimal ← default odd "decimal_odds" JNull;
  american ← default odd "american_odds" JNull;
  fractional ← default odd "fractional_odds" JNull;
  impliedProbability ← default odd "implied_probability" JNull;
  lastUpdated ← default odd "last_updated" (JIsoDate now);
  Some (JObj [ ("playerId", playerId); ("playerName", playerName);
               ("tournamentId", tournamentId); ("bookmaker", bookmaker);
               ("odds", JObj [ ("decimal", decimal); ("american", american);
                               ("fractional", fractional) ]);
               ("impliedProbability", impliedProbability);
               ("lastUpdated", lastUpdated);
               ("transformedAt", JIsoDate now) ]).

Definition _transformBettingOddsData : Z -> json -> option json :=
  transformList "odds" oddItem.

(** [_transformPlayerStatsData]: a single object, not a list. *)
Definition _transformPlayerStatsData (now : Z) (data : json) : option json :=
  if negb (truthy data) then
    Some (JObj [ ("stats", JObj []);
                 ("metadata", JObj [ ("transformedAt", JIsoDate now) ]) ])
  else
    playerId ← either data "dg_id" "player_id";
    playerName ← either data "player_name" "name";
    season ← default data "season" (JYear now);
    drivingDistance ← default data "driving_distance" JNull;
    drivingAccuracy ← default data "driving_accuracy" JNull;
    greensInRegulation ← default data "gir" JNull;
    puttingAverage ← default data "putting_avg" JNull;
    scoringAverage ← default data "scoring_avg" JNull;
    eagles ← default data "eagles" (JNum 0);
    birdies ← default data "birdies" (JNum 0);
    pars ← default data "pars" (JNum 0);
    bogeys ← default data "bogeys" (JNum 0);
    doubleBogeys ← default data "double_bogeys" (JNum 0);
    Some (JObj [ ("stats",
                  JObj [ ("playerId", playerId); ("playerName", playerName);
                         ("season", season);
                         ("drivingDistance", drivingDistance);
                         ("drivingAccuracy", drivingAccuracy);
                         ("greensInRegulation", greensInRegulation);
                         ("puttingAverage", puttingAverage);
                         ("scoringAverage", scoringAverage);
                         ("eagles", eagles); ("birdies", birdies);
                         ("pars", pars); ("bogeys", bogeys);
                         ("doubleBogeys", doubleBogeys);
                         ("transformedAt", JIsoDate now) ]);
                 ("metadata", JObj [ ("transformedAt", JIsoDate now) ]) ]).

(** The transformers of the client, by the endpoint they serve. *)
Definition transformers : list (string * (Z -> json -> option json)) :=
  [ ("tournaments", _transformTournamentData);
    ("rankings", _transformRankingsData);
    ("field", _transformFieldData);
    ("scoring", _transformScoringData);
    ("player-stats", _transformPlayerStatsData);
    ("betting-odds", _transformBettingOddsData) ].

(** A normalized body with the value of every field called one of
    [names] blanked, at any depth; the field stays, and everything else
    is kept as it is. *)
Fixpoint without (names : list string) (v : json) : json :=
  match v with
  | JArr items => JArr (map (without names) items)
  | JObj fields =>
      JObj (map (fun kv =>
                   (kv.1,
                    if bool_decide (kv.1 ∈ names) then JNull
                    else without names kv.2))
                fields)
  | other => other
  end.

(** The fields that the transformer of an endpoint writes from the clock:
    [transformedAt] always, and the [lastUpdated] (scoring, betting odds)
    or [season] (player stats) that stands in for a field missing from
    the raw body. *)
Definition clockFields (endpoint : string) : list string :=
  if bool_decide (endpoint ∈ ["scoring"; "betting-odds"])
  then ["transformedAt"; "lastUpdated"]
  else if String.eqb endpoint "player-stats"
       then ["transformedAt"; "season"]
       else ["transformedAt"].

(** [v.name] is there and truthy, so that [v.name || fallback] is
    [v.name]. *)
Definition supplies (v : json) (name : string) : bool :=
  match prop v name with
  | Some a => truthy a
  | None => false
  end.

(** The raw body leaves nothing to the fallbacks that read the clock:
    every element of a scoring or betting-odds array has its
    [last_updated], a player-stats object has its [season]. *)
Definition complete (endpoint : string) (raw : json) : bool :=
  if bool_decide (endpoint ∈ ["scoring"; "betting-odds"])
  then match raw with
       | JArr elements =>
           forallb (fun x => supplies x "last_updated") elements
       | _ => true
       end
  else if String.eqb endpoint "player-stats"
       then negb (truthy raw) || supplies raw "season"
       else true.

(** A scoring body of two players, one with and one without
    [last_updated]. *)
Definition mixedScores : json :=
  JArr [ JObj [ ("dg_id", JNum 18417); ("total_score", JNum (-5));
                ("last_updated", JStr "2024-04-11T18:00:00Z") ];
         JObj [ ("dg_id", JNum 10091); ("total_score", JNum 2) ] ].

Definition completeScores : json :=
  JArr [ JObj [ ("dg_id", JNum 18417); ("total_score", JNum (-5));
                ("last_updated", JStr "2024-04-11T18:00:00Z") ] ].

End Client.

(** ** The circuit breaker of [DataGolfService] *)

Module Breaker.

Inductive state : Type := CLOSED | OPEN | HALF_OPEN.

(** [this.circuitBreaker]; [lastFailureTime] starts as [null]. *)
Record circuitBreaker : Type := CircuitBreaker {
  cb_state : state;
  failureCount : Z;
  lastFailureTime : option Z;
  successCount : Z;
  threshold : Z;
  timeout : Z;
  resetThreshold : Z
}.

(** The value set by the constructor. *)
Definition initial : circuitBreaker :=
  CircuitBreaker CLOSED 0 None 0 5 60000 3.

(** [null] in arithmetic. *)
Definition to_number (t : option Z) : Z :=
  match t with Some z => z | None => 0 end.

(** [_checkCircuitBreaker()] at clock [now]. *)
Definition _checkCircuitBreaker (now : Z) (cb : circuitBreaker)
  : bool * circuitBreaker :=
  match cb_state cb with
  | CLOSED => (true, cb)
  | OPEN =>
      if timeout cb <? now - to_number (lastFailureTime cb) then
        (true,
         CircuitBreaker HALF_OPEN (failureCount cb) (lastFailureTime cb) 0
           (threshold cb) (timeout cb) (resetThreshold cb))
      else (false, cb)
  | HALF_OPEN => (true, cb)
  end.

(** [_recordSuccess()]. *)
Definition _recordSuccess (cb : circuitBreaker) : circuitBreaker :=
  match cb_state cb with
  | HALF_OPEN =>
      let n := successCount cb + 1 in
      if resetThreshold cb <=? n then
        CircuitBreaker CLOSED 0 (lastFailureTime cb) n
          (threshold cb) (timeout cb) (resetThreshold cb)
      else
        CircuitBreaker HALF_OPEN (failureCount cb) (lastFailureTime cb) n
          (threshold cb) (timeout cb) (resetThreshold cb)
  | CLOSED =>
      CircuitBreaker CLOSED 0 (lastFailureTime cb) (successCount cb)
        (threshold cb) (timeout cb) (resetThreshold cb)
  | OPEN => cb
  end.

(** [_recordFailure()] at clock [now]. *)
Definition _recordFailure (now : Z) (cb : circuitBreaker)
  : circuitBreaker :=
  let n := failureCount cb + 1 in
  CircuitBreaker
    (if threshold cb <=? n then OPEN else cb_state cb)
    n (Some now) (successCount cb)
    (threshold cb) (timeout cb) (resetThreshold cb).

(** Failures recorded one after the other, at the given clock readings. *)
Definition failures (times : list Z) (cb : circuitBreaker)
  : circuitBreaker :=
  fold_left (fun c t => _recordFailure t c) times cb.

(** [n] successes recorded one after the other. *)
Definition successes (n : nat) (cb : circuitBreaker) : circuitBreaker :=
  Nat.iter n _recordSuccess cb.

(** Admission checks made one after the other, none of the admitted
    requests having completed in between: the answers, and the breaker
    afterwards. *)
Fixpoint admissions (times : list Z) (cb : circuitBreaker)
  : list bool * circuitBreaker :=
  match times with
  | [] => ([], cb)
  | t :: rest =>
      let '(ok, cb1) := _checkCircuitBreaker t cb in
      let '(oks, cb2) := admissions rest cb1 in
      (ok :: oks, cb2)
  end.

(** How many of these checks were admitted. *)
Definition admitted (times : list Z) (cb : circuitBreaker) : nat :=
  List.length (filter (fun b => b = true) (admissions times cb).1).

(** The settings never change. *)
Definition same_settings (a b : circuitBreaker) : Prop :=
  threshold a = threshold b /\ timeout a = timeout b
  /\ resetThreshold a = resetThreshold b.

End Breaker.

(** ** The request pipeline of [DataGolfService] *)

Module Service.
Import Js.

(** [this.rateLimiter]. *)
Record rateLimiter : Type := RateLimiter {
  requests : list Z;
  maxRequests : Z;
  windowMs : Z
}.

(** [_checkRateLimit()] at clock [now]. *)
Definition _checkRateLimit (now : Z) (rl : rateLimiter)
  : bool * rateLimiter :=
  let kept := filter (fun timestamp => now - timestamp < windowMs rl)
                     (requests rl) in
  if maxRequests rl <=? Z.of_nat (List.length kept)
  then (false, RateLimiter kept (maxRequests rl) (windowMs rl))
  else (true,
        RateLimiter (kept ++ [now])%list (maxRequests rl) (windowMs rl)).

(** The counters of [this.metrics]; the running average of the response
    time is a floating-point figure and stays outside the model. *)
Record metrics : Type := Metrics {
  totalRequests : Z;
  cacheHits : Z;
  cacheMisses : Z;
  errors : Z;
  lastRequestTime : option Z
}.

Record service : Type := ServiceState {
  cache : Cache.cache;
  circuitBreaker : Breaker.circuitBreaker;
  limiter : rateLimiter;
  stats : metrics
}.

(** The state that the constructor builds. *)
Definition initial : service :=
  ServiceState Cache.empty Breaker.initial (RateLimiter [] 100 60000)
               (Metrics 0 0 0 0 None).

(** The errors that [_executeWithCaching] throws. *)
Inductive error : Type :=
| RateLimitExceeded
| CircuitBreakerOpen
| Upstream (f : Client.failure).

(** Where an invocation of [_executeWithCaching] stands: suspended at one
    of its three [await]s, or settled. *)
Inductive progress : Type :=
| AwaitGet (cachedData : option Cache.jsdata)
| Fetching
| AwaitSet (data : Cache.jsdata)
| Returned (data : Cache.jsdata)
| Threw (e : error).


(** One invocation with its arguments. *)
Record task : Type := Task {
  cacheKey : string;
  useCache : bool;
  ttl : Cache.num;
  at_ : progress
}.

Definition with_stats (s : service) (m : metrics) : service :=
  ServiceState (cache s) (circuitBreaker s) (limiter s) m.
Definition with_breaker (s : service) (b : Breaker.circuitBreaker)
  : service :=
  ServiceState (cache s) b (limiter s) (stats s).

(** The [catch] block. *)
Definition failed (now : Z) (e : error) (s : service)
  : progress * service :=
  let m := stats s in
  (Threw e,
   with_breaker
     (with_stats s (Metrics (totalRequests m) (cacheHits m) (cacheMisses m)
                            (errors m + 1) (lastRequestTime m)))
     (Breaker._recordFailure now (circuitBreaker s))).

(** [this._recordSuccess(); return data]. *)
Definition succeeded (d : Cache.jsdata) (s : service)
  : progress * service :=
  (Returned d,
   with_breaker s (Breaker._recordSuccess (circuitBreaker s))).

Section Pipeline.
Variable cfg : Cache.cacheConfig.

(** From the call to the first [await]. *)
Definition begin (now : Z) (key : string) (use : bool) (s : service)
  : progress * service :=
  let m := stats s in
  let s0 :=
    with_stats s (Metrics (totalRequests m + 1) (cacheHits m)
                          (cacheMisses m) (errors m) (Some now)) in
  let '(allowed, rl) := _checkRateLimit now (limiter s0) in
  let s1 := ServiceState (cache s0) (circuitBreaker s0) rl (stats s0) in
  if negb allowed then failed now RateLimitExceeded s1 else
  let '(admitted, cb) :=
    Breaker._checkCircuitBreaker now (circuitBreaker s1) in
  let s2 := with_breaker s1 cb in
  if negb admitted then failed now CircuitBreakerOpen s2 else
  if use then
    let '(cachedData, c) := Cache.get cfg now key (cache s2) in
    (AwaitGet cachedData,
     ServiceState c (circuitBreaker s2) (limiter s2) (stats s2))
  else (Fetching, s2).

(** After [await this.cache.get(cacheKey)]; on a miss [apiCall()] is
    invoked and the task waits for the upstream. *)
Definition afterGet (cachedData : option Cache.jsdata) (s : service)
  : progress * service :=
  let m := stats s in
  match cachedData with
  | Some d =>
      succeeded d
        (with_stats s (Metrics (totalRequests m) (cacheHits m + 1)
                               (cacheMisses m) (errors m)
                               (lastRequestTime m)))
  | None =>
      (Fetching,
       with_stats s (Metrics (totalRequests m) (cacheHits m)
                             (cacheMisses m + 1) (errors m)
                             (lastRequestTime m)))
  end.

(** After [await apiCall()]: the normalized body of a fulfilled call is
    an object, hence truthy. *)
Definition afterFetch (now : Z) (t : task)
    (r : Client.attempt_result string) (s : service)
  : progress * service :=
  match r with
  | Client.Resolved body =>
      if useCache t then
        (AwaitSet (Cache.DPlain body),
         ServiceState
           (Cache.set cfg now (cacheKey t) (Cache.DPlain body) (ttl t)
                      (cache s))
           (circuitBreaker s) (limiter s) (stats s))
      else succeeded (Cache.DPlain body) s
  | Client.Rejected f => failed now (Upstream f) s
  end.

(** What the event loop can do next. *)
Inductive event : Type :=
| Call (key : string) (use : bool) (ttl : Cache.num)
    (* a caller invokes [_executeWithCaching] *)
| Resume (i : nat)
    (* the continuation of task [i] runs after its cache [await] *)
| Respond (i : nat) (r : Client.attempt_result string)
    (* the upstream call of task [i] settles *).

Record system : Type := System {
  svc : service;
  tasks : list task
}.

Definition boot : system := System initial [].

Definition settle (i : nat) (t : task) (r : progress * service)
    (tasks : list task) : system :=
  System r.2 (<[i := Task (cacheKey t) (useCache t) (ttl t) r.1]> tasks).

(** One turn of the event loop at clock [now]; an event that does not
    fit the state of its task changes nothing. *)
Definition step (now : Z) (e : event) (sys : system) : system :=
  match e with
  | Call key use t =>
      let '(p, s) := begin now key use (svc sys) in
      System s (tasks sys ++ [Task key use t p])%list
  | Resume i =>
      match tasks sys !! i with
      | Some t =>
          match at_ t with
          | AwaitGet r => settle i t (afterGet r (svc sys)) (tasks sys)
          | AwaitSet d => settle i t (succeeded d (svc sys)) (tasks sys)
          | _ => sys
          end
      | None => sys
      end
  | Respond i r =>
      match tasks sys !! i with
      | Some t =>
          match at_ t with
          | Fetching =>
              settle i t (afterFetch now t r (svc sys)) (tasks sys)
          | _ => sys
          end
      | None => sys
      end
  end.

(** A schedule: the events with their clock readings, oldest first. *)
Definition run (schedule : list (Z * event)) (sys : system) : system :=
  fold_left (fun s te => step te.1 te.2 s) schedule sys.


End Pipeline.




End Service.

(** ** The session envelope: [middleware/sessionManager.js] *)

Module Session.

Definition bytes : Type := list byte.

Definition SALT_LENGTH : nat := 32.
Definition IV_LENGTH : nat := 16.
Definition TAG_LENGTH : nat := 16.

(** The object built by [createSessionData]. *)
Record analytics : Type := Analytics {
  requestCount : Z;
  lastRequestAt : Z
}.

Record sessionData : Type := SessionData {
  id : string;
  createdAt : Z;
  lastAccessedAt : Z;
  expiresAt : Z;
  userAgent : string;
  clientIp : string;
  preferences : list (string * string);
  usage : analytics
}.

(** What [decryptSessionData] gives: the record, or the [unauthorized]
    error "Invalid session token" that its [catch] block throws. *)
Inductive decrypted : Type :=
| Session (data : sessionData)
| InvalidSessionToken.

Section Envelope.
(** The primitives of Node that the module calls.
    [pbkdf2Sync masterKey salt] is [crypto.pbkdf2Sync(masterKey, salt,
    100000, 32, 'sha256')].  [cipher key aad plaintext] is the
    ciphertext and the authentication tag of a cipher made by
    [crypto.createCipher('aes-256-gcm', key)] after [setAAD(aad)];
    [decipher key aad tag ciphertext] is its counterpart made by
    [crypto.createDecipher], absent when [setAuthTag] or [final]
    throws.  Neither takes an initialisation vector: this API derives
    it from [key].  [stringify] is [JSON.stringify] followed by the
    UTF-8 encoding, [parse] the decoding followed by [JSON.parse]. *)
Variable pbkdf2Sync : string -> bytes -> bytes.
Variable cipher : bytes -> bytes -> bytes -> bytes * bytes.
Variable decipher : bytes -> bytes -> bytes -> bytes -> option bytes.
Variable stringify : sessionData -> bytes.
Variable parse : bytes -> option sessionData.
Variable toBase64 : bytes -> string.
Variable fromBase64 : string -> bytes.

Definition deriveKey (masterKey : string) (salt : bytes) : bytes :=
  pbkdf2Sync masterKey salt.

(** The buffer that [encryptSessionData] encodes; [salt] and [iv] are
    the two results of [generateSecureRandom]. *)
Definition combine (data : sessionData) (masterKey : string)
    (salt iv : bytes) : bytes :=
  let key := deriveKey masterKey salt in
  let '(encrypted, tag) := cipher key salt (stringify data) in
  (salt ++ iv ++ tag ++ encrypted)%list.

Definition encryptSessionData (data : sessionData) (masterKey : string)
    (salt iv : bytes) : string :=
  toBase64 (combine data masterKey salt iv).

Definition decryptSessionData (token : string) (masterKey : string)
  : decrypted :=
  let combined := fromBase64 token in
  let salt := take SALT_LENGTH combined in
  let iv := take IV_LENGTH (drop SALT_LENGTH combined) in
  let tag :=
    take TAG_LENGTH (drop (SALT_LENGTH + IV_LENGTH) combined) in
  let encrypted :=
    drop (SALT_LENGTH + IV_LENGTH + TAG_LENGTH) combined in
  let key := deriveKey masterKey salt in
  match decipher key salt tag encrypted with
  | Some decrypted =>
      match parse decrypted with
      | Some data => Session data
      | None => InvalidSessionToken
      end
  | None => InvalidSessionToken
  end.
End Envelope.

(** A combined buffer with its initialisation-vector field (the bytes 32
    to 47) overwritten. *)
Definition with_iv (iv' : bytes) (combined : bytes) : bytes :=
  (take SALT_LENGTH combined ++ iv'
   ++ drop (SALT_LENGTH + IV_LENGTH) combined)%list.

(** *** Bits of a token *)

(** The character with bit [i] flipped. *)
Definition flip_ascii (i : N) (c : ascii) : ascii :=
  ascii_of_N (N.lxor (N_of_ascii c) (N.shiftl 1 i)).

(** The token with bit [bit] of its character at position [pos]
    flipped. *)
Fixpoint flip_bit (pos : nat) (bit : N) (token : string) : string :=
  match token with
  | EmptyString => EmptyString
  | String c rest =>
      match pos with
      | O => String (flip_ascii bit c) rest
      | S pos' => String c (flip_bit pos' bit rest)
      end
  end.

(** *** Base64 as [Buffer] implements it *)

Module Base64.

Definition alphabet : list ascii :=
  list_ascii_of_string
    "ABCDEFGHIJKLMNOPQRSTUVWXYZabcdefghijklmnopqrstuvwxyz0123456789+/".

Definition digit (n : N) : ascii :=
  nth (N.to_nat n) alphabet "="%char.

Fixpoint index_of (c : ascii) (l : list ascii) (i : N) : option N :=
  match l with
  | [] => None
  | x :: rest => if Ascii.eqb c x then Some i else index_of c rest (i + 1)
  end.

Definition byte_of (n : N) : byte :=
  match Byte.of_N (n mod 256) with Some b => b | None => Byte.x00 end.

(** [buffer.toString('base64')]. *)
Fixpoint encode (bs : bytes) : string :=
  match bs with
  | [] => ""
  | [a] =>
      let n := N.shiftl (Byte.to_N a) 16 in
      String (digit (N.shiftr n 18))
        (String (digit (N.land (N.shiftr n 12) 63)) "==")
  | [a; b] =>
      let n := N.lor (N.shiftl (Byte.to_N a) 16)
                     (N.shiftl (Byte.to_N b) 8) in
      String (digit (N.shiftr n 18))
        (String (digit (N.land (N.shiftr n 12) 63))
           (String (digit (N.land (N.shiftr n 6) 63)) "="))
  | a :: b :: c :: rest =>
      let n := N.lor (N.shiftl (Byte.to_N a) 16)
                 (N.lor (N.shiftl (Byte.to_N b) 8) (Byte.to_N c)) in
      String (digit (N.shiftr n 18))
        (String (digit (N.land (N.shiftr n 12) 63))
           (String (digit (N.land (N.shiftr n 6) 63))
              (String (digit (N.land n 63)) (encode rest))))
  end.

(** The value that the decoder of [Buffer.from] gives a character: it
    reads the URL-safe [-] and [_] as [+] and [/]. *)
Definition value_of (c : ascii) : option N :=
  if Ascii.eqb c "-" then Some 62%N
  else if Ascii.eqb c "_" then Some 63%N
  else index_of c alphabet 0.

(** The six-bit digits of a text: the decoder stops at the first [=] and
    passes over every other character without a value. *)
Fixpoint sextets (s : string) : list N :=
  match s with
  | EmptyString => []
  | String c rest =>
      if Ascii.eqb c "=" then []
      else match value_of c with
           | Some n => n :: sextets rest
           | None => sextets rest
           end
  end.

Fixpoint pack (l : list N) : bytes :=
  match l with
  | a :: b :: c :: d :: rest =>
      let n := N.lor (N.shiftl a 18)
                 (N.lor (N.shiftl b 12) (N.lor (N.shiftl c 6) d)) in
      byte_of (N.shiftr n 16) :: byte_of (N.shiftr n 8) :: byte_of n
        :: pack rest
  | [a; b; c] =>
      let n := N.lor (N.shiftl a 18)
                 (N.lor (N.shiftl b 12) (N.shiftl c 6)) in
      [byte_of (N.shiftr n 16); byte_of (N.shiftr n 8)]
  | [a; b] =>
      let n := N.lor (N.shiftl a 18) (N.shiftl b 12) in
      [byte_of (N.shiftr n 16)]
  | _ => []
  end.

(** [Buffer.from(token, 'base64')]. *)
Definition decode (s : string) : bytes := pack (sextets s).

End Base64.

(** *** An executable instance of the primitives

    Stand-ins with the interface and the algebra of the real ones (a
    keyed stream cipher with a keyed checksum as its tag, and the JSON
    text of a session record), to run the envelope on concrete tokens. *)

Module Instance.

Definition xor_byte (a b : byte) : byte :=
  Base64.byte_of (N.lxor (Byte.to_N a) (Byte.to_N b)).

(** The first [n] bytes of the seed repeated, each mixed with its
    position. *)
Fixpoint stream (n : nat) (i : N) (seed cur : bytes) : bytes :=
  match n with
  | O => []
  | S n' =>
      match cur with
      | [] =>
          match seed with
          | [] => Base64.byte_of i :: stream n' (i + 1) seed []
          | b :: rest =>
              xor_byte b (Base64.byte_of i) :: stream n' (i + 1) seed rest
          end
      | b :: rest =>
          xor_byte b (Base64.byte_of i) :: stream n' (i + 1) seed rest
      end
  end.

Definition pbkdf2Sync (masterKey : string) (salt : bytes) : bytes :=
  stream 32 0 (list_byte_of_string masterKey ++ salt)%list [].

Definition xor_with (key data : bytes) : bytes :=
  zip_with xor_byte data (stream (List.length data) 0 key []).

Fixpoint le_bytes (n : nat) (x : N) : bytes :=
  match n with
  | O => []
  | S n' => Base64.byte_of x :: le_bytes n' (N.shiftr x 8)
  end.

Definition checksum (key aad text : bytes) : bytes :=
  le_bytes 16
    (fold_left (fun acc b => (acc * 257 + Byte.to_N b + 1) mod 2 ^ 128)%N
               (key ++ aad ++ text)%list 7%N).

Definition cipher (key aad plaintext : bytes) : bytes * bytes :=
  let encrypted := xor_with key plaintext in
  (encrypted, checksum key aad encrypted).

Definition decipher (key aad tag encrypted : bytes) : option bytes :=
  if bool_decide (Byte.to_N <$> tag
                  = Byte.to_N <$> checksum key aad encrypted)
  then Some (xor_with key encrypted)
  else None.

(** The JSON text of a record whose strings need no escaping. *)
Definition dquote : ascii := ascii_of_N 34.

Definition quoted (s : string) : string :=
  String dquote (s ++ String dquote "").

Definition stringify (d : sessionData) : bytes :=
  list_byte_of_string
    ("{" ++ quoted "id" ++ ":" ++ quoted (id d)
     ++ "," ++ quoted "createdAt" ++ ":" ++ pretty (createdAt d)
     ++ "," ++ quoted "lastAccessedAt" ++ ":" ++ pretty (lastAccessedAt d)
     ++ "," ++ quoted "expiresAt" ++ ":" ++ pretty (expiresAt d)
     ++ "," ++ quoted "userAgent" ++ ":" ++ quoted (userAgent d)
     ++ "," ++ quoted "clientIp" ++ ":" ++ quoted (clientIp d)
     ++ "," ++ quoted "preferences" ++ ":{"
     ++ Js.join ","
          ((fun kv => quoted kv.1 ++ ":" ++ quoted kv.2)
             <$> preferences d)
     ++ "}," ++ quoted "analytics" ++ ":{" ++ quoted "requestCount" ++ ":"
     ++ pretty (requestCount (usage d))
     ++ "," ++ quoted "lastRequestAt" ++ ":"
     ++ pretty (lastRequestAt (usage d)) ++ "}}").

(** A reader for texts of that shape with an empty [preferences]. *)
Fixpoint expect (prefix s : string) : option string :=
  match prefix with
  | EmptyString => Some s
  | String p prefix' =>
      match s with
      | String c s' => if Ascii.eqb p c then expect prefix' s' else None
      | EmptyString => None
      end
  end.

Fixpoint until_quote (s : string) : option (string * string) :=
  match s with
  | EmptyString => None
  | String c s' =>
      if Ascii.eqb c dquote then Some (EmptyString, s')
      else '(word, rest) ← until_quote s'; Some (String c word, rest)
  end.

Fixpoint digits (s : string) (acc : N) (seen : bool)
  : option (N * string) :=
  match s with
  | EmptyString => if seen then Some (acc, s) else None
  | String c s' =>
      let n := N_of_ascii c in
      if ((48 <=? n) && (n <=? 57))%N
      then digits s' (acc * 10 + (n - 48))%N true
      else if seen then Some (acc, s) else None
  end.

Definition number (s : string) : option (Z * string) :=
  match s with
  | String "-" s' => '(n, rest) ← digits s' 0%N false;
                     Some (- Z.of_N n, rest)
  | _ => '(n, rest) ← digits s 0%N false; Some (Z.of_N n, rest)
  end.

Definition text (label : string) (s : string)
  : option (string * string) :=
  s1 ← expect (quoted label ++ ":" ++ String dquote "") s; until_quote s1.

Definition numeric (label : string) (s : string) : option (Z * string) :=
  s1 ← expect (quoted label ++ ":") s; number s1.

Definition parse (b : bytes) : option sessionData :=
  s0 ← expect "{" (string_of_list_byte b);
  '(i, s1) ← text "id" s0;
  s2 ← expect "," s1; '(c, s3) ← numeric "createdAt" s2;
  s4 ← expect "," s3; '(l, s5) ← numeric "lastAccessedAt" s4;
  s6 ← expect "," s5; '(e, s7) ← numeric "expiresAt" s6;
  s8 ← expect "," s7; '(ua, s9) ← text "userAgent" s8;
  s10 ← expect "," s9; '(ip, s11) ← text "clientIp" s10;
  s12 ← expect ("," ++ quoted "preferences" ++ ":{},"
                ++ quoted "analytics" ++ ":{") s11;
  '(rc, s13) ← numeric "requestCount" s12;
  s14 ← expect "," s13; '(lr, s15) ← numeric "lastRequestAt" s14;
  s16 ← expect "}}" s15;
  if String.eqb s16 "" then
    Some (SessionData i c l e ua ip [] (Analytics rc lr))
  else None.

(** A record as [createSessionData] makes it, and the random bytes of
    one encryption. *)
Definition sample : sessionData :=
  SessionData "3f2b8c1e-9d4a-4c6b-8f1e-2a7b9c0d1e2f"
    1700000000000 1700000000000 1700086400000
    "Mozilla/5.0" "203.0.113.7" [] (Analytics 0 1700000000000).

Definition masterKey : string := "test-encryption-key-32-chars-long".
Definition salt : bytes := stream 32 101 [] [].
Definition iv : bytes := repeat Byte.x00 16.

Definition token : string :=
  encryptSessionData pbkdf2Sync cipher stringify Base64.encode
    sample masterKey salt iv.

(** The same sixteen bytes with one bit of the second one set. *)
Definition iv' : bytes := Byte.x00 :: Byte.x08 :: repeat Byte.x00 14.

End Instance.

End Session.

(** ** More of the upstream client *)

Module ClientMore.
Import Client.

(** The values on which a property read throws. *)
Definition nullish (v : json) : bool :=
  match v with
  | JUndefined | JNull => true
  | _ => false
  end.

(** The transformers that map over an array, each with the name under
    which it returns the mapped items. *)
Definition listTransformers : list (string * (Z -> json -> option json)) :=
  [ ("tournaments", _transformTournamentData);
    ("rankings", _transformRankingsData);
    ("field", _transformFieldData);
    ("scores", _transformScoringData);
    ("odds", _transformBettingOddsData) ].

(** The same transformers, each with the arrow function that it maps over
    the array. *)
Definition listItems
  : list (string * (Z -> json -> option json)
          * (Z -> json -> option json)) :=
  [ ("tournaments", _transformTournamentData, tournamentItem);
    ("rankings", _transformRankingsData, rankingItem);
    ("field", _transformFieldData, fieldItem);
    ("scores", _transformScoringData, scoreItem);
    ("odds", _transformBettingOddsData, oddItem) ].

(** The normalized body of a list transformer. *)
Definition listBody (label : string) (items : list json) (count now : Z)
  : json :=
  JObj [ (label, JArr items);
         ("metadata", JObj [ ("count", JNum count);
                             ("transformedAt", JIsoDate now) ]) ].

End ClientMore.

(** ** Runs of the rate limiter and of the pipeline *)

Module ServiceMore.
Import Service.

(** Rate-limit checks made one after the other at the given clock
    readings: the readings that were admitted, oldest first, and the
    limiter afterwards. *)
Fixpoint limit_run (times : list Z) (rl : rateLimiter)
  : list Z * rateLimiter :=
  match times with
  | [] => ([], rl)
  | t :: rest =>
      let '(allowed, rl1) := _checkRateLimit t rl in
      let '(admitted, rl2) := limit_run rest rl1 in
      (if allowed then t :: admitted else admitted, rl2)
  end.

(** Invocations of [_executeWithCaching] made one after the other at the
    given clock readings, each taken up to its first [await]: where each
    one stands, and the service afterwards. *)
Fixpoint calls (cfg : Cache.cacheConfig) (key : string) (use : bool)
    (times : list Z) (s : service) : list progress * service :=
  match times with
  | [] => ([], s)
  | t :: rest =>
      let '(p, s1) := begin cfg t key use s in
      let '(ps, s2) := calls cfg key use rest s1 in
      (p :: ps, s2)
  end.

(** Clock readings that follow [prev] with steps of at most [gap]. *)
Fixpoint spaced (gap prev : Z) (times : list Z) : Prop :=
  match times with
  | [] => True
  | t :: rest => t - prev <= gap /\ spaced gap t rest
  end.

(** A service whose circuit was opened by five failures, the last one at
    the clock reading 5000. *)
Definition tripped : service :=
  ServiceState Cache.empty
    (Breaker.failures [1000; 2000; 3000; 4000; 5000] Breaker.initial)
    (RateLimiter [] 100 60000) (Metrics 5 0 0 5 (Some 5000)).

(** A service that has admitted a hundred calls at the clock reading
    1000: its rate limiter is full for the next minute. *)
Definition flooded : service :=
  (calls Cache.productionConfig "rankings" true (replicate 100 1000)
     initial).2.

End ServiceMore.

(** ** More of the cache service *)

Module CacheMore.
Import Js Cache.

(** The keys of every level are distinct, as those of a [Map] are. *)
Definition nodup_levels (c : cache) : Prop :=
  NoDup (keys (l1Cache c)) /\ NoDup (keys (l2Cache c))
  /\ NoDup (keys (l3Cache c)).

(** The key is held by some level. *)
Definition cached (key : string) (c : cache) : bool :=
  assoc_has key (l1Cache c) || assoc_has key (l2Cache c)
  || assoc_has key (l3Cache c).

(** The configuration of a development machine: two levels. *)
Definition developmentConfig : cacheConfig :=
  CacheConfig (LevelConfig true (Some 1000) (Some 300))
              (LevelConfig true (Some 5000) (Some 1800))
              (LevelConfig false None None).

(** Level 1 has lost, by an eviction, the key that [set] stored in both
    levels for sixty seconds. *)
Definition demoted : cache :=
  _evictFromL1
    (set developmentConfig 1700000000000 "rankings:tour:PGA"
       (DPlain "body") (Some 60) empty).

(** The calls that reach the cache from outside: the timer that
    [_setTTLTimer] arms calls [delete] as well. *)
Inductive op : Type :=
| OpGet (key : string)
| OpSet (key : string) (d : jsdata) (t : num)
| OpDelete (key : string).

Definition op_key (o : op) : string :=
  match o with
  | OpGet key => key
  | OpSet key _ _ => key
  | OpDelete key => key
  end.

Definition apply (cfg : cacheConfig) (now : Z) (o : op) (c : cache)
  : cache :=
  match o with
  | OpGet key => (get cfg now key c).2
  | OpSet key d t => set cfg now key d t c
  | OpDelete key => (delete key c).2
  end.

(** A run of calls, each made at its own clock reading. *)
Fixpoint run (cfg : cacheConfig) (ops : list (Z * op)) (c : cache)
  : cache :=
  match ops with
  | [] => c
  | (now, o) :: rest => run cfg rest (apply cfg now o c)
  end.

(** A level with a [maxSize] has room for one entry at least. *)
Definition roomy (lv : levelConfig) : Prop :=
  forall n, maxSize lv = Some n -> 1 <= n.

(** The map of a level holds no more than the level's [maxSize]. *)
Definition within {V} (lv : levelConfig) (m : list (string * V)) : Prop :=
  forall n, maxSize lv = Some n -> size m <= n.

(** Level 1 and its access order hold the same keys. *)
Definition l1_ok (cfg : cacheConfig) (c : cache) : Prop :=
  NoDup (keys (l1Cache c)) /\ NoDup (keys (l1AccessOrder c))
  /\ (forall k, assoc_has k (l1AccessOrder c) = assoc_has k (l1Cache c))
  /\ assoc_has "" (l1Cache c) = false
  /\ within (l1 cfg) (l1Cache c).

Definition l2_ok (cfg : cacheConfig) (c : cache) : Prop :=
  assoc_has "" (l2Cache c) = false /\ within (l2 cfg) (l2Cache c).

(** Every entry of level 3 is an object of the heap. *)
Definition l3_ok (cfg : cacheConfig) (c : cache) : Prop :=
  assoc_has "" (l3Cache c) = false
  /\ (forall k l, (k, l) ∈ l3Cache c -> (l < List.length (heap c))%nat)
  /\ within (l3 cfg) (l3Cache c).

Definition inv (cfg : cacheConfig) (c : cache) : Prop :=
  l1_ok cfg c /\ l2_ok cfg c /\ l3_ok cfg c.

(** A level 2 of capacity one. *)
Definition tinyL2 : cacheConfig :=
  CacheConfig (LevelConfig false None None)
              (LevelConfig true (Some 1) (Some 300))
              (LevelConfig false None None).

Definition sampleOps : list (Z * op) :=
  [(1000, OpSet "tournament:season:2024" (DPlain "A") None);
   (2000, OpSet "rankings:tour:PGA" (DPlain "B") None);
   (3000, OpGet "tournament:season:2024");
   (4000, OpSet "field:tournamentId:14" (DPlain "C") (Some 60));
   (5000, OpDelete "field:tournamentId:14")].

(** Two keys stored in every level, the second one read once. *)
Definition readTwice : cache :=
  run productionConfig
    [(1000, OpSet "tournament:season:2024" (DPlain "A") None);
     (2000, OpSet "rankings:tour:PGA" (DPlain "B") None);
     (3000, OpGet "rankings:tour:PGA")] empty.

(** *** The periodic sweep and the invalidation by pattern *)

(** [this._isExpired(entry)] on the entry object at [l]. *)
Definition expired_at (now : Z) (h : list entry) (l : loc) : bool :=
  match h !! l with
  | Some e => _isExpired now e
  | None => false
  end.

(** One loop of [_cleanupExpiredEntries]: it runs over the entries of a
    map and drops the expired ones from it as it goes (a [Map] iterator
    is not disturbed by the deletion of the entry it stands on); the
    first component counts them ([cleaned]). *)
Fixpoint sweep (now : Z) (drop : string -> cache -> cache)
    (todo : list (string * loc)) (acc : Z * cache) : Z * cache :=
  match todo with
  | [] => acc
  | (key, l) :: rest =>
      sweep now drop rest
        (if expired_at now (heap acc.2) l
         then (acc.1 + 1, drop key acc.2) else acc)
  end.

Definition dropL1 (key : string) (c : cache) : cache :=
  set_l1 c (assoc_delete key (l1Cache c))
           (assoc_delete key (l1AccessOrder c)).
Definition dropL2 (key : string) (c : cache) : cache :=
  set_l2 c (assoc_delete key (l2Cache c)).
Definition dropL3 (key : string) (c : cache) : cache :=
  set_l3 c (assoc_delete key (l3Cache c)).

(** [_cleanupExpiredEntries()], the callback of the five-minute interval
    that the constructor arms; the clock is read once for the sweep. *)
Definition _cleanupExpiredEntries (now : Z) (c : cache) : Z * cache :=
  let a1 := sweep now dropL1 (l1Cache c) (0, c) in
  let a2 := sweep now dropL2 (l2Cache a1.2) a1 in
  sweep now dropL3 (l3Cache a2.2) a2.

(** One loop of [invalidateByPattern]: the keys that the pattern matches
    and the guard lets through are deleted from all levels and counted
    ([invalidated]). *)
Fixpoint purge (test : string -> bool) (guard : string -> cache -> bool)
    (todo : list string) (acc : Z * cache) : Z * cache :=
  match todo with
  | [] => acc
  | key :: rest =>
      purge test guard rest
        (if test key && guard key acc.2
         then (acc.1 + 1, (delete key acc.2).2) else acc)
  end.

(** [invalidateByPattern(pattern)], run without another cache call
    between its steps.  [regex] is [regex.test] for the pattern, absent
    when [new RegExp(pattern)] throws: the [catch] then returns 0. *)
Definition invalidateByPattern (regex : option (string -> bool))
    (c : cache) : Z * cache :=
  match regex with
  | None => (0, c)
  | Some test =>
      let a1 := purge test (fun _ _ => true) (keys (l1Cache c)) (0, c) in
      let a2 :=
        purge test (fun key c => negb (assoc_has key (l1Cache c)))
          (keys (l2Cache a1.2)) a1 in
      purge test
        (fun key c => negb (assoc_has key (l1Cache c))
                      && negb (assoc_has key (l2Cache c)))
        (keys (l3Cache a2.2)) a2
  end.

(** The entries of a map that are not expired. *)
Definition live (now : Z) (h : list entry) (m : list (string * loc))
  : list (string * loc) :=
  filter (fun p => expired_at now h p.2 = false) m.

(** The entries of a map whose key the pattern does not match. *)
Definition unmatched (test : string -> bool) (m : list (string * loc))
  : list (string * loc) :=
  filter (fun p => test p.1 = false) m.

(** What a loop of [invalidateByPattern] over the keys [ks] leaves of a
    map, and the keys that it counts. *)
Definition purged (test : string -> bool) (ks : list string)
    (m : list (string * loc)) : list (string * loc) :=
  filter (fun p => ~ (test p.1 = true /\ p.1 ∈ ks)) m.

Definition matching (test : string -> bool) (ks : list string)
  : list string :=
  filter (fun k => test k = true) ks.

(** Three keys of two endpoints, stored in every level. *)
Definition threeKeys : cache :=
  run productionConfig
    [(1000, OpSet "tournament:season:2024" (DPlain "A") (Some 60));
     (2000, OpSet "rankings:tour:PGA" (DPlain "B") None);
     (3000, OpSet "tournament:season:2025" (DPlain "C") None)] empty.

(** [/^tournament:/.test]. *)
Definition tournamentKeys (key : string) : bool :=
  String.prefix "tournament:" key.

(** *** What runs between two calls *)

(** The callbacks that the event loop runs for the cache by itself: that
    of the TTL timer of a key, which calls [delete(key)], and that of
    the five-minute interval, [_cleanupExpiredEntries()]. *)
Inductive background : Type :=
| Timeout (key : string)
| Cleanup.

(** The timer of the key is pending and its time has come. *)
Definition due (now : Z) (key : string) (c : cache) : bool :=
  match assoc_get key (ttlTimers c) with
  | Some time => time <=? now
  | None => false
  end.

(** One callback at clock [now].  The timer of a key runs only when it
    is due; there is no result for one that is not. *)
Definition background_step (now : Z) (b : background) (c : cache)
  : option cache :=
  match b with
  | Timeout key => if due now key c then Some (delete key c).2 else None
  | Cleanup => Some (_cleanupExpiredEntries now c).2
  end.

(** The callbacks that ran, oldest first, each at its clock reading. *)
Fixpoint background_run (bs : list (Z * background)) (c : cache)
  : option cache :=
  match bs with
  | [] => Some c
  | (now, b) :: rest =>
      match background_step now b c with
      | Some c' => background_run rest c'
      | None => None
      end
  end.

(** Every enabled level holds the entry [e] under the key. *)
Definition stored (cfg : cacheConfig) (key : string) (e : entry)
    (c : cache) : Prop :=
  (enabled (l1 cfg) = true
   -> entry_of (heap c) (l1Cache c) key = Some e)
  /\ (enabled (l2 cfg) = true
      -> entry_of (heap c) (l2Cache c) key = Some e)
  /\ (enabled (l3 cfg) = true
      -> entry_of (heap c) (l3Cache c) key = Some e).

(** A body stored for 3,000,000 seconds: [ttl * 1000] is above
    [TIMEOUT_MAX]. *)
Definition longLived : cache :=
  set productionConfig 1700000000000 "rankings:tour:PGA" (DPlain "body")
    (Some 3000000) empty.

(** A key stored with a timer of sixty seconds, then stored again on a
    configuration without a default TTL, which arms no timer. *)
Definition noDefaultTtl : cacheConfig :=
  CacheConfig (LevelConfig true (Some 1000) None)
              (LevelConfig true (Some 5000) None)
              (LevelConfig false None None).

Definition storedTwice : cache :=
  set noDefaultTtl 1700000050000 "rankings:tour:PGA" (DPlain "new") None
    (set noDefaultTtl 1700000000000 "rankings:tour:PGA" (DPlain "old")
       (Some 60) empty).

End CacheMore.

(** ** The session middleware: [sessionManager] and its helpers *)

Module SessionMore.
Import Js Session.

Definition SESSION_TIMEOUT : Z := 24 * 60 * 60 * 1000.

(** [maxAge] of [isSessionValid]: seven days. *)
Definition maxAge : Z := 7 * 24 * 60 * 60 * 1000.

(** What the middleware reads of a request: [req.path],
    [req.get('X-Session-ID')], [req.cookies.golf_session] (absent also
    when [req.cookies] is), [req.get('User-Agent')] and [req.ip]. *)
Record request : Type := Request {
  path : string;
  sessionHeader : option string;
  sessionCookie : option string;
  userAgentHeader : option string;
  ip : option string
}.

(** A string that is present and truthy. *)
Definition truthy_opt (v : option string) : option string :=
  match v with
  | Some s => if truthy_str s then Some s else None
  | None => None
  end.

(** [v || d]. *)
Definition or_default (v : option string) (d : string) : string :=
  match truthy_opt v with
  | Some s => s
  | None => d
  end.

(** [createSessionData(req)] at clock reading [now], [uuid] being the
    result of [crypto.randomUUID()]. *)
Definition createSessionData (now : Z) (uuid : string) (req : request)
  : sessionData :=
  SessionData uuid now now (now + SESSION_TIMEOUT)
    (or_default (userAgentHeader req) "unknown")
    (or_default (ip req) "unknown")
    [] (Analytics 0 now).

Definition isSessionValid (now : Z) (d : sessionData) : bool :=
  if negb (truthy_str (id d)) || (createdAt d =? 0) || (expiresAt d =? 0)
  then false
  else if expiresAt d <=? now then false
  else if maxAge <? now - createdAt d then false
  else true.

Definition updateSessionAccess (now : Z) (d : sessionData) : sessionData :=
  SessionData (id d) (createdAt d) now (now + SESSION_TIMEOUT)
    (userAgent d) (clientIp d) (preferences d)
    (Analytics (requestCount (usage d) + 1) now).

(** [extractSessionToken(req)]: the header first, then the cookie. *)
Definition extractSessionToken (req : request) : option string :=
  match truthy_opt (sessionHeader req) with
  | Some token => Some token
  | None => truthy_opt (sessionCookie req)
  end.

(** What the middleware does to the response. *)
Inductive effect : Type :=
| SetHeader (token : string)
| SetCookie (token : string)
| RemoveHeader
| ClearCookie.

Definition setSessionToken (isTesting : bool) (token : string)
  : list effect :=
  SetHeader token :: (if isTesting then [] else [SetCookie token]).

Definition clearSessionToken (isTesting : bool) : list effect :=
  RemoveHeader :: (if isTesting then [] else [ClearCookie]).

(** How the middleware hands over: [next()] with [req.session] as
    attached (absent on the health routes) and the effects on the
    response, or [next(error)]. *)
Inductive handled : Type :=
| Next (session : option sessionData) (effects : list effect)
| NextError (message : string).

Section Middleware.
Variable pbkdf2Sync : string -> bytes -> bytes.
Variable cipher : bytes -> bytes -> bytes -> bytes * bytes.
Variable decipher : bytes -> bytes -> bytes -> bytes -> option bytes.
Variable stringify : sessionData -> bytes.
Variable parse : bytes -> option sessionData.
Variable toBase64 : bytes -> string.
Variable fromBase64 : string -> bytes.

(** [sessionManager(req, res, next)].  [masterKey] is
    [config.security.encryptionKey]; [now] is the reading of the clock
    during the request, [uuid], [salt] and [iv] are the random values
    that it draws. *)
Definition sessionManager (masterKey : option string) (isTesting : bool)
    (now : Z) (uuid : string) (salt iv : bytes) (req : request)
  : handled :=
  if String.prefix "/health" (path req) then Next None []
  else
    match truthy_opt masterKey with
    | None => NextError "Session management unavailable"
    | Some key =>
        let token_of d :=
          encryptSessionData pbkdf2Sync cipher stringify toBase64
            d key salt iv in
        let fresh cleared :=
          let d := createSessionData now uuid req in
          Next (Some d)
               (cleared ++ setSessionToken isTesting (token_of d))%list in
        match extractSessionToken req with
        | Some token =>
            match decryptSessionData pbkdf2Sync decipher parse fromBase64
                    token key with
            | Session d =>
                if isSessionValid now d then
                  let d' := updateSessionAccess now d in
                  Next (Some d') (setSessionToken isTesting (token_of d'))
                else fresh (clearSessionToken isTesting)
            | InvalidSessionToken => fresh (clearSessionToken isTesting)
            end
        | None => fresh []
        end
    end.
End Middleware.

(** The record that the middleware attaches after successive requests
    at the given times, each presenting the token of the response
    before; absent once a request is answered with a new session. *)
Fixpoint renew (d : sessionData) (times : list Z) : option sessionData :=
  match times with
  | [] => Some d
  | t :: rest =>
      if isSessionValid t d then renew (updateSessionAccess t d) rest
      else None
  end.

(** Every request comes less than [SESSION_TIMEOUT] after the one
    before. *)
Fixpoint in_time (prev : Z) (times : list Z) : Prop :=
  match times with
  | [] => True
  | t :: rest => t < prev + SESSION_TIMEOUT /\ in_time t rest
  end.

(** A request that presents the token of the sample record. *)
Definition returning : request :=
  Request "/api/tournaments" (Some Instance.token) None
          (Some "Mozilla/5.0") (Some "203.0.113.7").

End SessionMore.

(** ** The invalidation of the service: [DataGolfService.invalidateCache] *)

Module ServiceCache.
Import Js.

(** The regular expression that [invalidateCache(dataType, {})] selects,
    as its [test]: without a filter every data type but ['all'] gives a
    pattern that anchors a literal prefix, and ['.*'] matches every key.
    Absent for an unknown data type. *)
Definition pattern_test (dataType : string) : option (string -> bool) :=
  if String.eqb dataType "tournaments"
  then Some (String.prefix "tournament:")
  else if String.eqb dataType "rankings"
  then Some (String.prefix "rankings:")
  else if String.eqb dataType "field"
  then Some (String.prefix "field:")
  else if String.eqb dataType "scoring"
  then Some (String.prefix "scoring:")
  else if String.eqb dataType "playerStats"
  then Some (String.prefix "player-stats:")
  else if String.eqb dataType "bettingOdds"
  then Some (String.prefix "betting-odds:")
  else if String.eqb dataType "all"
  then Some (fun _ => true)
  else None.

(** [invalidateCache(dataType, {})]: the number of invalidated entries
    and the cache afterwards, or nothing when it throws
    [Unknown data type]. *)
Definition invalidateCache (dataType : string) (c : Cache.cache)
  : option (Z * Cache.cache) :=
  test ← pattern_test dataType;
  Some (CacheMore.invalidateByPattern (Some test) c).

(** The key pattern that each getter of the service passes to
    [generateKey], with the data type under which the route invalidates
    its entries. *)
Definition endpoints : list (string * string) :=
  [ ("tournament", "tournaments");
    ("rankings", "rankings");
    ("field", "field");
    ("scoring", "scoring");
    ("playerStats", "playerStats");
    ("bettingOdds", "bettingOdds") ].

(** The tournaments cached for a request without options and for a
    request of one season. *)
Definition twoTournamentKeys : Cache.cache :=
  CacheMore.run Cache.productionConfig
    [(1000, CacheMore.OpSet "tournament" (Cache.DPlain "all") None);
     (2000, CacheMore.OpSet "tournament:season:2024" (Cache.DPlain "2024")
              None)] Cache.empty.

(** The four events of a caller, task [i], that misses the cache,
    fetches [body], stores it and returns. *)
Definition fetches (key : string) (t : Cache.num) (i : nat)
    (body : string) (t1 t1' t2 t2' : Z) : list (Z * Service.event) :=
  [ (t1, Service.Call key true t); (t1', Service.Resume i);
    (t2, Service.Respond i (Client.Resolved body));
    (t2', Service.Resume i) ].

(** The callbacks of the cache that run between two events of the
    pipeline: they see the cache only. *)
Definition background (bs : list (Z * CacheMore.background))
    (sys : Service.system) : option Service.system :=
  match CacheMore.background_run bs (Service.cache (Service.svc sys)) with
  | Some c =>
      Some (Service.System
              (Service.ServiceState c
                 (Service.circuitBreaker (Service.svc sys))
                 (Service.limiter (Service.svc sys))
                 (Service.stats (Service.svc sys)))
              (Service.tasks sys))
  | None => None
  end.

(** The system when a first caller has stored the leaderboard at 1500
    for thirty seconds and the periodic sweep has run once. *)
Definition afterFirstCaller : Service.system :=
  default Service.boot
    (background [(10000, CacheMore.Cleanup)]
       (Service.run Cache.productionConfig
          (fetches "scoring:tournamentId:14" (Some 30) 0 "leaderboard"
             1000 1001 1500 1501)
          (Service.System Service.initial []))).

End ServiceCache.

(** ** More of the circuit breaker *)

Module BreakerMore.
Import Breaker.

(** The three methods of the breaker, as the pipeline calls them. *)
Inductive call : Type :=
| Check (now : Z)
| Success
| Failure (now : Z).

Definition apply (c : call) (cb : circuitBreaker) : circuitBreaker :=
  match c with
  | Check now => (_checkCircuitBreaker now cb).2
  | Success => _recordSuccess cb
  | Failure now => _recordFailure now cb
  end.

(** Calls made one after the other, in any order. *)
Definition trace (calls : list call) (cb : circuitBreaker)
  : circuitBreaker :=
  fold_left (fun cb c => apply c cb) calls cb.

End BreakerMore.

(** ** The metrics of the pipeline *)

Module PipelineMore.
Import Service.

(** The invocation has thrown. *)
Definition threw (t : task) : bool :=
  match at_ t with
  | Threw _ => true
  | _ => false
  end.

(** The invocation uses the cache and has got the answer of its lookup:
    it went on to the upstream or returned. *)
Definition looked_up (t : task) : bool :=
  useCache t &&
  match at_ t with
  | Fetching | AwaitSet _ | Returned _ | Threw (Upstream _) => true
  | AwaitGet _ | Threw _ => false
  end.

(** How many invocations satisfy a test. *)
Definition tally (f : task -> bool) (l : list task) : Z :=
  Z.of_nat (List.length (filter (fun t => f t = true) l)).

(** Only an invocation that uses the cache waits for it. *)
Definition waits_with_cache (t : task) : Prop :=
  match at_ t with
  | AwaitGet _ | AwaitSet _ => useCache t = true
  | _ => True
  end.

(** The counters agree with the invocations. *)
Definition accounted (sys : system) : Prop :=
  totalRequests (stats (svc sys)) = Z.of_nat (List.length (tasks sys))
  /\ errors (stats (svc sys)) = tally threw (tasks sys)
  /\ cacheHits (stats (svc sys)) + cacheMisses (stats (svc sys))
     = tally looked_up (tasks sys)
  /\ 0 <= cacheHits (stats (svc sys))
  /\ 0 <= cacheMisses (stats (svc sys))
  /\ Forall waits_with_cache (tasks sys).

End PipelineMore.

(** ** More of the cache keys *)

Module CacheKeyMore.
Import Js CacheKey.

(** The character occurs in the string. *)
Fixpoint has_char (c : ascii) (s : string) : bool :=
  match s with
  | EmptyString => false
  | String a rest => Ascii.eqb a c || has_char c rest
  end.

(** A parameter bag whose names hold neither separator of the key and
    whose values, as printed, do not hold the one between parameters. *)
Definition clean (p : params) : Prop :=
  Forall (fun kv => has_char ":" kv.1 = false
                    /\ has_char "|" kv.1 = false
                    /\ has_char "|" (to_display kv.2) = false) p.

End CacheKeyMore.

(** * Properties *)

(** ** Facts about the helpers *)

Module JsFacts.
Import Js.

(** Sorting forgets the order in which the keys were inserted. *)
Lemma sort_perm (l1 l2 : list string) :
  l1 ≡ₚ l2 -> merge_sort String.le l1 = merge_sort String.le l2.
Proof.
  intros H. apply (Sorted_unique String.le).
  - apply Sorted_merge_sort, _.
  - apply Sorted_merge_sort, _.
  - by rewrite !merge_sort_Permutation.
Qed.

Section Assoc.
Context {V : Type}.
Implicit Types (m : list (string * V)) (k : string) (v : V).

Lemma assoc_get_None m k : k ∉ m.*1 -> assoc_get k m = None.
Proof.
  induction m as [|[k' v'] m IH]; simpl; [done|].
  intros Hk. apply not_elem_of_cons in Hk as [Hne Hk].
  destruct (String.eqb_spec k k'); [done | auto].
Qed.

Lemma assoc_get_Some m k v :
  NoDup (m.*1) -> (k, v) ∈ m -> assoc_get k m = Some v.
Proof.
  induction m as [|[k' v'] m IH]; simpl; intros Hnd Hin.
  - by apply elem_of_nil in Hin.
  - apply NoDup_cons in Hnd as [Hk' Hnd].
    apply elem_of_cons in Hin as [Heq | Hin].
    + injection Heq as -> ->. by rewrite String.eqb_refl.
    + destruct (String.eqb_spec k k') as [-> | _]; [|auto].
      exfalso. apply Hk'. apply list_elem_of_fmap. by exists (k', v).
Qed.

Lemma assoc_get_elem m k v : assoc_get k m = Some v -> (k, v) ∈ m.
Proof.
  induction m as [|[k' v'] m IH]; simpl; [done|].
  destruct (String.eqb_spec k k') as [-> | _].
  - intros [= ->]. apply elem_of_cons. by left.
  - intros H. apply elem_of_cons. right. auto.
Qed.

(** A property read depends on the properties, not on their order. *)
Lemma assoc_get_perm m1 m2 k :
  NoDup (m1.*1) -> m1 ≡ₚ m2 -> assoc_get k m1 = assoc_get k m2.
Proof.
  intros Hnd Hp.
  assert (Hnd2 : NoDup (m2.*1)) by by rewrite <- Hp.
  destruct (assoc_get k m1) as [v|] eqn:E1.
  - symmetry. apply assoc_get_Some; [done|]. rewrite <- Hp.
    clear -E1. induction m1 as [|[k' v'] m1 IH]; simpl in *; [done|].
    destruct (String.eqb_spec k k') as [-> | _].
    + injection E1 as ->. apply elem_of_cons. by left.
    + apply elem_of_cons. right. auto.
  - symmetry. apply assoc_get_None. rewrite <- Hp.
    clear -E1. induction m1 as [|[k' v'] m1 IH]; simpl in *.
    + apply not_elem_of_nil.
    + destruct (String.eqb_spec k k') as [Heq | Hne]; [done|].
      apply not_elem_of_cons. auto.
Qed.
End Assoc.

Lemma join_nonempty sep x l : truthy_str x = true ->
  truthy_str (join sep (x :: l)) = true.
Proof. destruct x; [done|]. intros _. by destruct l. Qed.

Lemma join_cons_cons sep x y l :
  join sep (x :: y :: l) = x ++ sep ++ join sep (y :: l).
Proof. reflexivity. Qed.

Section Assoc_set.
Context {V : Type}.
Implicit Types (m : list (string * V)) (k : string) (v : V).

Lemma assoc_get_set m k k' v :
  assoc_get k' (assoc_set k v m)
  = if String.eqb k' k then Some v else assoc_get k' m.
Proof.
  induction m as [|[k0 v0] m IH]; simpl.
  - done.
  - destruct (String.eqb_spec k k0) as [-> | Hne]; simpl.
    + by destruct (String.eqb_spec k' k0).
    + destruct (String.eqb_spec k' k0) as [-> | Hne'].
      * by destruct (String.eqb_spec k0 k) as [-> | _].
      * apply IH.
Qed.

Lemma assoc_set_keys m k v : k ∈ m.*1 -> (assoc_set k v m).*1 = m.*1.
Proof.
  induction m as [|[k0 v0] m IH]; simpl; intros Hin.
  - by apply elem_of_nil in Hin.
  - destruct (String.eqb_spec k k0) as [-> | Hne]; simpl; [done|].
    f_equal. apply IH. apply elem_of_cons in Hin as [? | ?]; done.
Qed.
End Assoc_set.

(** Concatenation of strings. *)
Lemma append_assoc (a b c : string) : (a ++ b) ++ c = a ++ (b ++ c).
Proof.
  induction a as [|x a IH]; [done|].
  change (String x ((a ++ b) ++ c) = String x (a ++ (b ++ c))).
  by rewrite IH.
Qed.

Lemma append_nil_r (a : string) : a ++ "" = a.
Proof.
  induction a as [|x a IH]; [done|].
  change (String x (a ++ "") = String x a). by rewrite IH.
Qed.

Lemma to_list_append (a b : string) :
  list_ascii_of_string (a ++ b)
  = (list_ascii_of_string a ++ list_ascii_of_string b)%list.
Proof.
  induction a as [|x a IH]; [done|].
  change (x :: list_ascii_of_string (a ++ b)
          = x :: (list_ascii_of_string a ++ list_ascii_of_string b)%list).
  by rewrite IH.
Qed.

Lemma append_inv_tail (a b r : string) : a ++ r = b ++ r -> a = b.
Proof.
  intros H. apply (f_equal list_ascii_of_string) in H.
  rewrite !to_list_append in H. apply app_inv_tail in H.
  rewrite <- (string_of_list_ascii_of_string a),
          <- (string_of_list_ascii_of_string b).
  by rewrite H.
Qed.

Lemma length_append (a b : string) :
  String.length (a ++ b) = (String.length a + String.length b)%nat.
Proof.
  induction a as [|x a IH]; [done|].
  change (S (String.length (a ++ b))
          = S (String.length a + String.length b)). by rewrite IH.
Qed.

Lemma slice_strips_last (stem : string) (c : ascii) :
  slice_0_m1 (stem ++ String c "") = stem.
Proof.
  unfold slice_0_m1. rewrite length_append. simpl.
  replace (String.length stem + 1 - 1)%nat with (String.length stem) by lia.
  induction stem as [|x stem IH]; [done|].
  change (String x (String.substring 0 (String.length stem)
                      (stem ++ String c "")) = String x stem).
  by rewrite IH.
Qed.

Lemma length_substring_0 (n : nat) (s : string) :
  (n <= String.length s)%nat ->
  String.length (String.substring 0 n s) = n.
Proof.
  revert n. induction s as [|x s IH]; intros [|n] Hn; simpl in *;
    try done; try lia.
  rewrite IH; lia.
Qed.

Lemma slice_shorter (s : string) : s <> "" -> slice_0_m1 s <> s.
Proof.
  intros Hs Heq. apply (f_equal String.length) in Heq.
  unfold slice_0_m1 in Heq. rewrite length_substring_0 in Heq by lia.
  destruct s; [done|]. simpl in Heq. lia.
Qed.

End JsFacts.

(** ** Cache keys *)

Module CacheKeyFacts.
Import Js JsFacts CacheKey.

Example generateKey_tournament_season :
  generateKey "tournament" [("season", PInt 2024); ("tour", PStr "PGA")]
  = Key "tournament:season:2024|tour:PGA".
Proof. vm_compute. reflexivity. Qed.

Example generateKey_tournament_empty :
  generateKey "tournament" [] = Key "tournament".
Proof. vm_compute. reflexivity. Qed.

Example generateKey_unregistered_empty :
  generateKey "live" [] = Key "liv".
Proof. vm_compute. reflexivity. Qed.

Lemma paramString_perm (p1 p2 : params) :
  wf_params p1 -> p1 ≡ₚ p2 -> paramString p1 = paramString p2.
Proof.
  intros Hwf Hp. unfold paramString.
  rewrite (sort_perm (p1.*1) (p2.*1)) by by rewrite Hp.
  f_equal. apply list_fmap_ext. intros _ k _. unfold render.
  by rewrite (assoc_get_perm p1 p2 k Hwf Hp).
Qed.

(** C9. Two parameter bags with the same name/value pairs, whatever the
    order in which the pairs were inserted, give the same cache key for
    every endpoint pattern. *)
Theorem generateKey_order_independent (pattern : string) (p1 p2 : params) :
  wf_params p1 -> p1 ≡ₚ p2 ->
  generateKey pattern p1 = generateKey pattern p2.
Proof.
  intros Hwf Hp. unfold generateKey.
  by rewrite (paramString_perm p1 p2 Hwf Hp).
Qed.

Lemma generateKey_order_independent_witness :
  wf_params [("season", PInt 2024); ("tour", PStr "PGA")] /\
  [("season", PInt 2024); ("tour", PStr "PGA")]
    ≡ₚ [("tour", PStr "PGA"); ("season", PInt 2024)] /\
  generateKey "tournament" [("season", PInt 2024); ("tour", PStr "PGA")]
  = generateKey "tournament" [("tour", PStr "PGA"); ("season", PInt 2024)].
Proof.
  pose (p1 := [("season", PInt 2024); ("tour", PStr "PGA")]).
  pose (p2 := [("tour", PStr "PGA"); ("season", PInt 2024)]).
  assert (Hwf : wf_params p1).
  { unfold wf_params, p1. simpl. apply NoDup_cons. split.
    - intros H. apply list_elem_of_singleton in H. discriminate H.
    - apply NoDup_singleton. }
  assert (Hp : p1 ≡ₚ p2) by apply perm_swap.
  split; [exact Hwf|]. split; [exact Hp|].
  exact (generateKey_order_independent "tournament" p1 p2 Hwf Hp).
Defined.

(** *** Sensitive parameters *)

Lemma render_set (p : params) name v k :
  render (assoc_set name v p) k
  = if String.eqb k name then name ++ ":" ++ to_display v else render p k.
Proof.
  unfold render. rewrite assoc_get_set.
  by destruct (String.eqb_spec k name) as [-> | _].
Qed.

Lemma render_truthy (p : params) k : truthy_str (render p k) = true.
Proof. unfold render. by destruct k. Qed.

Lemma render_set_absent (p : params) name v (ks : list string) :
  name ∉ ks -> render (assoc_set name v p) <$> ks = render p <$> ks.
Proof.
  intros Hn. apply list_fmap_ext. intros i k Hk. rewrite render_set.
  destruct (String.eqb_spec k name) as [-> | _]; [|done].
  exfalso. apply Hn. by eapply list_elem_of_lookup_2.
Qed.

(** The rendered parameters are the value of [name] between two texts
    that do not depend on it. *)
Lemma join_render_split (p : params) name (ks : list string) :
  name ∈ ks -> NoDup ks ->
  exists A R, forall v,
    join "|" (render (assoc_set name v p) <$> ks) = A ++ to_display v ++ R.
Proof.
  induction ks as [|k ks IH]; intros Hin Hnd.
  - by apply elem_of_nil in Hin.
  - apply NoDup_cons in Hnd as [Hk Hnd].
    destruct (decide (k = name)) as [-> | Hne].
    + exists (name ++ ":"),
             (match ks with
              | [] => ""
              | _ => "|" ++ join "|" (render p <$> ks)
              end).
      intros v. rewrite fmap_cons, render_set, String.eqb_refl.
      rewrite (render_set_absent p name v ks Hk).
      destruct ks as [|k' ks]; simpl.
      * by rewrite append_nil_r, append_assoc.
      * by rewrite !append_assoc.
    + apply elem_of_cons in Hin as [Heq | Hin]; [congruence|].
      destruct (IH Hin Hnd) as (A & R & HAR).
      exists (render p k ++ "|" ++ A), R. intros v.
      rewrite fmap_cons, render_set.
      destruct (String.eqb_spec k name) as [? | _]; [congruence|].
      specialize (HAR v). destruct ks as [|k' ks].
      * by apply elem_of_nil in Hin.
      * rewrite fmap_cons in *. rewrite join_cons_cons, HAR.
        by rewrite !append_assoc.
Qed.

Lemma paramString_split (p : params) name :
  wf_params p -> name ∈ p.*1 ->
  exists A R, forall v,
    paramString (assoc_set name v p) = A ++ to_display v ++ R.
Proof.
  intros Hwf Hin.
  destruct (join_render_split p name (merge_sort String.le (p.*1)))
    as (A & R & H).
  - by rewrite merge_sort_Permutation.
  - by rewrite merge_sort_Permutation.
  - exists A, R. intros v. unfold paramString.
    by rewrite assoc_set_keys.
Qed.

Lemma paramString_truthy (p : params) k :
  k ∈ p.*1 -> truthy_str (paramString p) = true.
Proof.
  intros Hk. unfold paramString.
  assert (Hs : k ∈ merge_sort String.le (p.*1))
    by by rewrite merge_sort_Permutation.
  destruct (merge_sort String.le (p.*1)) as [|k0 ks].
  - by apply elem_of_nil in Hs.
  - rewrite fmap_cons. apply join_nonempty, render_truthy.
Qed.

(** C4, as the code has it.  No parameter name is filtered: the key embeds
    the value of every parameter, so changing the value of any one of
    them (an API key, a token or a secret included) to a value that prints
    differently changes the key. *)
Theorem generateKey_keeps_every_value (pattern : string) (p : params)
    (name : string) (v v' : pvalue) :
  wf_params p -> name ∈ p.*1 -> to_display v <> to_display v' ->
  generateKey pattern (assoc_set name v p)
  <> generateKey pattern (assoc_set name v' p).
Proof.
  intros Hwf Hin Hd.
  destruct (paramString_split p name Hwf Hin) as (A & R & HAR).
  assert (Hk : forall w, name ∈ (assoc_set name w p).*1)
    by (intros w; by rewrite assoc_set_keys).
  unfold generateKey.
  rewrite !(paramString_truthy _ name (Hk _)), !HAR.
  destruct (resolve pattern); intros Heq; injection Heq as Heq;
    apply (inj _) in Heq; apply (inj _) in Heq;
    by apply append_inv_tail in Heq.
Qed.

Lemma generateKey_keeps_every_value_witness :
  wf_params [("api_key", PStr "alpha"); ("season", PInt 2024)] /\
  "api_key" ∈ [("api_key", PStr "alpha"); ("season", PInt 2024)].*1 /\
  to_display (PStr "alpha") <> to_display (PStr "beta") /\
  generateKey "tournament"
    (assoc_set "api_key" (PStr "alpha")
       [("api_key", PStr "alpha"); ("season", PInt 2024)])
  <> generateKey "tournament"
       (assoc_set "api_key" (PStr "beta")
          [("api_key", PStr "alpha"); ("season", PInt 2024)]).
Proof.
  assert (Hwf : wf_params [("api_key", PStr "alpha"); ("season", PInt 2024)]).
  { unfold wf_params. simpl. apply NoDup_cons. split.
    - intros H. apply list_elem_of_singleton in H. discriminate H.
    - apply NoDup_singleton. }
  assert (Hin : "api_key"
                ∈ [("api_key", PStr "alpha"); ("season", PInt 2024)].*1).
  { simpl. apply elem_of_cons. by left. }
  assert (Hd : to_display (PStr "alpha") <> to_display (PStr "beta")).
  { simpl. discriminate. }
  split; [exact Hwf|]. split; [exact Hin|]. split; [exact Hd|].
  exact (generateKey_keeps_every_value "tournament" _ "api_key"
           (PStr "alpha") (PStr "beta") Hwf Hin Hd).
Defined.

(** C4, as stated, fails: two requests that differ only in the value of
    their [api_key] parameter get different cache keys. *)
Lemma generateKey_api_key_counterexample :
  generateKey "tournament" [("api_key", PStr "alpha"); ("season", PInt 2024)]
  <> generateKey "tournament"
       [("api_key", PStr "beta"); ("season", PInt 2024)].
Proof. vm_compute. discriminate. Qed.

(** *** Empty parameter bags *)

Lemma paramString_empty : paramString [] = "".
Proof. reflexivity. Qed.

(** Every registered pattern maps to a stem followed by a colon, and none
    of them hides a member of [Object.prototype]. *)
Lemma keyPatterns_shape :
  Forall (fun kv => inherited kv.1 = false
                    /\ kv.2 = slice_0_m1 kv.2 ++ ":") keyPatterns.
Proof. unfold keyPatterns. repeat constructor. Qed.

Lemma keyPatterns_colon (pattern b : string) :
  assoc_get pattern keyPatterns = Some b ->
  inherited pattern = false /\ exists stem, b = stem ++ ":".
Proof.
  intros H. apply assoc_get_elem in H.
  pose proof (proj1 (Forall_forall _ _) keyPatterns_shape _ H) as [Hi Hb].
  split; [exact Hi|]. by exists (slice_0_m1 b).
Qed.

(** The keys of an empty parameter bag, for the patterns that are not the
    name of a property of [Object.prototype]: the key is the resolved base
    key without its last character.  A registered pattern loses the colon
    of its entry, and an unregistered pattern loses its own last
    character, so that the key differs from every non-empty unregistered
    pattern. *)
Lemma generateKey_empty_params (pattern : string) :
  inherited pattern = false ->
  (forall stem, assoc_get pattern keyPatterns = Some (stem ++ ":") ->
     generateKey pattern [] = Key stem) /\
  (assoc_get pattern keyPatterns = None ->
     generateKey pattern [] = Key (slice_0_m1 pattern) /\
     (pattern <> "" -> generateKey pattern [] <> Key pattern)).
Proof.
  intros Hinh. unfold generateKey, resolve.
  rewrite paramString_empty, Hinh. simpl truthy_str. split.
  - intros stem ->.
    assert (Ht : truthy_str (stem ++ ":") = true) by by destruct stem.
    rewrite Ht. by rewrite slice_strips_last.
  - intros ->. split; [done|].
    intros Hne [= Heq]. by apply slice_shorter in Heq.
Qed.

Lemma generateKey_empty_params_witness :
  inherited "live" = false /\
  (forall stem, assoc_get "live" keyPatterns = Some (stem ++ ":") ->
     generateKey "live" [] = Key stem) /\
  (assoc_get "live" keyPatterns = None ->
     generateKey "live" [] = Key (slice_0_m1 "live") /\
     ("live" <> "" -> generateKey "live" [] <> Key "live")).
Proof.
  split; [reflexivity|].
  exact (generateKey_empty_params "live" eq_refl).
Defined.

(** No property of [Object.prototype] is shadowed by a registered
    pattern. *)
Lemma inherited_unregistered (pattern : string) :
  inherited pattern = true -> assoc_get pattern keyPatterns = None.
Proof.
  unfold inherited, objectPrototypeNames. intros H.
  apply bool_decide_eq_true in H.
  repeat (apply elem_of_cons in H as [->|H]; [reflexivity|]).
  by apply elem_of_nil in H.
Qed.

(** C10.  [this.keyPatterns[pattern] || pattern] reads a plain object, so
    an unregistered pattern that names a property of [Object.prototype]
    ([constructor], [toString], [__proto__], ...) resolves to the
    inherited function or object and not to the pattern.  With an empty
    parameter bag, [slice] is then called on a value that has none: the
    call throws a [TypeError], where every other unregistered pattern
    gives the pattern without its last character. *)
Theorem generateKey_inherited_throws (pattern : string) :
  inherited pattern = true ->
  assoc_get pattern keyPatterns = None
  /\ resolve pattern = BInherited pattern
  /\ generateKey pattern [] = TypeError
  /\ generateKey pattern [] <> Key (slice_0_m1 pattern).
Proof.
  intros Hinh. pose proof (inherited_unregistered _ Hinh) as Hnone.
  assert (Hres : resolve pattern = BInherited pattern).
  { unfold resolve. by rewrite Hnone, Hinh. }
  assert (Hkey : generateKey pattern [] = TypeError).
  { unfold generateKey. by rewrite Hres, paramString_empty. }
  repeat split; [exact Hnone|exact Hres|exact Hkey|].
  rewrite Hkey. discriminate.
Qed.

Lemma generateKey_inherited_throws_witness :
  inherited "constructor" = true
  /\ assoc_get "constructor" keyPatterns = None
  /\ resolve "constructor" = BInherited "constructor"
  /\ generateKey "constructor" [] = TypeError
  /\ generateKey "constructor" [] <> Key (slice_0_m1 "constructor").
Proof.
  split; [reflexivity|].
  exact (generateKey_inherited_throws "constructor" eq_refl).
Defined.

(** The same call on [toString] and [__proto__], and the key that the
    unregistered pattern [live] gets. *)
Example generateKey_inherited_examples :
  generateKey "toString" [] = TypeError
  /\ generateKey "__proto__" [] = TypeError
  /\ generateKey "live" [] = Key "liv".
Proof. by vm_compute. Qed.

End CacheKeyFacts.

(** ** The three-level cache *)

Module CacheFacts.
Import Js JsFacts Cache.

Section Assoc_delete.
Context {V : Type}.
Implicit Types (m : list (string * V)) (k : string) (v : V).

Lemma assoc_get_delete_ne m k k' :
  k' <> k -> assoc_get k' (assoc_delete k m) = assoc_get k' m.
Proof.
  intros Hne. induction m as [|[k0 v0] m IH]; simpl; [done|].
  destruct (String.eqb_spec k k0) as [-> | Hk]; simpl.
  - by destruct (String.eqb_spec k' k0).
  - by rewrite IH.
Qed.

Lemma assoc_get_delete_eq m k :
  NoDup (m.*1) -> assoc_get k (assoc_delete k m) = None.
Proof.
  induction m as [|[k0 v0] m IH]; simpl; intros Hnd; [done|].
  apply NoDup_cons in Hnd as [Hk0 Hnd].
  destruct (String.eqb_spec k k0) as [-> | Hk]; simpl.
  - by apply assoc_get_None.
  - destruct (String.eqb_spec k k0); [done | auto].
Qed.
End Assoc_delete.

(** Evictions leave the heap and the other levels alone. *)
Lemma _evictFromL1_frame c :
  heap (_evictFromL1 c) = heap c /\
  l2Cache (_evictFromL1 c) = l2Cache c /\
  l3Cache (_evictFromL1 c) = l3Cache c.
Proof.
  unfold _evictFromL1. destruct (first_key _) as [k|]; [|done].
  by destruct (truthy_str k).
Qed.

Lemma _evictFromL2_frame c :
  heap (_evictFromL2 c) = heap c /\ l3Cache (_evictFromL2 c) = l3Cache c.
Proof.
  unfold _evictFromL2. destruct (first_key _) as [k|]; [|done].
  by destruct (truthy_str k).
Qed.

Lemma _evictFromL3_frame c :
  heap (_evictFromL3 c) = heap c /\ l2Cache (_evictFromL3 c) = l2Cache c.
Proof.
  unfold _evictFromL3. destruct (leastUsed _ _ _) as [[k n]|]; [|done].
  by destruct (truthy_str k).
Qed.

(** An object that already carries a truthy [timestamp] is stored as it
    is: the [ttl] argument of the level is dropped. *)
Lemma as_entry_ref now l t h e :
  h !! l = Some e -> timestamp e <> 0 -> as_entry now (DRef l) t h = (l, h).
Proof.
  intros Hl Ht. unfold as_entry. rewrite Hl.
  by destruct (Z.eqb_spec (timestamp e) 0).
Qed.

Lemma _setToL1_ref cfg now key l t c e :
  heap c !! l = Some e -> timestamp e <> 0 ->
  heap (_setToL1 cfg now key (DRef l) t c) = heap c /\
  l2Cache (_setToL1 cfg now key (DRef l) t c) = l2Cache c /\
  l3Cache (_setToL1 cfg now key (DRef l) t c) = l3Cache c.
Proof.
  intros Hl Ht. unfold _setToL1.
  set (c1 := if at_capacity (l1Cache c) (l1 cfg) then _ else _).
  assert (H1 : heap c1 = heap c /\ l2Cache c1 = l2Cache c
               /\ l3Cache c1 = l3Cache c).
  { unfold c1. destruct (at_capacity _ _); [apply _evictFromL1_frame|done]. }
  destruct H1 as (Hh & H2 & H3). clearbody c1.
  rewrite (as_entry_ref now l t (heap c1) e) by (rewrite ?Hh; done).
  destruct t as [z|]; [destruct (z =? 0)|]; simpl; by rewrite ?Hh, ?H2, ?H3.
Qed.

Lemma _setToL2_ref cfg now key l t c e :
  heap c !! l = Some e -> timestamp e <> 0 ->
  heap (_setToL2 cfg now key (DRef l) t c) = heap c /\
  assoc_get key (l2Cache (_setToL2 cfg now key (DRef l) t c)) = Some l /\
  l3Cache (_setToL2 cfg now key (DRef l) t c) = l3Cache c.
Proof.
  intros Hl Ht. unfold _setToL2.
  set (c1 := if at_capacity (l2Cache c) (l2 cfg) then _ else _).
  assert (H1 : heap c1 = heap c /\ l3Cache c1 = l3Cache c).
  { unfold c1. destruct (at_capacity _ _); [apply _evictFromL2_frame|done]. }
  destruct H1 as (Hh & H3). clearbody c1.
  rewrite (as_entry_ref now l t (heap c1) e) by (rewrite ?Hh; done).
  simpl. rewrite assoc_get_set, String.eqb_refl. by rewrite Hh, H3.
Qed.

Lemma _setToL3_ref cfg now key l t c e :
  heap c !! l = Some e -> timestamp e <> 0 ->
  heap (_setToL3 cfg now key (DRef l) t c) = heap c /\
  l2Cache (_setToL3 cfg now key (DRef l) t c) = l2Cache c /\
  assoc_get key (l3Cache (_setToL3 cfg now key (DRef l) t c)) = Some l.
Proof.
  intros Hl Ht. unfold _setToL3.
  set (c1 := if at_capacity (l3Cache c) (l3 cfg) then _ else _).
  assert (H1 : heap c1 = heap c /\ l2Cache c1 = l2Cache c).
  { unfold c1. destruct (at_capacity _ _); [apply _evictFromL3_frame|done]. }
  destruct H1 as (Hh & H2). clearbody c1.
  rewrite (as_entry_ref now l t (heap c1) e) by (rewrite ?Hh; done).
  simpl. rewrite assoc_get_set, String.eqb_refl. by rewrite Hh, H2.
Qed.

(** What [set] leaves in the levels 2 and 3: the one entry object that it
    built, whose [ttl] is the explicit one or else the default of
    level 1. *)
Lemma set_entries cfg now key d t c :
  now <> 0 ->
  let c' := set cfg now key d t c in
  let e := Entry d now (or_num t (cfg_ttl (l1 cfg))) 0 in
  (enabled (l2 cfg) = true -> entry_of (heap c') (l2Cache c') key = Some e)
  /\ (enabled (l3 cfg) = true ->
      entry_of (heap c') (l3Cache c') key = Some e).
Proof.
  intros Hnow c' e. unfold c', set.
  set (l := List.length (heap c)).
  set (c0 := set_heap c _).
  assert (H0 : heap c0 !! l = Some e).
  { unfold c0, l. simpl. apply list_lookup_middle. done. }
  set (c1 := if enabled (l1 cfg) then _ else c0).
  assert (H1 : heap c1 = heap c0).
  { unfold c1. destruct (enabled (l1 cfg)); [|done].
    by apply (_setToL1_ref cfg now key l _ c0 e). }
  assert (H1l : heap c1 !! l = Some e) by by rewrite H1.
  split; intros Hen.
  - rewrite Hen.
    destruct (_setToL2_ref cfg now key l
                (or_num t (cfg_ttl (l2 cfg))) c1 e H1l Hnow)
      as (Hh2 & Hk2 & _).
    set (c2 := _setToL2 _ _ _ _ _ _) in *.
    unfold entry_of.
    destruct (enabled (l3 cfg)).
    + destruct (_setToL3_ref cfg now key l
                  (or_num t (cfg_ttl (l3 cfg))) c2 e) as (Hh3 & Hk3 & _);
        [by rewrite Hh2 | done |].
      rewrite Hk3, Hk2, Hh3, Hh2. done.
    + rewrite Hk2, Hh2. done.
  - rewrite Hen.
    set (c2 := if enabled (l2 cfg) then _ else c1).
    assert (H2 : heap c2 = heap c1).
    { unfold c2. destruct (enabled (l2 cfg)); [|done].
      by apply (_setToL2_ref cfg now key l _ c1 e). }
    destruct (_setToL3_ref cfg now key l
                (or_num t (cfg_ttl (l3 cfg))) c2 e) as (Hh3 & _ & Hk3);
      [by rewrite H2 | done |].
    unfold entry_of. rewrite Hk3, Hh3, H2. done.
Qed.

(** C2.  With no explicit TTL, the copy that [set] writes into level 2
    carries the default TTL of level 1, whatever level 2 is configured
    with: a read of level 2 later than level 1's default finds the entry
    expired. *)
Theorem set_default_ttl_l2_follows_l1 (cfg : cacheConfig) (now now' : Z)
    (key : string) (d : jsdata) (c : cache) (t1 : Z) :
  now <> 0 -> enabled (l2 cfg) = true ->
  cfg_ttl (l1 cfg) = Some t1 -> t1 <> 0 ->
  t1 * 1000 < now' - now ->
  ttl <$> entry_of (heap (set cfg now key d None c))
                   (l2Cache (set cfg now key d None c)) key
  = Some (Some t1)
  /\ (_getFromL2 now' key (set cfg now key d None c)).1 = None.
Proof.
  intros Hnow Hen Ht1 Hnz Hlate.
  destruct (set_entries cfg now key d None c Hnow) as [H2 _].
  specialize (H2 Hen). cbv zeta in H2. rewrite Ht1 in H2.
  change (or_num None (Some t1)) with (Some t1) in H2.
  set (c' := set cfg now key d None c) in *. clearbody c'.
  rewrite H2. split; [done|].
  unfold entry_of in H2. unfold _getFromL2.
  destruct (assoc_get key (l2Cache c')) as [l|]; [|done].
  simpl in H2. rewrite H2. unfold _isExpired. simpl.
  destruct (Z.eqb_spec t1 0); [done|].
  destruct (Z.ltb_spec (t1 * 1000) (now' - now)); [done | lia].
Qed.

Lemma set_default_ttl_l2_follows_l1_witness :
  1700000000000 <> 0 /\ enabled (l2 productionConfig) = true /\
  cfg_ttl (l1 productionConfig) = Some 900 /\ 900 <> 0 /\
  900 * 1000 < 1700000901000 - 1700000000000 /\
  (ttl <$> entry_of
     (heap (set productionConfig 1700000000000 "rankings"
              (DPlain "body") None empty))
     (l2Cache (set productionConfig 1700000000000 "rankings"
                 (DPlain "body") None empty)) "rankings"
   = Some (Some 900)
   /\ (_getFromL2 1700000901000 "rankings"
         (set productionConfig 1700000000000 "rankings"
            (DPlain "body") None empty)).1 = None).
Proof.
  assert (H1 : 1700000000000 <> 0) by lia.
  assert (H2 : enabled (l2 productionConfig) = true) by reflexivity.
  assert (H3 : cfg_ttl (l1 productionConfig) = Some 900) by reflexivity.
  assert (H4 : 900 <> 0) by lia.
  assert (H5 : 900 * 1000 < 1700000901000 - 1700000000000) by lia.
  repeat (split; [assumption|]).
  exact (set_default_ttl_l2_follows_l1 productionConfig 1700000000000
           1700000901000 "rankings" (DPlain "body") empty 900
           H1 H2 H3 H4 H5).
Defined.

(** The same read would find the entry had level 2's own default been
    used: 901 seconds are well within 7200. *)
Example set_default_ttl_production :
  cfg_ttl (l2 productionConfig) = Some 7200 /\
  _isExpired 1700000901000 (Entry (DPlain "body") 1700000000000 (Some 7200) 0)
  = false.
Proof. split; reflexivity. Qed.

(** Level 3 receives the same object. *)
Lemma set_default_ttl_l3_follows_l1 (cfg : cacheConfig) (now now' : Z)
    (key : string) (d : jsdata) (c : cache) (t1 : Z) :
  now <> 0 -> enabled (l3 cfg) = true ->
  cfg_ttl (l1 cfg) = Some t1 -> t1 <> 0 ->
  t1 * 1000 < now' - now ->
  (_getFromL3 now' key (set cfg now key d None c)).1 = None.
Proof.
  intros Hnow Hen Ht1 Hnz Hlate.
  destruct (set_entries cfg now key d None c Hnow) as [_ H3].
  specialize (H3 Hen). cbv zeta in H3. rewrite Ht1 in H3.
  change (or_num None (Some t1)) with (Some t1) in H3.
  set (c' := set cfg now key d None c) in *. clearbody c'.
  unfold entry_of in H3. unfold _getFromL3.
  destruct (assoc_get key (l3Cache c')) as [l|]; [|done].
  simpl in H3. rewrite H3. unfold _isExpired. simpl.
  destruct (Z.eqb_spec t1 0); [done|].
  destruct (Z.ltb_spec (t1 * 1000) (now' - now)); [done | lia].
Qed.

(** *** Eviction on insert *)

Section Assoc_size.
Context {V : Type}.
Implicit Types (m : list (string * V)) (k : string) (v : V).

Lemma length_assoc_delete m k :
  assoc_has k m = true ->
  S (List.length (assoc_delete k m)) = List.length m.
Proof.
  unfold assoc_has. induction m as [|[k0 v0] m IH]; simpl; [done|].
  destruct (String.eqb_spec k k0); simpl; [done|].
  intros H. by rewrite IH.
Qed.

Lemma length_assoc_set m k v :
  assoc_has k m = true ->
  List.length (assoc_set k v m) = List.length m.
Proof.
  unfold assoc_has. induction m as [|[k0 v0] m IH]; simpl; [done|].
  destruct (String.eqb_spec k k0); simpl; [done|].
  intros H. by rewrite IH.
Qed.
End Assoc_size.

(** C5.  A level-1 put at capacity evicts even when it overwrites: the
    least recently used key is dropped although the key being written is
    already present, and the level ends one entry short of its
    capacity. *)
Theorem _setToL1_overwrite_evicts (cfg : cacheConfig) (now : Z)
    (key oldest : string) (d : jsdata) (t : num) (c : cache) :
  NoDup (keys (l1Cache c)) ->
  at_capacity (l1Cache c) (l1 cfg) = true ->
  assoc_has key (l1Cache c) = true ->
  first_key (l1AccessOrder c) = Some oldest ->
  oldest <> "" -> oldest <> key ->
  assoc_has oldest (l1Cache c) = true ->
  assoc_has oldest (l1Cache (_setToL1 cfg now key d t c)) = false
  /\ evictions (l1Stats (_setToL1 cfg now key d t c))
     = evictions (l1Stats c) + 1
  /\ size (l1Cache (_setToL1 cfg now key d t c)) = size (l1Cache c) - 1.
Proof.
  intros Hnd Hcap Hkey Hfirst Hne Hneq Hold.
  unfold _setToL1. rewrite Hcap. unfold _evictFromL1. rewrite Hfirst.
  assert (Ht : truthy_str oldest = true) by by destruct oldest.
  rewrite Ht.
  destruct (as_entry now d t _) as [l h].
  assert (Hkey' : assoc_has key (assoc_delete oldest (l1Cache c)) = true).
  { unfold assoc_has in *. by rewrite assoc_get_delete_ne. }
  assert (goal :
    assoc_has oldest
      (assoc_set key l (assoc_delete oldest (l1Cache c))) = false
    /\ size (assoc_set key l (assoc_delete oldest (l1Cache c)))
       = size (l1Cache c) - 1).
  { split.
    - unfold assoc_has. rewrite assoc_get_set.
      destruct (String.eqb_spec oldest key); [done|].
      by rewrite assoc_get_delete_eq.
    - unfold size. rewrite length_assoc_set by done.
      pose proof (length_assoc_delete (l1Cache c) oldest Hold). lia. }
  destruct goal as [G1 G2].
  destruct t as [z|]; [destruct (z =? 0)|]; simpl; done.
Qed.

Lemma _setToL1_overwrite_evicts_witness :
  NoDup (keys (l1Cache fullL1)) /\
  at_capacity (l1Cache fullL1) (l1 smallConfig) = true /\
  assoc_has "rankings:tour:PGA" (l1Cache fullL1) = true /\
  first_key (l1AccessOrder fullL1) = Some "tournament:season:2024" /\
  "tournament:season:2024" <> "" /\
  "tournament:season:2024" <> "rankings:tour:PGA" /\
  assoc_has "tournament:season:2024" (l1Cache fullL1) = true /\
  (assoc_has "tournament:season:2024"
     (l1Cache (_setToL1 smallConfig 3000 "rankings:tour:PGA"
                 (DPlain "B2") (Some 300) fullL1)) = false
   /\ evictions (l1Stats (_setToL1 smallConfig 3000 "rankings:tour:PGA"
                            (DPlain "B2") (Some 300) fullL1))
      = evictions (l1Stats fullL1) + 1
   /\ size (l1Cache (_setToL1 smallConfig 3000 "rankings:tour:PGA"
                       (DPlain "B2") (Some 300) fullL1))
      = size (l1Cache fullL1) - 1).
Proof.
  assert (H1 : NoDup (keys (l1Cache fullL1))).
  { vm_compute. apply NoDup_cons. split.
    - intros H. apply list_elem_of_singleton in H. discriminate H.
    - apply NoDup_singleton. }
  assert (H2 : at_capacity (l1Cache fullL1) (l1 smallConfig) = true)
    by reflexivity.
  assert (H3 : assoc_has "rankings:tour:PGA" (l1Cache fullL1) = true)
    by reflexivity.
  assert (H4 : first_key (l1AccessOrder fullL1)
               = Some "tournament:season:2024") by reflexivity.
  assert (H5 : "tournament:season:2024" <> "") by discriminate.
  assert (H6 : "tournament:season:2024" <> "rankings:tour:PGA")
    by discriminate.
  assert (H7 : assoc_has "tournament:season:2024" (l1Cache fullL1) = true)
    by reflexivity.
  repeat (split; [assumption|]).
  exact (_setToL1_overwrite_evicts smallConfig 3000 "rankings:tour:PGA"
           "tournament:season:2024" (DPlain "B2") (Some 300) fullL1
           H1 H2 H3 H4 H5 H6 H7).
Defined.

(** For a key that is not yet cached, the same put evicts the least
    recently used key, stores the new one and keeps every other key. *)
Lemma _setToL1_new_key_evicts_oldest (cfg : cacheConfig) (now : Z)
    (key oldest : string) (d : jsdata) (t : num) (c : cache) :
  NoDup (keys (l1Cache c)) ->
  at_capacity (l1Cache c) (l1 cfg) = true ->
  assoc_has key (l1Cache c) = false ->
  first_key (l1AccessOrder c) = Some oldest ->
  oldest <> "" ->
  assoc_has oldest (l1Cache c) = true ->
  assoc_has oldest (l1Cache (_setToL1 cfg now key d t c)) = false
  /\ assoc_has key (l1Cache (_setToL1 cfg now key d t c)) = true
  /\ evictions (l1Stats (_setToL1 cfg now key d t c))
     = evictions (l1Stats c) + 1
  /\ forall k, k <> oldest -> k <> key ->
       assoc_get k (l1Cache (_setToL1 cfg now key d t c))
       = assoc_get k (l1Cache c).
Proof.
  intros Hnd Hcap Hkey Hfirst Hne Hold.
  assert (Hneq : oldest <> key).
  { intros ->. by rewrite Hkey in Hold. }
  unfold _setToL1. rewrite Hcap. unfold _evictFromL1. rewrite Hfirst.
  assert (Ht : truthy_str oldest = true) by by destruct oldest.
  rewrite Ht.
  destruct (as_entry now d t _) as [l h].
  assert (goal :
    assoc_has oldest
      (assoc_set key l (assoc_delete oldest (l1Cache c))) = false
    /\ assoc_has key
         (assoc_set key l (assoc_delete oldest (l1Cache c))) = true
    /\ forall k, k <> oldest -> k <> key ->
         assoc_get k (assoc_set key l (assoc_delete oldest (l1Cache c)))
         = assoc_get k (l1Cache c)).
  { unfold assoc_has. rewrite !assoc_get_set, String.eqb_refl.
    destruct (String.eqb_spec oldest key); [done|].
    rewrite assoc_get_delete_eq by done. split; [done|]. split; [done|].
    intros k Hk1 Hk2. rewrite assoc_get_set.
    destruct (String.eqb_spec k key); [done|].
    by apply assoc_get_delete_ne. }
  destruct goal as (G1 & G2 & G3).
  destruct t as [z|]; [destruct (z =? 0)|]; simpl; done.
Qed.

(** The run of the failing input: before the overwrite both keys are
    cached, after it only the overwritten one is left. *)
Example overwrite_at_capacity_run :
  keys (l1Cache fullL1) = ["tournament:season:2024"; "rankings:tour:PGA"]
  /\ keys (l1Cache (_setToL1 smallConfig 3000 "rankings:tour:PGA"
                      (DPlain "B2") (Some 300) fullL1))
     = ["rankings:tour:PGA"].
Proof. split; reflexivity. Qed.

End CacheFacts.

(** ** The upstream client *)

Module ClientFacts.
Import Client.

Section Retry.
Context {A : Type}.
Variable cfg : retryConfig.
Variable apiCall : nat -> attempt_result A.
Variable errs : nat -> failure.
Hypothesis all_fail : forall n, apiCall n = Rejected (errs n).

Lemma backoff_S attempt k :
  backoff cfg attempt (S k)
  = retryDelay cfg * 2 ^ (attempt - 1) :: backoff cfg (attempt + 1) k.
Proof.
  unfold backoff. rewrite <- cons_seq, fmap_cons, <- fmap_S_seq.
  rewrite <- list_fmap_compose. f_equal.
  - f_equal. f_equal. lia.
  - apply list_fmap_ext. intros _ i _. simpl. f_equal. f_equal. lia.
Qed.

Lemma retry_all_fail (fuel : nat) (attempt : Z) (done : nat)
    (slept : list Z) :
  (Z.to_nat (retryAttempts cfg - attempt) < fuel)%nat ->
  retry cfg apiCall fuel attempt done slept
  = Some (Run (Rejected
                 (errs (done + Z.to_nat (retryAttempts cfg - attempt))))
              (S (done + Z.to_nat (retryAttempts cfg - attempt)))
              (slept ++ backoff cfg attempt
                          (Z.to_nat (retryAttempts cfg - attempt)))).
Proof.
  revert attempt done slept.
  induction fuel as [|fuel IH]; intros attempt done slept Hfuel; [lia|].
  simpl. rewrite all_fail.
  destruct (Z.leb_spec (retryAttempts cfg) attempt) as [Hle | Hgt].
  - replace (Z.to_nat (retryAttempts cfg - attempt)) with 0%nat by lia.
    unfold backoff. simpl. by rewrite Nat.add_0_r, app_nil_r.
  - rewrite IH by lia.
    replace (Z.to_nat (retryAttempts cfg - attempt))
      with (S (Z.to_nat (retryAttempts cfg - (attempt + 1)))) by lia.
    rewrite backoff_S, <- app_assoc. simpl.
    by rewrite !Nat.add_succ_r.
Qed.
End Retry.

(** The recursion always ends: the fuel given by [_retryWithBackoff] is
    never exhausted. *)
Lemma retry_total {A : Type} (cfg : retryConfig)
    (apiCall : nat -> attempt_result A) (fuel : nat) (attempt : Z)
    (done : nat) (slept : list Z) :
  (Z.to_nat (retryAttempts cfg - attempt) < fuel)%nat ->
  is_Some (retry cfg apiCall fuel attempt done slept).
Proof.
  revert attempt done slept.
  induction fuel as [|fuel IH]; intros attempt done slept Hfuel; [lia|].
  simpl. destruct (apiCall done) as [r | e]; [by eexists|].
  destruct (Z.leb_spec (retryAttempts cfg) attempt); [by eexists|].
  apply IH. lia.
Qed.

Lemma _retryWithBackoff_total {A : Type} (cfg : retryConfig)
    (apiCall : nat -> attempt_result A) (attempt : Z) :
  is_Some (_retryWithBackoff cfg apiCall attempt).
Proof. apply retry_total. lia. Qed.

(** C6, as the code has it.  The retry loop does not look at the kind of
    a failure: when every attempt is rejected, whatever the rejections
    are (a 4xx status other than 429 included), the client makes
    [retryAttempts] attempts in all (one if that setting is below one),
    sleeps [retryDelay * 2^k] before the retry number [k], and surfaces
    the last error. *)
Theorem _retryWithBackoff_retries_every_failure {A : Type}
    (cfg : retryConfig) (apiCall : nat -> attempt_result A)
    (errs : nat -> failure) :
  (forall n, apiCall n = Rejected (errs n)) ->
  exists r,
    _retryWithBackoff cfg apiCall 1 = Some r /\
    calls r = Z.to_nat (Z.max 1 (retryAttempts cfg)) /\
    result r = Rejected (errs (calls r - 1)%nat) /\
    delays r = (fun k => retryDelay cfg * 2 ^ Z.of_nat k)
                 <$> seq 0 (calls r - 1).
Proof.
  intros Hall. unfold _retryWithBackoff.
  rewrite (retry_all_fail cfg apiCall errs Hall) by lia.
  eexists. split; [reflexivity|]. cbn [calls result delays].
  rewrite Nat.add_0_l, app_nil_l.
  replace (S (Z.to_nat (retryAttempts cfg - 1)) - 1)%nat
    with (Z.to_nat (retryAttempts cfg - 1)) by lia.
  split; [lia|]. split; [done|].
  unfold backoff. apply list_fmap_ext. intros _ i _. repeat f_equal; lia.
Qed.

Lemma _retryWithBackoff_retries_every_failure_witness :
  (forall n, always_fails (HttpStatus 404) n
             = Rejected ((fun _ => HttpStatus 404) n)) /\
  exists r,
    _retryWithBackoff (RetryConfig 3 1000) (always_fails (HttpStatus 404)) 1
    = Some r /\
    calls r = Z.to_nat (Z.max 1 (retryAttempts (RetryConfig 3 1000))) /\
    result r = Rejected ((fun _ => HttpStatus 404) (calls r - 1)%nat) /\
    delays r = (fun k => retryDelay (RetryConfig 3 1000) * 2 ^ Z.of_nat k)
                 <$> seq 0 (calls r - 1).
Proof.
  split; [reflexivity|].
  exact (_retryWithBackoff_retries_every_failure (RetryConfig 3 1000)
           (always_fails (HttpStatus 404)) (fun _ => HttpStatus 404)
           (fun n => eq_refl)).
Defined.

(** C6, as stated, fails: an upstream that answers 404 to every attempt
    is called three times under the development settings, with the two
    backoff delays in between. *)
Lemma retry_404_counterexample :
  client_error (HttpStatus 404) = true /\
  _retryWithBackoff (RetryConfig 3 1000) (always_fails (HttpStatus 404)) 1
  = Some (Run (Rejected (HttpStatus 404)) 3 [1000; 2000]).
Proof. split; reflexivity. Qed.

(** *** Transformers *)

Example transform_rankings_run :
  _transformRankingsData 1700000000000
    (JArr [JObj [("dg_id", JNum 18417); ("player_name", JStr "Scheffler");
                 ("rank", JNum 1); ("total_points", JNum 600)]])
  = Some (JObj
      [("rankings",
        JArr [JObj [("playerId", JNum 18417);
                    ("playerName", JStr "Scheffler"); ("rank", JNum 1);
                    ("points", JNum 600); ("averagePoints", JNull);
                    ("eventsPlayed", JNum 0); ("wins", JNum 0);
                    ("top10s", JNum 0); ("earnings", JNum 0);
                    ("transformedAt", JIsoDate 1700000000000)]]);
       ("metadata", JObj [("count", JNum 1);
                          ("transformedAt", JIsoDate 1700000000000)])]).
Proof. reflexivity. Qed.

(** Two functions that agree off the blanked fields on every element of
    an array do so on the whole array. *)
Lemma mapM_agree (h : json -> json) (f g : json -> option json)
    (l : list json) :
  (forall x, x ∈ l -> h <$> f x = h <$> g x) ->
  map h <$> mapM f l = map h <$> mapM g l.
Proof.
  induction l as [|x l IH]; intros H; [done|]. simpl.
  pose proof (H x (list_elem_of_here _ _)) as Hx.
  assert (IH' := IH (fun y Hy => H y (list_elem_of_further _ _ _ Hy))).
  destruct (f x) as [a|], (g x) as [b|]; simpl in *; try done.
  destruct (mapM f l) as [fl|], (mapM g l) as [gl|]; simpl in *; try done.
  injection Hx as Hx. injection IH' as IH'. by rewrite Hx, IH'.
Qed.

Ltac step_fields :=
  repeat match goal with
  | |- context [either ?v ?x ?y] => destruct (either v x y); simpl; [|done]
  | |- context [default ?v ?x ?d] => destruct (default v x d); simpl; [|done]
  end.

(** The items that read the clock for their stamp only. *)
Lemma tournamentItem_agree now now' x :
  without ["transformedAt"] <$> tournamentItem now x
  = without ["transformedAt"] <$> tournamentItem now' x.
Proof. unfold tournamentItem. step_fields. by vm_compute. Qed.

Lemma rankingItem_agree now now' x :
  without ["transformedAt"] <$> rankingItem now x
  = without ["transformedAt"] <$> rankingItem now' x.
Proof. unfold rankingItem. step_fields. by vm_compute. Qed.

Lemma fieldItem_agree now now' x :
  without ["transformedAt"] <$> fieldItem now x
  = without ["transformedAt"] <$> fieldItem now' x.
Proof. unfold fieldItem. step_fields. by vm_compute. Qed.

(** A fallback is used by both applications or by neither. *)
Lemma default_both v x d d' :
  (default v x d = None /\ default v x d' = None)
  \/ exists a b, default v x d = Some a /\ default v x d' = Some b.
Proof.
  unfold default. destruct (prop v x) as [p|]; simpl; [|by left].
  right. eauto.
Qed.

(** A field that the raw body supplies is never replaced. *)
Lemma default_supplied v x d d' :
  supplies v x = true -> default v x d = default v x d'.
Proof.
  unfold supplies, default, or. destruct (prop v x) as [p|]; simpl; [|done].
  by intros ->.
Qed.

(** The items of the scoring and betting-odds transformers. *)
Lemma scoreItem_agree now now' x :
  without ["transformedAt"; "lastUpdated"] <$> scoreItem now x
  = without ["transformedAt"; "lastUpdated"] <$> scoreItem now' x.
Proof.
  unfold scoreItem. step_fields.
  destruct (default_both x "last_updated" (JIsoDate now) (JIsoDate now'))
    as [[-> ->] | (a & b & -> & ->)]; [done|].
  by vm_compute.
Qed.

Lemma scoreItem_supplied now now' x :
  supplies x "last_updated" = true ->
  without ["transformedAt"] <$> scoreItem now x
  = without ["transformedAt"] <$> scoreItem now' x.
Proof.
  intros H. unfold scoreItem.
  rewrite (default_supplied x "last_updated" (JIsoDate now) (JIsoDate now') H).
  step_fields. by vm_compute.
Qed.

Lemma oddItem_agree now now' x :
  without ["transformedAt"; "lastUpdated"] <$> oddItem now x
  = without ["transformedAt"; "lastUpdated"] <$> oddItem now' x.
Proof.
  unfold oddItem. step_fields.
  destruct (default_both x "last_updated" (JIsoDate now) (JIsoDate now'))
    as [[-> ->] | (a & b & -> & ->)]; [done|].
  by vm_compute.
Qed.

Lemma oddItem_supplied now now' x :
  supplies x "last_updated" = true ->
  without ["transformedAt"] <$> oddItem now x
  = without ["transformedAt"] <$> oddItem now' x.
Proof.
  intros H. unfold oddItem.
  rewrite (default_supplied x "last_updated" (JIsoDate now) (JIsoDate now') H).
  step_fields. by vm_compute.
Qed.

(** The wrapper of the list transformers adds a stamp of its own. *)
Lemma transformList_agree names label (item : Z -> json -> option json)
    now now' raw :
  "transformedAt" ∈ names ->
  (forall elements x, raw = JArr elements -> x ∈ elements ->
     without names <$> item now x = without names <$> item now' x) ->
  without names <$> transformList label item now raw
  = without names <$> transformList label item now' raw.
Proof.
  intros Hin H.
  pose proof (bool_decide_eq_true_2 _ Hin) as Hb.
  destruct raw as [| | b | z | s | ms | ms | elements | fields];
    try (cbn [transformList fmap option_fmap option_map without map fst snd];
         by rewrite !Hb).
  cbn [transformList].
  pose proof (mapM_agree (without names) (item now) (item now') elements
                (fun x Hx => H elements x eq_refl Hx)) as Hm.
  destruct (mapM (item now) elements) as [a|],
           (mapM (item now') elements) as [b|]; simpl in Hm; try done.
  injection Hm as Hm.
  assert (Hlen : List.length a = List.length b).
  { apply (f_equal (@List.length json)) in Hm.
    by rewrite !length_map in Hm. }
  cbn [mbind option_bind fmap option_fmap option_map without map fst snd].
  by rewrite !Hb, Hlen, Hm.
Qed.

Lemma _transformPlayerStatsData_agree now now' raw :
  without ["transformedAt"; "season"] <$> _transformPlayerStatsData now raw
  = without ["transformedAt"; "season"] <$> _transformPlayerStatsData now' raw.
Proof.
  unfold _transformPlayerStatsData. destruct (truthy raw); simpl; [|done].
  destruct (either raw "dg_id" "player_id"); simpl; [|done].
  destruct (either raw "player_name" "name"); simpl; [|done].
  destruct (default_both raw "season" (JYear now) (JYear now'))
    as [[-> ->] | (a & b & -> & ->)]; [done|].
  simpl. step_fields. by vm_compute.
Qed.

Lemma _transformPlayerStatsData_supplied now now' raw :
  negb (truthy raw) || supplies raw "season" = true ->
  without ["transformedAt"] <$> _transformPlayerStatsData now raw
  = without ["transformedAt"] <$> _transformPlayerStatsData now' raw.
Proof.
  intros H. unfold _transformPlayerStatsData.
  destruct (truthy raw); simpl in *; [|done].
  rewrite (default_supplied raw "season" (JYear now) (JYear now') H).
  step_fields. by vm_compute.
Qed.

Lemma forallb_elem {A} (f : A -> bool) (l : list A) x :
  forallb f l = true -> x ∈ l -> f x = true.
Proof.
  intros H Hx. apply list_elem_of_In in Hx.
  exact (proj1 (forallb_forall f l) H x Hx).
Qed.

(** C8, as the code has it.  A transformer reads the clock, and what it
    reads goes into named fields only.  For every registered transformer
    and every raw body, two applications throw alike or return bodies
    that agree in every value but those of the fields [transformedAt] and
    [lastUpdated] (scoring, betting odds) or [season] (player stats); and
    when the raw body supplies these ([last_updated] in every element,
    [season] in the object), the two bodies agree in every value but
    those of the fields [transformedAt]. *)
Theorem transformers_agree_up_to_stamps :
  Forall (fun tr => forall (now now' : Z) (raw : json),
            without (clockFields tr.1) <$> tr.2 now raw
            = without (clockFields tr.1) <$> tr.2 now' raw
            /\ (complete tr.1 raw = true ->
                without ["transformedAt"] <$> tr.2 now raw
                = without ["transformedAt"] <$> tr.2 now' raw))
         transformers.
Proof.
  assert (Hin1 : "transformedAt" ∈ ["transformedAt"])
    by apply list_elem_of_here.
  assert (Hin2 : "transformedAt" ∈ ["transformedAt"; "lastUpdated"])
    by apply list_elem_of_here.
  unfold transformers.
  repeat apply Forall_cons_2; try apply Forall_nil_2;
    intros now now' raw; cbn [fst snd].
  - assert (H : without ["transformedAt"] <$> _transformTournamentData now raw
                = without ["transformedAt"]
                    <$> _transformTournamentData now' raw).
    { apply transformList_agree; [exact Hin1|].
      intros _ x _ _. apply tournamentItem_agree. }
    split; [exact H | intros _; exact H].
  - assert (H : without ["transformedAt"] <$> _transformRankingsData now raw
                = without ["transformedAt"]
                    <$> _transformRankingsData now' raw).
    { apply transformList_agree; [exact Hin1|].
      intros _ x _ _. apply rankingItem_agree. }
    split; [exact H | intros _; exact H].
  - assert (H : without ["transformedAt"] <$> _transformFieldData now raw
                = without ["transformedAt"] <$> _transformFieldData now' raw).
    { apply transformList_agree; [exact Hin1|].
      intros _ x _ _. apply fieldItem_agree. }
    split; [exact H | intros _; exact H].
  - split.
    + apply (transformList_agree ["transformedAt"; "lastUpdated"]);
        [exact Hin2|]. intros _ x _ _. apply scoreItem_agree.
    + intros Hc. apply transformList_agree; [exact Hin1|].
      intros elements x -> Hx. apply scoreItem_supplied.
      exact (forallb_elem _ _ _ Hc Hx).
  - split.
    + apply _transformPlayerStatsData_agree.
    + intros Hc. by apply _transformPlayerStatsData_supplied.
  - split.
    + apply (transformList_agree ["transformedAt"; "lastUpdated"]);
        [exact Hin2|]. intros _ x _ _. apply oddItem_agree.
    + intros Hc. apply transformList_agree; [exact Hin1|].
      intros elements x -> Hx. apply oddItem_supplied.
      exact (forallb_elem _ _ _ Hc Hx).
Qed.

Lemma transformers_agree_up_to_stamps_witness :
  complete "scoring" completeScores = true
  /\ without ["transformedAt"] <$> _transformScoringData 1000 completeScores
     = without ["transformedAt"] <$> _transformScoringData 2000 completeScores.
Proof.
  split; [reflexivity|].
  exact (proj2 (Forall_lookup_1 _ transformers 3
                  ("scoring", _transformScoringData)
                  transformers_agree_up_to_stamps eq_refl
                  1000 2000 completeScores) eq_refl).
Defined.

(** The blanked fields are needed, and no others: in the scoring body
    [mixedScores] the second player has no [last_updated], and two
    applications differ in that player's [lastUpdated]; in
    [completeScores] they differ in the [transformedAt] stamps only.  A
    clock reading in any other field, such as [playerId], is a
    difference that [without] keeps. *)
Example transformers_agree_examples :
  complete "scoring" mixedScores = false
  /\ without ["transformedAt"] <$> _transformScoringData 1000 mixedScores
     <> without ["transformedAt"] <$> _transformScoringData 2000 mixedScores
  /\ complete "scoring" completeScores = true
  /\ without ["transformedAt"] <$> _transformScoringData 1000 completeScores
     = without ["transformedAt"] <$> _transformScoringData 2000 completeScores
  /\ without ["transformedAt"; "lastUpdated"]
       (JObj [("playerId", JIsoDate 1000); ("transformedAt", JIsoDate 1000)])
     <> without ["transformedAt"; "lastUpdated"]
          (JObj [("playerId", JIsoDate 2000);
                 ("transformedAt", JIsoDate 2000)]).
Proof. vm_compute. repeat split; congruence. Qed.

(** C8, as stated, fails: the same raw body transformed at two different
    instants gives two different normalized bodies, for each of the
    registered transformers. *)
Lemma transform_clock_counterexample :
  Forall (fun tr => tr.2 1700000000000 (JArr [])
                    <> tr.2 1700000000001 (JArr []))
         transformers.
Proof.
  unfold transformers. repeat apply Forall_cons_2; try apply Forall_nil_2;
    vm_compute; discriminate.
Qed.

End ClientFacts.

(** ** The circuit breaker *)

Module BreakerFacts.
Import Breaker.

Lemma failures_snoc times t cb :
  failures (times ++ [t]) cb = _recordFailure t (failures times cb).
Proof. unfold failures. by rewrite fold_left_app. Qed.

Lemma failures_count times cb :
  failureCount (failures times cb)
  = failureCount cb + Z.of_nat (List.length times)
  /\ same_settings (failures times cb) cb
  /\ successCount (failures times cb) = successCount cb.
Proof.
  revert cb. induction times as [|t times IH]; intros cb.
  - simpl. unfold same_settings. split; [lia | done].
  - change (failures (t :: times) cb)
      with (failures times (_recordFailure t cb)).
    destruct (IH (_recordFailure t cb)) as (Hc & (H1 & H2 & H3) & Hs).
    rewrite Hc, Hs. unfold same_settings. rewrite H1, H2, H3. simpl.
    split; [lia | done].
Qed.

(** After [threshold] consecutive failures the breaker is open and
    remembers the time of the last one. *)
Lemma failures_open times tlast cb :
  0 <= failureCount cb -> 1 <= threshold cb ->
  List.length times = Z.to_nat (threshold cb) ->
  last times = Some tlast ->
  cb_state (failures times cb) = OPEN
  /\ lastFailureTime (failures times cb) = Some tlast
  /\ same_settings (failures times cb) cb
  /\ successCount (failures times cb) = successCount cb.
Proof.
  intros Hfc Hth Hlen Hlast.
  destruct (last_Some times tlast) as [[init ->] _]; [done|].
  rewrite failures_snoc. rewrite length_app in Hlen. simpl in Hlen.
  destruct (failures_count init cb) as (Hc & (H1 & H2 & H3) & Hs).
  unfold _recordFailure, same_settings. simpl. rewrite Hc, H1, H2, H3, Hs.
  destruct (Z.leb_spec (threshold cb)
              (failureCount cb + Z.of_nat (List.length init) + 1));
    [done | lia].
Qed.

(** A half-open breaker admits every request. *)
Lemma admissions_half_open times cb :
  cb_state cb = HALF_OPEN ->
  admissions times cb = (repeat true (List.length times), cb).
Proof.
  intros Hs. induction times as [|t times IH]; [done|].
  simpl. unfold _checkCircuitBreaker. by rewrite Hs, IH.
Qed.

Lemma admitted_half_open times cb :
  cb_state cb = HALF_OPEN -> admitted times cb = List.length times.
Proof.
  intros Hs. unfold admitted. rewrite admissions_half_open by done.
  cbn [fst]. induction (List.length times) as [|n IH]; [done|].
  change (repeat true (S n)) with (true :: repeat true n).
  rewrite filter_cons_True by done. simpl. by rewrite IH.
Qed.

Lemma successes_half_open (n : nat) cb :
  cb_state cb = HALF_OPEN ->
  successCount cb + Z.of_nat n < resetThreshold cb ->
  cb_state (successes n cb) = HALF_OPEN
  /\ successCount (successes n cb) = successCount cb + Z.of_nat n
  /\ same_settings (successes n cb) cb.
Proof.
  intros Hs. induction n as [|n IH]; intros Hlt.
  - simpl. unfold same_settings. split; [done|]. split; [lia | done].
  - destruct IH as (Hst & Hsc & (H1 & H2 & H3)); [lia|].
    change (successes (S n) cb) with (_recordSuccess (successes n cb)).
    unfold _recordSuccess, same_settings. rewrite Hst, Hsc, H1, H2, H3.
    destruct (Z.leb_spec (resetThreshold cb)
                (successCount cb + Z.of_nat n + 1)); [lia|].
    simpl. split; [done|]. split; [lia | done].
Qed.

Lemma successes_close cb :
  cb_state cb = HALF_OPEN -> successCount cb = 0 ->
  1 <= resetThreshold cb ->
  cb_state (successes (Z.to_nat (resetThreshold cb)) cb) = CLOSED
  /\ failureCount (successes (Z.to_nat (resetThreshold cb)) cb) = 0.
Proof.
  intros Hs H0 Hr.
  replace (Z.to_nat (resetThreshold cb))
    with (S (Z.to_nat (resetThreshold cb - 1))) by lia.
  change (successes (S ?n) cb) with (_recordSuccess (successes n cb)).
  destruct (successes_half_open (Z.to_nat (resetThreshold cb - 1)) cb Hs)
    as (Hst & Hsc & (H1 & H2 & H3)); [lia|].
  unfold _recordSuccess. rewrite Hst, Hsc, H3, H0.
  destruct (Z.leb_spec (resetThreshold cb)
              (0 + Z.of_nat (Z.to_nat (resetThreshold cb - 1)) + 1));
    [done | lia].
Qed.

(** C7, as the code has it.  From CLOSED, [threshold] consecutive
    recorded failures open the circuit, and an admission check made no
    later than [timeout] after the last failure is refused.  The first
    check made later than that is admitted and leaves the circuit
    HALF_OPEN with its success counter at zero.  A half-open circuit
    admits every request, however many are already on trial.
    [resetThreshold] consecutive successes then close the circuit and
    clear the failure counter. *)
Theorem breaker_cycle (cb : circuitBreaker) (times : list Z) (tlast : Z) :
  cb_state cb = CLOSED -> 0 <= failureCount cb ->
  1 <= threshold cb -> 1 <= resetThreshold cb ->
  List.length times = Z.to_nat (threshold cb) ->
  last times = Some tlast ->
  cb_state (failures times cb) = OPEN
  /\ (forall now, now - tlast <= timeout cb ->
        _checkCircuitBreaker now (failures times cb)
        = (false, failures times cb))
  /\ (forall now, timeout cb < now - tlast ->
        let probe := _checkCircuitBreaker now (failures times cb) in
        probe.1 = true
        /\ cb_state probe.2 = HALF_OPEN /\ successCount probe.2 = 0
        /\ (forall trials,
              admitted trials probe.2 = List.length trials)
        /\ cb_state (successes (Z.to_nat (resetThreshold cb)) probe.2)
           = CLOSED
        /\ failureCount (successes (Z.to_nat (resetThreshold cb)) probe.2)
           = 0).
Proof.
  intros Hst Hfc Hth Hrt Hlen Hlast.
  destruct (failures_open times tlast cb Hfc Hth Hlen Hlast)
    as (Hopen & Htime & (H1 & H2 & H3) & _).
  set (cbo := failures times cb) in *. clearbody cbo.
  split; [done|]. split.
  - intros now Hnow. unfold _checkCircuitBreaker.
    rewrite Hopen, Htime, H2. simpl.
    destruct (Z.ltb_spec (timeout cb) (now - tlast)); [lia | done].
  - intros now Hnow probe.
    assert (Hp : probe
                 = (true, CircuitBreaker HALF_OPEN (failureCount cbo)
                            (lastFailureTime cbo) 0 (threshold cbo)
                            (timeout cbo) (resetThreshold cbo))).
    { unfold probe, _checkCircuitBreaker. rewrite Hopen, Htime, H2. simpl.
      destruct (Z.ltb_spec (timeout cb) (now - tlast)); [done | lia]. }
    rewrite Hp. simpl. split; [done|]. split; [done|]. split; [done|].
    split.
    + intros trials. by apply admitted_half_open.
    + rewrite <- H3.
      apply (successes_close
               (CircuitBreaker HALF_OPEN (failureCount cbo)
                  (lastFailureTime cbo) 0 (threshold cbo) (timeout cbo)
                  (resetThreshold cbo))); simpl; [done | done | lia].
Qed.

Lemma breaker_cycle_witness :
  cb_state initial = CLOSED /\ 0 <= failureCount initial /\
  1 <= threshold initial /\ 1 <= resetThreshold initial /\
  List.length [1000; 2000; 3000; 4000; 5000]
  = Z.to_nat (threshold initial) /\
  last [1000; 2000; 3000; 4000; 5000] = Some 5000 /\
  (cb_state (failures [1000; 2000; 3000; 4000; 5000] initial) = OPEN
   /\ (forall now, now - 5000 <= timeout initial ->
         _checkCircuitBreaker now
           (failures [1000; 2000; 3000; 4000; 5000] initial)
         = (false, failures [1000; 2000; 3000; 4000; 5000] initial))
   /\ (forall now, timeout initial < now - 5000 ->
         let probe :=
           _checkCircuitBreaker now
             (failures [1000; 2000; 3000; 4000; 5000] initial) in
         probe.1 = true
         /\ cb_state probe.2 = HALF_OPEN /\ successCount probe.2 = 0
         /\ (forall trials,
               admitted trials probe.2 = List.length trials)
         /\ cb_state (successes (Z.to_nat (resetThreshold initial)) probe.2)
            = CLOSED
         /\ failureCount
              (successes (Z.to_nat (resetThreshold initial)) probe.2)
            = 0)).
Proof.
  assert (H1 : cb_state initial = CLOSED) by reflexivity.
  assert (H2 : 0 <= failureCount initial) by (simpl; lia).
  assert (H3 : 1 <= threshold initial) by (simpl; lia).
  assert (H4 : 1 <= resetThreshold initial) by (simpl; lia).
  assert (H5 : List.length [1000; 2000; 3000; 4000; 5000]
               = Z.to_nat (threshold initial)) by reflexivity.
  assert (H6 : last [1000; 2000; 3000; 4000; 5000] = Some 5000)
    by reflexivity.
  repeat (split; [assumption|]).
  exact (breaker_cycle initial [1000; 2000; 3000; 4000; 5000] 5000
           H1 H2 H3 H4 H5 H6).
Defined.

(** C7, as stated, fails: no number of trials bounds the admissions of a
    half-open circuit.  After five failures and the timeout, the probing
    check and any further checks are all admitted, none of the admitted
    requests having completed. *)
Lemma half_open_unbounded_counterexample :
  ~ exists max_trials : nat,
      forall trials : list Z,
        Nat.le
          (admitted trials
             (_checkCircuitBreaker 70000
                (failures [1000; 2000; 3000; 4000; 5000] initial)).2)
          max_trials.
Proof.
  intros [m H]. specialize (H (repeat 70001 (S m))).
  rewrite admitted_half_open in H by reflexivity.
  rewrite repeat_length in H. lia.
Qed.

End BreakerFacts.

(** ** The request pipeline *)

Module ServiceFacts.
Import Js Service.


Lemma _checkRateLimit_allowed now rl :
  Z.of_nat (List.length (requests rl)) < maxRequests rl ->
  (_checkRateLimit now rl).1 = true
  /\ maxRequests (_checkRateLimit now rl).2 = maxRequests rl
  /\ (List.length (requests (_checkRateLimit now rl).2)
      <= S (List.length (requests rl)))%nat.
Proof.
  intros Hlt. unfold _checkRateLimit.
  pose proof (length_filter (fun timestamp => now - timestamp < windowMs rl)
                (requests rl)) as Hf.
  set (kept := filter _ (requests rl)) in *.
  destruct (Z.leb_spec (maxRequests rl) (Z.of_nat (List.length kept)))
    as [Hle | _]; [lia|].
  simpl. rewrite length_app. simpl. split; [done|]. split; [done | lia].
Qed.



Lemma insert_last {T} (l : list T) (x y : T) :
  <[List.length l := y]> (l ++ [x])%list = (l ++ [y])%list.
Proof.
  rewrite insert_app_r_alt by lia. by rewrite Nat.sub_diag.
Qed.








End ServiceFacts.

(** ** The session envelope *)

Module SessionFacts.
Import Session.

Lemma slices (salt iv tag encrypted : bytes) :
  List.length salt = SALT_LENGTH -> List.length iv = IV_LENGTH ->
  List.length tag = TAG_LENGTH ->
  take SALT_LENGTH (salt ++ iv ++ tag ++ encrypted) = salt
  /\ take IV_LENGTH (drop SALT_LENGTH (salt ++ iv ++ tag ++ encrypted)) = iv
  /\ take TAG_LENGTH
       (drop (SALT_LENGTH + IV_LENGTH) (salt ++ iv ++ tag ++ encrypted))
     = tag
  /\ drop (SALT_LENGTH + IV_LENGTH + TAG_LENGTH)
       (salt ++ iv ++ tag ++ encrypted) = encrypted.
Proof.
  intros Hs Hi Ht.
  rewrite <- !Nat.add_assoc, <- !drop_drop.
  rewrite !(drop_app_length' salt) by done.
  rewrite !(drop_app_length' iv) by done.
  rewrite (drop_app_length' tag) by done.
  by rewrite !take_app_length'.
Qed.

Section Envelope.
Variable pbkdf2Sync : string -> bytes -> bytes.
Variable cipher : bytes -> bytes -> bytes -> bytes * bytes.
Variable decipher : bytes -> bytes -> bytes -> bytes -> option bytes.
Variable stringify : sessionData -> bytes.
Variable parse : bytes -> option sessionData.
Variable toBase64 : bytes -> string.
Variable fromBase64 : string -> bytes.

Lemma with_iv_combine data masterKey salt iv iv' :
  List.length salt = SALT_LENGTH -> List.length iv = IV_LENGTH ->
  with_iv iv' (combine pbkdf2Sync cipher stringify data masterKey salt iv)
  = combine pbkdf2Sync cipher stringify data masterKey salt iv'.
Proof.
  intros Hs Hi. unfold with_iv, combine.
  destruct (cipher _ _ _) as [encrypted tag].
  rewrite take_app_length' by done.
  rewrite <- drop_drop, (drop_app_length' salt), (drop_app_length' iv);
    done.
Qed.

(** C1.  The token that [encryptSessionData] makes decrypts to the
    record it was made from, and so does the same token with the
    sixteen bytes of its initialisation vector replaced by any others:
    [decryptSessionData] slices that field off and never reads it, the
    cipher having derived its vector from the key.  The assumptions are
    those of a working installation: the random salt and vector have
    their lengths, the cipher returns a sixteen-byte tag and its
    counterpart accepts what it produced, the JSON text of the record
    parses back to it, and Base64 decodes what it encoded. *)
Theorem decrypt_ignores_iv (data : sessionData) (masterKey : string)
    (salt iv iv' : bytes) :
  List.length salt = SALT_LENGTH -> List.length iv = IV_LENGTH ->
  List.length iv' = IV_LENGTH ->
  List.length
    (cipher (deriveKey pbkdf2Sync masterKey salt) salt (stringify data)).2
  = TAG_LENGTH ->
  decipher (deriveKey pbkdf2Sync masterKey salt) salt
    (cipher (deriveKey pbkdf2Sync masterKey salt) salt (stringify data)).2
    (cipher (deriveKey pbkdf2Sync masterKey salt) salt (stringify data)).1
  = Some (stringify data) ->
  parse (stringify data) = Some data ->
  fromBase64
    (toBase64
       (with_iv iv'
          (combine pbkdf2Sync cipher stringify data masterKey salt iv)))
  = with_iv iv'
      (combine pbkdf2Sync cipher stringify data masterKey salt iv) ->
  decryptSessionData pbkdf2Sync decipher parse fromBase64
    (toBase64
       (with_iv iv'
          (combine pbkdf2Sync cipher stringify data masterKey salt iv)))
    masterKey
  = Session data.
Proof.
  intros Hs Hi Hi' Htag Hdec Hparse Hb64.
  unfold decryptSessionData. rewrite Hb64.
  rewrite with_iv_combine by done. unfold combine.
  destruct (cipher _ _ _) as [encrypted tag]. simpl in Htag, Hdec.
  destruct (slices salt iv' tag encrypted Hs Hi' Htag)
    as (-> & _ & -> & ->).
  by rewrite Hdec, Hparse.
Qed.
End Envelope.

Import Instance.

Lemma decrypt_ignores_iv_witness :
  List.length salt = SALT_LENGTH /\ List.length iv = IV_LENGTH /\
  List.length iv' = IV_LENGTH /\
  List.length
    (cipher (deriveKey pbkdf2Sync masterKey salt) salt (stringify sample)).2
  = TAG_LENGTH /\
  decipher (deriveKey pbkdf2Sync masterKey salt) salt
    (cipher (deriveKey pbkdf2Sync masterKey salt) salt (stringify sample)).2
    (cipher (deriveKey pbkdf2Sync masterKey salt) salt (stringify sample)).1
  = Some (stringify sample) /\
  parse (stringify sample) = Some sample /\
  Base64.decode
    (Base64.encode
       (with_iv iv'
          (combine pbkdf2Sync cipher stringify sample masterKey salt iv)))
  = with_iv iv'
      (combine pbkdf2Sync cipher stringify sample masterKey salt iv) /\
  decryptSessionData pbkdf2Sync decipher parse Base64.decode
    (Base64.encode
       (with_iv iv'
          (combine pbkdf2Sync cipher stringify sample masterKey salt iv)))
    masterKey
  = Session sample.
Proof.
  assert (H1 : List.length salt = SALT_LENGTH) by reflexivity.
  assert (H2 : List.length iv = IV_LENGTH) by reflexivity.
  assert (H3 : List.length iv' = IV_LENGTH) by reflexivity.
  assert (H4 : List.length
                 (cipher (deriveKey pbkdf2Sync masterKey salt) salt
                    (stringify sample)).2 = TAG_LENGTH)
    by (vm_compute; reflexivity).
  assert (H5 : decipher (deriveKey pbkdf2Sync masterKey salt) salt
                 (cipher (deriveKey pbkdf2Sync masterKey salt) salt
                    (stringify sample)).2
                 (cipher (deriveKey pbkdf2Sync masterKey salt) salt
                    (stringify sample)).1
               = Some (stringify sample))
    by (vm_compute; reflexivity).
  assert (H6 : parse (stringify sample) = Some sample)
    by (vm_compute; reflexivity).
  assert (H7 : Base64.decode
                 (Base64.encode
                    (with_iv iv'
                       (combine pbkdf2Sync cipher stringify sample
                          masterKey salt iv)))
               = with_iv iv'
                   (combine pbkdf2Sync cipher stringify sample masterKey
                      salt iv))
    by (vm_compute; reflexivity).
  repeat (split; [assumption|]).
  exact (decrypt_ignores_iv pbkdf2Sync cipher decipher stringify parse
           Base64.encode Base64.decode sample masterKey salt iv iv'
           H1 H2 H3 H4 H5 H6 H7).
Defined.

(** The failing input: the token of the sample record with one bit of
    its character 44 flipped is the token whose vector is [iv']; it is a
    different token and decrypts to the record all the same.  A flipped
    bit in the salt, the tag or the ciphertext is rejected. *)
Example flipped_iv_bit_accepted :
  flip_bit 44 1 token <> token
  /\ flip_bit 44 1 token
     = Base64.encode
         (with_iv iv'
            (combine pbkdf2Sync cipher stringify sample masterKey salt iv))
  /\ decryptSessionData pbkdf2Sync decipher parse Base64.decode
       (flip_bit 44 1 token) masterKey
     = Session sample.
Proof.
  split; [vm_compute; discriminate|]. split; vm_compute; reflexivity.
Qed.

Example flipped_other_bits_rejected :
  decryptSessionData pbkdf2Sync decipher parse Base64.decode
    (flip_bit 2 1 token) masterKey = InvalidSessionToken
  /\ decryptSessionData pbkdf2Sync decipher parse Base64.decode
       (flip_bit 70 1 token) masterKey = InvalidSessionToken
  /\ decryptSessionData pbkdf2Sync decipher parse Base64.decode
       (flip_bit 100 1 token) masterKey = InvalidSessionToken.
Proof. repeat split; vm_compute; reflexivity. Qed.

End SessionFacts.

(** ** More of the upstream client *)

Module ClientMoreFacts.
Import Client ClientMore.

Section RetrySuccess.
Context {A : Type}.
Variable cfg : retryConfig.
Variable apiCall : nat -> attempt_result A.

Lemma retry_first_success (n fuel : nat) (attempt : Z) (done : nat)
    (slept : list Z) (r : A) :
  (forall i, (i < n)%nat -> exists e, apiCall (done + i) = Rejected e) ->
  apiCall (done + n) = Resolved r ->
  (n = 0%nat \/ attempt + Z.of_nat n <= retryAttempts cfg) ->
  (n < fuel)%nat ->
  retry cfg apiCall fuel attempt done slept
  = Some (Run (Resolved r) (S (done + n)) (slept ++ backoff cfg attempt n)).
Proof.
  revert fuel attempt done slept.
  induction n as [|n IH]; intros fuel attempt done slept Hfail Hok Hmax Hfuel.
  - destruct fuel as [|fuel]; [lia|]. simpl.
    rewrite Nat.add_0_r in Hok. rewrite Hok.
    unfold backoff. simpl. by rewrite Nat.add_0_r, app_nil_r.
  - destruct fuel as [|fuel]; [lia|]. simpl.
    destruct (Hfail 0%nat) as [e He]; [lia|].
    rewrite Nat.add_0_r in He. rewrite He.
    destruct (Z.leb_spec (retryAttempts cfg) attempt) as [Hle | Hgt]; [lia|].
    rewrite (IH fuel (attempt + 1) (S done)).
    + rewrite ClientFacts.backoff_S, <- app_assoc. simpl.
      by rewrite Nat.add_succ_r.
    + intros i Hi. destruct (Hfail (S i)) as [e' He']; [lia|].
      exists e'. by rewrite Nat.add_succ_r in He'.
    + by rewrite Nat.add_succ_r in Hok.
    + right. lia.
    + lia.
Qed.
End RetrySuccess.

(** X1.  The retry loop stops at the first success: when the first [n]
    attempts are rejected and the next one is fulfilled, with [n] below
    the number of attempts allowed, the call returns that response after
    [n + 1] attempts and the [n] delays [retryDelay * 2^k]. *)
Theorem _retryWithBackoff_first_success {A : Type} (cfg : retryConfig)
    (apiCall : nat -> attempt_result A) (n : nat) (r : A) :
  (forall i, (i < n)%nat -> exists e, apiCall i = Rejected e) ->
  apiCall n = Resolved r ->
  Z.of_nat n < Z.max 1 (retryAttempts cfg) ->
  _retryWithBackoff cfg apiCall 1
  = Some (Run (Resolved r) (S n)
              ((fun k => retryDelay cfg * 2 ^ Z.of_nat k) <$> seq 0 n)).
Proof.
  intros Hfail Hok Hn. unfold _retryWithBackoff.
  assert (Hmax : n = 0%nat \/ 1 + Z.of_nat n <= retryAttempts cfg) by lia.
  assert (Hfuel : (n < S (Z.to_nat (retryAttempts cfg - 1)))%nat) by lia.
  rewrite (retry_first_success cfg apiCall n _ 1 0%nat [] r
             Hfail Hok Hmax Hfuel).
  simpl. by f_equal.
Qed.

Lemma _retryWithBackoff_first_success_witness :
  (forall i, (i < 2)%nat ->
     exists e,
       (fun k => if (k <? 2)%nat then Rejected (HttpStatus 503)
                 else Resolved "ok") i = Rejected e) /\
  (fun k => if (k <? 2)%nat then Rejected (HttpStatus 503)
            else Resolved "ok") 2%nat = Resolved "ok" /\
  Z.of_nat 2 < Z.max 1 (retryAttempts (RetryConfig 3 1000)) /\
  _retryWithBackoff (RetryConfig 3 1000)
    (fun k => if (k <? 2)%nat then Rejected (HttpStatus 503)
              else Resolved "ok") 1
  = Some (Run (Resolved "ok") 3
              ((fun k => retryDelay (RetryConfig 3 1000) * 2 ^ Z.of_nat k)
                 <$> seq 0 2)).
Proof.
  assert (H1 : forall i, (i < 2)%nat ->
             exists e,
               (fun k => if (k <? 2)%nat
                         then @Rejected string (HttpStatus 503)
                         else Resolved "ok") i = Rejected e).
  { intros i Hi. exists (HttpStatus 503).
    destruct (Nat.ltb_spec i 2); [reflexivity | lia]. }
  assert (H3 : Z.of_nat 2 < Z.max 1 (retryAttempts (RetryConfig 3 1000)))
    by (simpl; lia).
  split; [exact H1|]. split; [reflexivity|]. split; [exact H3|].
  exact (_retryWithBackoff_first_success (RetryConfig 3 1000) _ 2 "ok"
           H1 eq_refl H3).
Defined.

(** *** What the transformers accept *)

Lemma prop_None v name : prop v name = None <-> nullish v = true.
Proof. destruct v; simpl; split; congruence. Qed.

Lemma either_None v x y : either v x y = None <-> nullish v = true.
Proof. unfold either. destruct v; simpl; split; congruence. Qed.

Lemma default_None v x d : default v x d = None <-> nullish v = true.
Proof. unfold default. destruct v; simpl; split; congruence. Qed.

Ltac item_fails :=
  match goal with
  | |- ?item ?now ?x = None <-> _ =>
      unfold item; destruct x; simpl; split; congruence
  end.

Lemma tournamentItem_None now x :
  tournamentItem now x = None <-> nullish x = true.
Proof. item_fails. Qed.

Lemma rankingItem_None now x : rankingItem now x = None <-> nullish x = true.
Proof. item_fails. Qed.

Lemma fieldItem_None now x : fieldItem now x = None <-> nullish x = true.
Proof. item_fails. Qed.

Lemma scoreItem_None now x : scoreItem now x = None <-> nullish x = true.
Proof. item_fails. Qed.

Lemma oddItem_None now x : oddItem now x = None <-> nullish x = true.
Proof. item_fails. Qed.

Lemma transformList_array label (item : Z -> json -> option json) now
    (elements : list json) :
  (forall x, item now x = None <-> nullish x = true) ->
  (transformList label item now (JArr elements) = None
   <-> Exists (fun x => nullish x = true) elements)
  /\ forall out, transformList label item now (JArr elements) = Some out ->
       exists items,
         out = listBody label items (Z.of_nat (List.length elements)) now
         /\ Forall2 (fun x y => item now x = Some y) elements items.
Proof.
  intros Hitem. simpl. split.
  - split.
    + intros H. destruct (mapM (item now) elements) eqn:E; [done|].
      apply mapM_None_1 in E. eapply Exists_impl; [exact E|].
      intros x Hx. by apply Hitem.
    + intros H. rewrite (mapM_None_2 (item now) elements); [done|].
      eapply Exists_impl; [exact H|]. intros x Hx. by apply Hitem.
  - intros out H. destruct (mapM (item now) elements) as [items|] eqn:E;
      [|done].
    pose proof (length_mapM _ _ _ E) as Hlen.
    apply mapM_Some_1 in E. injection H as <-. exists items.
    split; [|exact E]. unfold listBody. by rewrite Hlen.
Qed.

(** X2.  A list transformer given an array throws exactly when one of the
    elements is [null] or [undefined]; otherwise it returns, under its
    label, the items that its arrow function makes of the elements, one
    per element and in the order of the array, and [metadata.count] is
    the number of elements.  The arrow function itself throws on [null]
    and [undefined] only. *)
Theorem listTransformers_array :
  listItems.*1 = listTransformers
  /\ Forall (fun tr =>
       forall (now : Z) (elements : list json),
         (tr.1.2 now (JArr elements) = None
          <-> Exists (fun x => nullish x = true) elements)
         /\ (forall x, tr.2 now x = None <-> nullish x = true)
         /\ forall out, tr.1.2 now (JArr elements) = Some out ->
              exists items,
                out = listBody tr.1.1 items
                        (Z.of_nat (List.length elements)) now
                /\ List.length items = List.length elements
                /\ forall i x, elements !! i = Some x ->
                     exists y, items !! i = Some y /\ tr.2 now x = Some y)
       listItems.
Proof.
  split; [reflexivity|]. unfold listItems.
  assert (Hall : forall label (item : Z -> json -> option json),
             (forall now x, item now x = None <-> nullish x = true) ->
             forall (now : Z) (elements : list json),
               (transformList label item now (JArr elements) = None
                <-> Exists (fun x => nullish x = true) elements)
               /\ (forall x, item now x = None <-> nullish x = true)
               /\ forall out,
                    transformList label item now (JArr elements) = Some out ->
                    exists items,
                      out = listBody label items
                              (Z.of_nat (List.length elements)) now
                      /\ List.length items = List.length elements
                      /\ forall i x, elements !! i = Some x ->
                           exists y, items !! i = Some y
                                     /\ item now x = Some y).
  { intros label item Hitem now elements.
    destruct (transformList_array label item now elements (Hitem now))
      as [Hthrow Hout].
    split; [exact Hthrow|]. split; [exact (Hitem now)|].
    intros out H. destruct (Hout out H) as (items & -> & Hall).
    exists items. split; [reflexivity|].
    split; [symmetry; exact (Forall2_length _ _ _ Hall)|].
    intros i x Hx.
    destruct (Forall2_lookup_l _ _ _ _ _ Hall Hx) as (y & Hy & Hxy).
    by exists y. }
  repeat apply Forall_cons_2; try apply Forall_nil_2; apply Hall;
    intros now x.
  - apply tournamentItem_None.
  - apply rankingItem_None.
  - apply fieldItem_None.
  - apply scoreItem_None.
  - apply oddItem_None.
Qed.

(** X3.  Anything that is not an array, [null] and [undefined] included,
    gives the empty list with a count of zero, and the player-statistics
    transformer accepts every body: neither ever throws. *)
Theorem transformers_never_throw_off_arrays (now : Z) (raw : json) :
  Forall (fun tr => (forall elements, raw <> JArr elements) ->
                    tr.2 now raw = Some (listBody tr.1 [] 0 now))
         listTransformers
  /\ is_Some (_transformPlayerStatsData now raw).
Proof.
  split.
  - unfold listTransformers.
    repeat apply Forall_cons_2; try apply Forall_nil_2;
      intros Hraw; destruct raw; try done; by destruct (Hraw items).
  - unfold _transformPlayerStatsData.
    destruct raw; simpl; try by eexists.
    + destruct b; simpl; by eexists.
    + destruct (z =? 0); simpl; by eexists.
    + destruct (Js.truthy_str s); simpl; by eexists.
Qed.

End ClientMoreFacts.

(** ** Runs of the rate limiter and of the pipeline *)

Module ServiceMoreFacts.
Import Service ServiceMore.

Lemma filter_window (w t t' : Z) (H : list Z) :
  t' <= t ->
  filter (fun ts => t - ts < w) (filter (fun ts => t' - ts < w) H)
  = filter (fun ts => t - ts < w) H.
Proof.
  intros Hle. induction H as [|x H IH]; [done|].
  destruct (decide (t' - x < w)) as [Hx | Hx].
  - rewrite (filter_cons_True (fun ts => t' - ts < w)) by done.
    destruct (decide (t - x < w)).
    + rewrite !(filter_cons_True (fun ts => t - ts < w)) by done.
      by rewrite IH.
    + rewrite !(filter_cons_False (fun ts => t - ts < w)) by done. done.
  - rewrite (filter_cons_False (fun ts => t' - ts < w)) by done.
    rewrite (filter_cons_False (fun ts => t - ts < w)) by lia. done.
Qed.

Lemma last_nonempty_default (l : list Z) (x d d' : Z) :
  List.last (x :: l) d = List.last (x :: l) d'.
Proof.
  revert x. induction l as [|y l IH]; intros x; [done|].
  change (List.last (y :: l) d = List.last (y :: l) d'). apply IH.
Qed.

Lemma last_cons_default (l : list Z) (a d : Z) :
  List.last (a :: l) d = List.last l a.
Proof.
  destruct l as [|b l]; [done|].
  change (List.last (b :: l) d = List.last (b :: l) a).
  apply last_nonempty_default.
Qed.

(** One check, seen from the history of the admitted requests. *)
Lemma _checkRateLimit_step (t tprev : Z) (rl : rateLimiter)
    (history : list Z) :
  tprev <= t ->
  requests rl = filter (fun ts => tprev - ts < windowMs rl) history ->
  Z.of_nat (List.length (requests rl)) <= maxRequests rl ->
  (_checkRateLimit t rl
   = (false, RateLimiter (filter (fun ts => t - ts < windowMs rl) history)
               (maxRequests rl) (windowMs rl))
   /\ Z.of_nat (List.length
                  (filter (fun ts => t - ts < windowMs rl) history))
      <= maxRequests rl)
  \/ (_checkRateLimit t rl
      = (true,
         RateLimiter (filter (fun ts => t - ts < windowMs rl) history ++ [t])
           (maxRequests rl) (windowMs rl))
      /\ Z.of_nat (List.length
                     (filter (fun ts => t - ts < windowMs rl) history)) + 1
         <= maxRequests rl).
Proof.
  intros Hle Hreq Hlen. unfold _checkRateLimit.
  rewrite Hreq, (filter_window _ t tprev history Hle).
  assert (Hk : Nat.le
                 (List.length
                    (filter (fun ts => t - ts < windowMs rl) history))
                 (List.length (requests rl))).
  { rewrite Hreq, <- (filter_window _ t tprev history Hle).
    apply length_filter. }
  destruct (Z.leb_spec (maxRequests rl)
              (Z.of_nat (List.length
                           (filter (fun ts => t - ts < windowMs rl)
                                   history)))).
  - left. split; [done | lia].
  - right. split; [done | lia].
Qed.

(** The window of the limiter always holds the admitted requests that are
    younger than [windowMs] at the time of the last check, and never more
    than [maxRequests] of them. *)
Lemma limit_run_window (times : list Z) (rl : rateLimiter)
    (history : list Z) (tprev : Z) :
  0 < windowMs rl -> Sorted Z.le (tprev :: times) ->
  requests rl = filter (fun ts => tprev - ts < windowMs rl) history ->
  Z.of_nat (List.length (requests rl)) <= maxRequests rl ->
  requests (limit_run times rl).2
  = filter (fun ts => List.last times tprev - ts < windowMs rl)
           (history ++ (limit_run times rl).1)%list
  /\ Z.of_nat (List.length (requests (limit_run times rl).2))
     <= maxRequests rl.
Proof.
  revert rl history tprev.
  induction times as [|t times IH]; intros rl history tprev Hw Hs Hreq Hlen.
  - simpl. by rewrite app_nil_r.
  - apply Sorted_inv in Hs as [Hs Hhd]. apply HdRel_inv in Hhd.
    rewrite last_cons_default. simpl limit_run.
    destruct (_checkRateLimit_step t tprev rl history Hhd Hreq Hlen)
      as [[-> Hk] | [-> Hk]].
    + specialize (IH (RateLimiter
                        (filter (fun ts => t - ts < windowMs rl) history)
                        (maxRequests rl) (windowMs rl)) history t).
      destruct (limit_run times _) as [adm rl2]. simpl in *.
      by apply IH.
    + specialize (IH (RateLimiter
                        (filter (fun ts => t - ts < windowMs rl) history
                           ++ [t])%list
                        (maxRequests rl) (windowMs rl))
                     (history ++ [t])%list t).
      destruct (limit_run times _) as [adm rl2]. simpl in *.
      rewrite <- app_assoc in IH. apply IH; [done | done | |].
      * rewrite filter_app. f_equal.
        rewrite filter_cons_True by lia. done.
      * rewrite length_app. simpl. lia.
Qed.

(** X4.  The sliding window holds: when the rate limiter is checked at
    clock readings that never go back, starting with an empty window, the
    requests admitted during the last [windowMs] before any check, that
    check included, number at most [maxRequests]. *)
Theorem rate_limit_window_bound (times : list Z) (t : Z) (rl : rateLimiter) :
  requests rl = [] -> 0 < windowMs rl -> 0 <= maxRequests rl ->
  Sorted Z.le times -> last times = Some t ->
  Z.of_nat
    (List.length
       (filter (fun ts => t - ts < windowMs rl) (limit_run times rl).1))
  <= maxRequests rl.
Proof.
  intros Hreq Hw Hmax Hs Hlast.
  destruct times as [|t1 times]; [done|].
  destruct (limit_run_window (t1 :: times) rl [] t1 Hw) as [Hwin Hlen].
  - constructor; [done|]. by constructor.
  - by rewrite Hreq.
  - rewrite Hreq. simpl. lia.
  - assert (Ht : List.last (t1 :: times) t1 = t).
    { clear -Hlast. revert t1 Hlast.
      induction times as [|t2 times IH]; intros t1 Hlast.
      - by injection Hlast.
      - change (List.last (t2 :: times) t1 = t).
        rewrite (last_nonempty_default times t2 t1 t2). by apply IH. }
    rewrite Ht, app_nil_l in Hwin. by rewrite <- Hwin.
Qed.

Lemma rate_limit_window_bound_witness :
  requests (RateLimiter [] 2 1000) = [] /\
  0 < windowMs (RateLimiter [] 2 1000) /\
  0 <= maxRequests (RateLimiter [] 2 1000) /\
  Sorted Z.le [0; 100; 200; 1050] /\
  last [0; 100; 200; 1050] = Some 1050 /\
  Z.of_nat
    (List.length
       (filter (fun ts => 1050 - ts < windowMs (RateLimiter [] 2 1000))
               (limit_run [0; 100; 200; 1050] (RateLimiter [] 2 1000)).1))
  <= maxRequests (RateLimiter [] 2 1000).
Proof.
  assert (H1 : requests (RateLimiter [] 2 1000) = []) by reflexivity.
  assert (H2 : 0 < windowMs (RateLimiter [] 2 1000)) by (simpl; lia).
  assert (H3 : 0 <= maxRequests (RateLimiter [] 2 1000)) by (simpl; lia).
  assert (H4 : Sorted Z.le [0; 100; 200; 1050]).
  { repeat (constructor; try lia). }
  assert (H5 : last [0; 100; 200; 1050] = Some 1050) by reflexivity.
  repeat (split; [assumption|]).
  exact (rate_limit_window_bound [0; 100; 200; 1050] 1050
           (RateLimiter [] 2 1000) H1 H2 H3 H4 H5).
Defined.

(** With a limit of two per second, the third request of a burst is
    refused and a request one second after the first is admitted again. *)
Example limit_run_burst :
  (limit_run [0; 100; 200; 1050] (RateLimiter [] 2 1000)).1 = [0; 100; 1050].
Proof. reflexivity. Qed.

(** *** An open circuit under load *)

Lemma begin_refused cfg now key use s t0 :
  Breaker.cb_state (circuitBreaker s) = Breaker.OPEN ->
  Breaker.lastFailureTime (circuitBreaker s) = Some t0 ->
  now - t0 <= Breaker.timeout (circuitBreaker s) ->
  ((begin cfg now key use s).1 = Threw RateLimitExceeded
   \/ (begin cfg now key use s).1 = Threw CircuitBreakerOpen)
  /\ Breaker.cb_state (circuitBreaker (begin cfg now key use s).2)
     = Breaker.OPEN
  /\ Breaker.lastFailureTime (circuitBreaker (begin cfg now key use s).2)
     = Some now
  /\ Breaker.timeout (circuitBreaker (begin cfg now key use s).2)
     = Breaker.timeout (circuitBreaker s)
  /\ cache (begin cfg now key use s).2 = cache s.
Proof.
  intros Hopen Hlast Hgap. unfold begin.
  cbn [with_stats limiter stats cache circuitBreaker].
  destruct (_checkRateLimit now (limiter s)) as [allowed rl].
  destruct allowed; simpl.
  - unfold Breaker._checkCircuitBreaker. rewrite Hopen, Hlast. simpl.
    destruct (Z.ltb_spec (Breaker.timeout (circuitBreaker s)) (now - t0));
      [lia|].
    simpl. rewrite Hopen.
    split; [by right|]. split; [by destruct (_ <=? _)|]. done.
  - rewrite Hopen.
    split; [by left|]. split; [by destruct (_ <=? _)|]. done.
Qed.

(** X5.  An open circuit that keeps receiving requests never recovers: a
    request refused by the breaker or by the rate limiter is recorded as a
    failure and restarts the timeout, so when each request follows the
    previous one (the first one, the last failure) by no more than
    [timeout], every one of them is refused before it reaches the cache or
    the upstream, and the circuit is still OPEN afterwards. *)
Theorem open_circuit_starved (cfg : Cache.cacheConfig) (key : string)
    (use : bool) (times : list Z) (s : service) (t0 : Z) :
  Breaker.cb_state (circuitBreaker s) = Breaker.OPEN ->
  Breaker.lastFailureTime (circuitBreaker s) = Some t0 ->
  spaced (Breaker.timeout (circuitBreaker s)) t0 times ->
  Forall (fun p => p = Threw RateLimitExceeded
                   \/ p = Threw CircuitBreakerOpen)
         (calls cfg key use times s).1
  /\ Breaker.cb_state (circuitBreaker (calls cfg key use times s).2)
     = Breaker.OPEN
  /\ cache (calls cfg key use times s).2 = cache s.
Proof.
  revert s t0. induction times as [|t times IH]; intros s t0 Hopen Hlast Hsp.
  - simpl. by split.
  - destruct Hsp as [Hgap Hsp]. simpl calls.
    destruct (begin_refused cfg t key use s t0 Hopen Hlast Hgap)
      as (Hp & Hopen1 & Hlast1 & Htime1 & Hcache1).
    destruct (begin cfg t key use s) as [p s1]. simpl in *.
    rewrite <- Htime1 in Hsp.
    destruct (IH s1 t Hopen1 Hlast1 Hsp) as (Hall & Hopen2 & Hcache2).
    destruct (calls cfg key use times s1) as [ps s2]. simpl in *.
    split; [by constructor|]. split; [done|]. by rewrite Hcache2.
Qed.

Lemma open_circuit_starved_witness :
  Breaker.cb_state (circuitBreaker tripped) = Breaker.OPEN /\
  Breaker.lastFailureTime (circuitBreaker tripped) = Some 5000 /\
  spaced (Breaker.timeout (circuitBreaker tripped)) 5000
    [60000; 115000; 170000] /\
  Forall (fun p => p = Threw RateLimitExceeded
                   \/ p = Threw CircuitBreakerOpen)
         (calls Cache.productionConfig "rankings" true
            [60000; 115000; 170000] tripped).1
  /\ Breaker.cb_state
       (circuitBreaker (calls Cache.productionConfig "rankings" true
                          [60000; 115000; 170000] tripped).2)
     = Breaker.OPEN
  /\ cache (calls Cache.productionConfig "rankings" true
              [60000; 115000; 170000] tripped).2 = cache tripped.
Proof.
  assert (H1 : Breaker.cb_state (circuitBreaker tripped) = Breaker.OPEN)
    by reflexivity.
  assert (H2 : Breaker.lastFailureTime (circuitBreaker tripped) = Some 5000)
    by reflexivity.
  assert (H3 : spaced (Breaker.timeout (circuitBreaker tripped)) 5000
                 [60000; 115000; 170000]).
  { simpl. repeat split; lia. }
  split; [exact H1|]. split; [exact H2|]. split; [exact H3|].
  exact (open_circuit_starved Cache.productionConfig "rankings" true
           [60000; 115000; 170000] tripped 5000 H1 H2 H3).
Defined.

(** Left alone for longer than the timeout, the same circuit lets the next
    request through. *)
Example open_circuit_probe :
  (calls Cache.productionConfig "rankings" true [65001] tripped).1
  = [AwaitGet None].
Proof. reflexivity. Qed.

(** *** A burst over the rate limit *)

Lemma begin_rate_limited cfg now key use s :
  maxRequests (limiter s) <= Z.of_nat (List.length (requests (limiter s))) ->
  Forall (fun ts => now - ts < windowMs (limiter s)) (requests (limiter s)) ->
  (begin cfg now key use s).1 = Threw RateLimitExceeded
  /\ limiter (begin cfg now key use s).2 = limiter s
  /\ cache (begin cfg now key use s).2 = cache s
  /\ circuitBreaker (begin cfg now key use s).2
     = Breaker._recordFailure now (circuitBreaker s).
Proof.
  intros Hfull Hwin. unfold begin, _checkRateLimit.
  cbn [with_stats limiter stats cache circuitBreaker].
  assert (Hkept : filter (fun ts => now - ts < windowMs (limiter s))
                    (requests (limiter s)) = requests (limiter s)).
  { clear Hfull. induction Hwin as [|a l Ha Hl IH]; [done|].
    rewrite filter_cons_True by done. by f_equal. }
  rewrite Hkept.
  destruct (Z.leb_spec (maxRequests (limiter s))
              (Z.of_nat (List.length (requests (limiter s)))));
    [|lia].
  simpl. by destruct (limiter s).
Qed.

Lemma calls_rate_limited cfg key use times s :
  maxRequests (limiter s) <= Z.of_nat (List.length (requests (limiter s))) ->
  Forall (fun t => Forall (fun ts => t - ts < windowMs (limiter s))
                     (requests (limiter s))) times ->
  (calls cfg key use times s).1
  = replicate (List.length times) (Threw RateLimitExceeded)
  /\ cache (calls cfg key use times s).2 = cache s
  /\ circuitBreaker (calls cfg key use times s).2
     = Breaker.failures times (circuitBreaker s).
Proof.
  revert s. induction times as [|t times IH]; intros s Hfull Hwin; [done|].
  apply Forall_cons in Hwin as [Ht Hwin].
  destruct (begin_rate_limited cfg t key use s Hfull Ht)
    as (Hp & Hl & Hc & Hb).
  cbn [calls]. destruct (begin cfg t key use s) as [p s1].
  simpl in Hp, Hl, Hc, Hb. subst p.
  destruct (IH s1) as (IH1 & IH2 & IH3); [by rewrite Hl | by rewrite Hl |].
  destruct (calls cfg key use times s1) as [ps s2].
  simpl in IH1, IH2, IH3. simpl.
  rewrite IH1, IH2, IH3, Hc, Hb. done.
Qed.

(** X23.  A burst over the rate limit opens the circuit: while the rate
    limiter is full, every call is refused before the cache or the
    upstream is touched, and each refusal is recorded as a failure of
    the upstream; after [threshold] of them the circuit is OPEN. *)
Theorem burst_over_limit_opens_circuit (cfg : Cache.cacheConfig)
    (key : string) (use : bool) (times : list Z) (tlast : Z)
    (s : service) :
  0 <= Breaker.failureCount (circuitBreaker s) ->
  1 <= Breaker.threshold (circuitBreaker s) ->
  List.length times = Z.to_nat (Breaker.threshold (circuitBreaker s)) ->
  last times = Some tlast ->
  maxRequests (limiter s) <= Z.of_nat (List.length (requests (limiter s))) ->
  Forall (fun t => Forall (fun ts => t - ts < windowMs (limiter s))
                     (requests (limiter s))) times ->
  (calls cfg key use times s).1
  = replicate (List.length times) (Threw RateLimitExceeded)
  /\ Breaker.cb_state (circuitBreaker (calls cfg key use times s).2)
     = Breaker.OPEN
  /\ Breaker.lastFailureTime (circuitBreaker (calls cfg key use times s).2)
     = Some tlast
  /\ cache (calls cfg key use times s).2 = cache s.
Proof.
  intros Hf Ht Hlen Hlast Hfull Hwin.
  destruct (calls_rate_limited cfg key use times s Hfull Hwin)
    as (H1 & H2 & H3).
  destruct (BreakerFacts.failures_open times tlast (circuitBreaker s)
              Hf Ht Hlen Hlast) as (Ho & Hl & _).
  rewrite H3. done.
Qed.

Lemma burst_over_limit_opens_circuit_witness :
  0 <= Breaker.failureCount (circuitBreaker ServiceMore.flooded) /\
  1 <= Breaker.threshold (circuitBreaker ServiceMore.flooded) /\
  List.length [1001; 1002; 1003; 1004; 1005]
  = Z.to_nat (Breaker.threshold (circuitBreaker ServiceMore.flooded)) /\
  last [1001; 1002; 1003; 1004; 1005] = Some 1005 /\
  maxRequests (limiter ServiceMore.flooded)
  <= Z.of_nat (List.length (requests (limiter ServiceMore.flooded))) /\
  Forall (fun t => Forall (fun ts => t - ts
                                     < windowMs (limiter ServiceMore.flooded))
                     (requests (limiter ServiceMore.flooded)))
    [1001; 1002; 1003; 1004; 1005] /\
  ((calls Cache.productionConfig "rankings" true
      [1001; 1002; 1003; 1004; 1005] ServiceMore.flooded).1
   = replicate (List.length [1001; 1002; 1003; 1004; 1005])
       (Threw RateLimitExceeded)
   /\ Breaker.cb_state
        (circuitBreaker
           (calls Cache.productionConfig "rankings" true
              [1001; 1002; 1003; 1004; 1005] ServiceMore.flooded).2)
      = Breaker.OPEN
   /\ Breaker.lastFailureTime
        (circuitBreaker
           (calls Cache.productionConfig "rankings" true
              [1001; 1002; 1003; 1004; 1005] ServiceMore.flooded).2)
      = Some 1005
   /\ cache (calls Cache.productionConfig "rankings" true
               [1001; 1002; 1003; 1004; 1005] ServiceMore.flooded).2
      = cache ServiceMore.flooded).
Proof.
  assert (H1 : 0 <= Breaker.failureCount (circuitBreaker ServiceMore.flooded))
    by (vm_compute; discriminate).
  assert (H2 : 1 <= Breaker.threshold (circuitBreaker ServiceMore.flooded))
    by (vm_compute; discriminate).
  assert (H3 : List.length [1001; 1002; 1003; 1004; 1005]
               = Z.to_nat
                   (Breaker.threshold (circuitBreaker ServiceMore.flooded)))
    by (vm_compute; reflexivity).
  assert (H4 : last [1001; 1002; 1003; 1004; 1005] = Some 1005)
    by reflexivity.
  assert (H5 : maxRequests (limiter ServiceMore.flooded)
               <= Z.of_nat
                    (List.length (requests (limiter ServiceMore.flooded))))
    by (vm_compute; discriminate).
  assert (H6 : Forall
                 (fun t =>
                    Forall (fun ts =>
                              t - ts < windowMs (limiter ServiceMore.flooded))
                      (requests (limiter ServiceMore.flooded)))
                 [1001; 1002; 1003; 1004; 1005]).
  { refine (bool_decide_unpack _ _). vm_compute. exact I. }
  repeat (split; [assumption|]).
  exact (burst_over_limit_opens_circuit Cache.productionConfig "rankings"
           true [1001; 1002; 1003; 1004; 1005] 1005 ServiceMore.flooded
           H1 H2 H3 H4 H5 H6).
Defined.

End ServiceMoreFacts.

(** ** More of the cache service *)

Module CacheMoreFacts.
Import Js JsFacts Cache CacheFacts CacheMore.

(** *** Association lists with distinct keys *)

Section Assoc_nodup.
Context {V : Type}.
Implicit Types (m : list (string * V)) (k : string) (v : V).

Lemma assoc_has_elem m k : assoc_has k m = true <-> k ∈ m.*1.
Proof.
  unfold assoc_has. induction m as [|[k0 v0] m IH]; simpl.
  - split; [done | by intros ?%elem_of_nil].
  - destruct (String.eqb_spec k k0) as [-> | Hne].
    + split; [intros _; apply elem_of_cons; by left | done].
    + rewrite IH. split; [intros ?; apply elem_of_cons; by right|].
      intros [? | ?]%elem_of_cons; done.
Qed.

Lemma assoc_has_false m k : assoc_has k m = false <-> k ∉ m.*1.
Proof.
  rewrite <- assoc_has_elem. by destruct (assoc_has k m).
Qed.

Lemma elem_of_assoc_delete m k k' :
  k' ∈ (assoc_delete k m).*1 -> k' ∈ m.*1.
Proof.
  induction m as [|[k0 v0] m IH]; simpl; [done|].
  destruct (String.eqb_spec k k0) as [-> | Hne]; simpl.
  - intros ?. apply elem_of_cons. by right.
  - intros [-> | ?]%elem_of_cons; apply elem_of_cons; auto.
Qed.

Lemma NoDup_assoc_delete m k : NoDup (m.*1) -> NoDup ((assoc_delete k m).*1).
Proof.
  induction m as [|[k0 v0] m IH]; simpl; [done|].
  intros [Hk0 Hnd]%NoDup_cons.
  destruct (String.eqb_spec k k0) as [-> | Hne]; simpl; [done|].
  apply NoDup_cons. split; [|auto].
  intros Hin. by apply Hk0, (elem_of_assoc_delete m k).
Qed.

Lemma assoc_set_keys_new m k v :
  k ∉ m.*1 -> (assoc_set k v m).*1 = (m.*1 ++ [k])%list.
Proof.
  induction m as [|[k0 v0] m IH]; simpl; [done|].
  intros [Hne Hk]%not_elem_of_cons.
  destruct (String.eqb_spec k k0) as [-> | _]; [done|].
  simpl. f_equal. auto.
Qed.

Lemma NoDup_assoc_set m k v : NoDup (m.*1) -> NoDup ((assoc_set k v m).*1).
Proof.
  intros Hnd. destruct (decide (k ∈ m.*1)) as [Hin | Hout].
  - by rewrite assoc_set_keys.
  - rewrite assoc_set_keys_new by done.
    apply NoDup_app. split_and!; [done | | apply NoDup_singleton].
    intros x Hx ->%list_elem_of_singleton. done.
Qed.

Lemma assoc_has_delete_eq m k :
  NoDup (m.*1) -> assoc_has k (assoc_delete k m) = false.
Proof. intros Hnd. unfold assoc_has. by rewrite assoc_get_delete_eq. Qed.

Lemma assoc_has_delete_ne m k k' :
  k' <> k -> assoc_has k' (assoc_delete k m) = assoc_has k' m.
Proof. intros Hne. unfold assoc_has. by rewrite assoc_get_delete_ne. Qed.

Lemma assoc_has_set m k k' v :
  assoc_has k' (assoc_set k v m) = String.eqb k' k || assoc_has k' m.
Proof.
  unfold assoc_has. rewrite assoc_get_set. by destruct (String.eqb k' k).
Qed.

Lemma assoc_delete_absent m k : assoc_has k m = false -> assoc_delete k m = m.
Proof.
  unfold assoc_has. induction m as [|[k0 v0] m IH]; simpl; [done|].
  destruct (String.eqb_spec k k0) as [-> | Hne]; [done|].
  intros H. f_equal. auto.
Qed.

Lemma length_assoc_delete_le m k :
  (List.length (assoc_delete k m) <= List.length m)%nat.
Proof.
  induction m as [|[k0 v0] m IH]; simpl; [done|].
  destruct (String.eqb k k0); simpl; lia.
Qed.

Lemma length_assoc_set_le m k v :
  (List.length (assoc_set k v m) <= S (List.length m))%nat.
Proof.
  induction m as [|[k0 v0] m IH]; simpl; [done|].
  destruct (String.eqb k k0); simpl; lia.
Qed.
End Assoc_nodup.

(** *** What each level operation leaves alone *)

Lemma _setToL1_frame cfg now key d t c :
  l2Cache (_setToL1 cfg now key d t c) = l2Cache c
  /\ l3Cache (_setToL1 cfg now key d t c) = l3Cache c
  /\ l2Stats (_setToL1 cfg now key d t c) = l2Stats c
  /\ l3Stats (_setToL1 cfg now key d t c) = l3Stats c.
Proof.
  unfold _setToL1, _evictFromL1.
  destruct (at_capacity _ _); [destruct (first_key _) as [k|];
    [destruct (truthy_str k)|]|];
    destruct (as_entry _ _ _ _) as [l h];
    destruct t as [z|]; try destruct (z =? 0); done.
Qed.

Lemma _setToL2_frame cfg now key d t c :
  l1Cache (_setToL2 cfg now key d t c) = l1Cache c
  /\ l1AccessOrder (_setToL2 cfg now key d t c) = l1AccessOrder c
  /\ l3Cache (_setToL2 cfg now key d t c) = l3Cache c
  /\ l1Stats (_setToL2 cfg now key d t c) = l1Stats c
  /\ l3Stats (_setToL2 cfg now key d t c) = l3Stats c.
Proof.
  unfold _setToL2, _evictFromL2.
  destruct (at_capacity _ _); [destruct (first_key _) as [k|];
    [destruct (truthy_str k)|]|];
    destruct (as_entry _ _ _ _) as [l h]; done.
Qed.

Lemma _setToL3_frame cfg now key d t c :
  l1Cache (_setToL3 cfg now key d t c) = l1Cache c
  /\ l1AccessOrder (_setToL3 cfg now key d t c) = l1AccessOrder c
  /\ l2Cache (_setToL3 cfg now key d t c) = l2Cache c
  /\ l1Stats (_setToL3 cfg now key d t c) = l1Stats c
  /\ l2Stats (_setToL3 cfg now key d t c) = l2Stats c.
Proof.
  unfold _setToL3, _evictFromL3.
  destruct (at_capacity _ _); [destruct (leastUsed _ _ _) as [[k n]|];
    [destruct (truthy_str k)|]|];
    destruct (as_entry _ _ _ _) as [l h]; done.
Qed.

Lemma _setToL1_ref_entry cfg now key l t c e :
  heap c !! l = Some e -> timestamp e <> 0 ->
  assoc_get key (l1Cache (_setToL1 cfg now key (DRef l) t c)) = Some l.
Proof.
  intros Hl Ht. unfold _setToL1.
  set (c1 := if at_capacity (l1Cache c) (l1 cfg) then _ else _).
  assert (Hh : heap c1 = heap c).
  { unfold c1. destruct (at_capacity _ _); [apply _evictFromL1_frame|done]. }
  clearbody c1.
  rewrite (as_entry_ref now l t (heap c1) e) by (rewrite ?Hh; done).
  destruct t as [z|]; [destruct (z =? 0)|]; simpl;
    by rewrite assoc_get_set, String.eqb_refl.
Qed.

(** [set] allocates one entry object; every enabled level then maps the
    key to it. *)
Lemma set_locs cfg now key d t c :
  now <> 0 ->
  heap (set cfg now key d t c)
  = (heap c ++ [Entry d now (or_num t (cfg_ttl (l1 cfg))) 0])%list
  /\ (enabled (l1 cfg) = true ->
      assoc_get key (l1Cache (set cfg now key d t c))
      = Some (List.length (heap c)))
  /\ (enabled (l2 cfg) = true ->
      assoc_get key (l2Cache (set cfg now key d t c))
      = Some (List.length (heap c)))
  /\ (enabled (l3 cfg) = true ->
      assoc_get key (l3Cache (set cfg now key d t c))
      = Some (List.length (heap c))).
Proof.
  intros Hnow. unfold set.
  set (e := Entry d now (or_num t (cfg_ttl (l1 cfg))) 0).
  set (l := List.length (heap c)).
  set (c0 := set_heap c _).
  assert (H0 : heap c0 !! l = Some e).
  { unfold c0, l. simpl. by apply list_lookup_middle. }
  assert (Hh0 : heap c0 = (heap c ++ [e])%list) by done.
  set (c1 := if enabled (l1 cfg) then _ else c0).
  assert (H1 : heap c1 = heap c0
               /\ (enabled (l1 cfg) = true
                   -> assoc_get key (l1Cache c1) = Some l)).
  { unfold c1. destruct (enabled (l1 cfg)); [|done]. split.
    - by apply (_setToL1_ref cfg now key l _ c0 e).
    - intros _. by apply (_setToL1_ref_entry cfg now key l _ c0 e). }
  clearbody c1. destruct H1 as [Hh1 Hk1].
  assert (H1l : heap c1 !! l = Some e) by by rewrite Hh1.
  set (c2 := if enabled (l2 cfg) then _ else c1).
  assert (H2 : heap c2 = heap c1 /\ l1Cache c2 = l1Cache c1
               /\ (enabled (l2 cfg) = true
                   -> assoc_get key (l2Cache c2) = Some l)).
  { unfold c2. destruct (enabled (l2 cfg)); [|done]. split_and!.
    - by apply (_setToL2_ref cfg now key l _ c1 e).
    - apply _setToL2_frame.
    - intros _. by apply (_setToL2_ref cfg now key l _ c1 e). }
  clearbody c2. destruct H2 as (Hh2 & Hm2 & Hk2).
  assert (H2l : heap c2 !! l = Some e) by by rewrite Hh2.
  set (c3 := if enabled (l3 cfg) then _ else c2).
  assert (H3 : heap c3 = heap c2 /\ l1Cache c3 = l1Cache c2
               /\ l2Cache c3 = l2Cache c2
               /\ (enabled (l3 cfg) = true
                   -> assoc_get key (l3Cache c3) = Some l)).
  { unfold c3. destruct (enabled (l3 cfg)); [|done]. split_and!.
    - by apply (_setToL3_ref cfg now key l _ c2 e).
    - apply _setToL3_frame.
    - apply _setToL3_frame.
    - intros _. by apply (_setToL3_ref cfg now key l _ c2 e). }
  clearbody c3. destruct H3 as (Hh3 & Hm3 & Hn3 & Hk3).
  split_and!.
  - by rewrite Hh3, Hh2, Hh1.
  - intros H. rewrite Hm3, Hm2. auto.
  - intros H. rewrite Hn3. auto.
  - done.
Qed.

(** After [set], every enabled level holds the one entry object that the
    call built. *)
Lemma set_entries_all cfg now key d t c :
  now <> 0 ->
  (enabled (l1 cfg) = true ->
     entry_of (heap (set cfg now key d t c))
              (l1Cache (set cfg now key d t c)) key
     = Some (Entry d now (or_num t (cfg_ttl (l1 cfg))) 0))
  /\ (enabled (l2 cfg) = true ->
        entry_of (heap (set cfg now key d t c))
                 (l2Cache (set cfg now key d t c)) key
        = Some (Entry d now (or_num t (cfg_ttl (l1 cfg))) 0))
  /\ (enabled (l3 cfg) = true ->
        entry_of (heap (set cfg now key d t c))
                 (l3Cache (set cfg now key d t c)) key
        = Some (Entry d now (or_num t (cfg_ttl (l1 cfg))) 0)).
Proof.
  intros Hnow.
  destruct (set_locs cfg now key d t c Hnow) as (Hh & H1 & H2 & H3).
  unfold entry_of. rewrite Hh.
  split_and!; intros Hen; [rewrite H1 | rewrite H2 | rewrite H3]; try done;
    simpl; by apply list_lookup_middle.
Qed.

(** *** Reads of one level *)

Lemma _getFromL1_hit now key c e :
  entry_of (heap c) (l1Cache c) key = Some e -> _isExpired now e = false ->
  (_getFromL1 now key c).1 = Some (data e).
Proof.
  unfold entry_of, _getFromL1. intros He Hx.
  destruct (assoc_get key (l1Cache c)) as [l|]; [|done].
  simpl in He. by rewrite He, Hx.
Qed.

Lemma _getFromL2_hit now key c e :
  entry_of (heap c) (l2Cache c) key = Some e -> _isExpired now e = false ->
  (_getFromL2 now key c).1 = Some (data e).
Proof.
  unfold entry_of, _getFromL2. intros He Hx.
  destruct (assoc_get key (l2Cache c)) as [l|]; [|done].
  simpl in He. by rewrite He, Hx.
Qed.

Lemma _getFromL3_hit now key c e :
  entry_of (heap c) (l3Cache c) key = Some e -> _isExpired now e = false ->
  (_getFromL3 now key c).1 = Some (data e).
Proof.
  unfold entry_of, _getFromL3. intros He Hx.
  destruct (assoc_get key (l3Cache c)) as [l|]; [|done].
  simpl in He. by rewrite He, Hx.
Qed.

(** An expired entry is dropped by the level that reads it. *)
Lemma _getFromL1_expired now key c e :
  entry_of (heap c) (l1Cache c) key = Some e -> _isExpired now e = true ->
  _getFromL1 now key c
  = (None, set_l1Stats
             (set_l1 c (assoc_delete key (l1Cache c))
                       (assoc_delete key (l1AccessOrder c)))
             (miss (l1Stats c))).
Proof.
  unfold entry_of, _getFromL1. intros He Hx.
  destruct (assoc_get key (l1Cache c)) as [l|]; [|done].
  simpl in He. by rewrite He, Hx.
Qed.

Lemma _getFromL2_expired now key c e :
  entry_of (heap c) (l2Cache c) key = Some e -> _isExpired now e = true ->
  _getFromL2 now key c
  = (None, set_l2Stats (set_l2 c (assoc_delete key (l2Cache c)))
                       (miss (l2Stats c))).
Proof.
  unfold entry_of, _getFromL2. intros He Hx.
  destruct (assoc_get key (l2Cache c)) as [l|]; [|done].
  simpl in He. by rewrite He, Hx.
Qed.

Lemma _getFromL3_expired now key c e :
  entry_of (heap c) (l3Cache c) key = Some e -> _isExpired now e = true ->
  _getFromL3 now key c
  = (None, set_l3Stats (set_l3 c (assoc_delete key (l3Cache c)))
                       (miss (l3Stats c))).
Proof.
  unfold entry_of, _getFromL3. intros He Hx.
  destruct (assoc_get key (l3Cache c)) as [l|]; [|done].
  simpl in He. by rewrite He, Hx.
Qed.

(** *** Distinct keys are kept distinct *)

Lemma _setToL1_nodup cfg now key d t c :
  NoDup (keys (l1Cache c)) ->
  NoDup (keys (l1Cache (_setToL1 cfg now key d t c))).
Proof.
  intros Hnd. unfold _setToL1.
  set (c1 := if at_capacity (l1Cache c) (l1 cfg) then _ else _).
  assert (H1 : NoDup (keys (l1Cache c1))).
  { unfold c1, _evictFromL1. destruct (at_capacity _ _); [|done].
    destruct (first_key _) as [k|]; [|done].
    destruct (truthy_str k); [|done]. by apply NoDup_assoc_delete. }
  clearbody c1. destruct (as_entry _ _ _ _) as [l h].
  destruct t as [z|]; [destruct (z =? 0)|]; by apply NoDup_assoc_set.
Qed.

Lemma _setToL2_nodup cfg now key d t c :
  NoDup (keys (l2Cache c)) ->
  NoDup (keys (l2Cache (_setToL2 cfg now key d t c))).
Proof.
  intros Hnd. unfold _setToL2.
  set (c1 := if at_capacity (l2Cache c) (l2 cfg) then _ else _).
  assert (H1 : NoDup (keys (l2Cache c1))).
  { unfold c1, _evictFromL2. destruct (at_capacity _ _); [|done].
    destruct (first_key _) as [k|]; [|done].
    destruct (truthy_str k); [|done]. by apply NoDup_assoc_delete. }
  clearbody c1. destruct (as_entry _ _ _ _) as [l h].
  by apply NoDup_assoc_set.
Qed.

Lemma _setToL3_nodup cfg now key d t c :
  NoDup (keys (l3Cache c)) ->
  NoDup (keys (l3Cache (_setToL3 cfg now key d t c))).
Proof.
  intros Hnd. unfold _setToL3.
  set (c1 := if at_capacity (l3Cache c) (l3 cfg) then _ else _).
  assert (H1 : NoDup (keys (l3Cache c1))).
  { unfold c1, _evictFromL3. destruct (at_capacity _ _); [|done].
    destruct (leastUsed _ _ _) as [[k n]|]; [|done].
    destruct (truthy_str k); [|done]. by apply NoDup_assoc_delete. }
  clearbody c1. destruct (as_entry _ _ _ _) as [l h].
  by apply NoDup_assoc_set.
Qed.

Lemma set_nodup cfg now key d t c :
  nodup_levels c -> nodup_levels (set cfg now key d t c).
Proof.
  intros (N1 & N2 & N3). unfold set.
  set (c0 := set_heap c _).
  assert (H0 : nodup_levels c0) by done.
  set (c1 := if enabled (l1 cfg) then _ else c0).
  assert (H1 : nodup_levels c1).
  { unfold c1. destruct (enabled (l1 cfg)); [|done].
    destruct H0 as (? & ? & ?).
    destruct (_setToL1_frame cfg now key (DRef (List.length (heap c)))
                (or_num t (cfg_ttl (l1 cfg))) c0) as (E2 & E3 & _).
    unfold nodup_levels. rewrite E2, E3.
    split_and!; [by apply _setToL1_nodup | done | done]. }
  clearbody c1.
  set (c2 := if enabled (l2 cfg) then _ else c1).
  assert (H2 : nodup_levels c2).
  { unfold c2. destruct (enabled (l2 cfg)); [|done].
    destruct H1 as (? & ? & ?).
    destruct (_setToL2_frame cfg now key (DRef (List.length (heap c)))
                (or_num t (cfg_ttl (l2 cfg))) c1) as (E1 & _ & E3 & _).
    unfold nodup_levels. rewrite E1, E3.
    split_and!; [done | by apply _setToL2_nodup | done]. }
  clearbody c2.
  destruct (enabled (l3 cfg)); [|done].
  destruct H2 as (? & ? & ?).
  destruct (_setToL3_frame cfg now key (DRef (List.length (heap c)))
              (or_num t (cfg_ttl (l3 cfg))) c2) as (E1 & _ & E2 & _).
  unfold nodup_levels. rewrite E1, E2.
  split_and!; [done | done | by apply _setToL3_nodup].
Qed.

(** *** Reading an expired entry *)

Lemma probe_l1_expired (on : bool) now key c e :
  NoDup (keys (l1Cache c)) ->
  (on = true -> entry_of (heap c) (l1Cache c) key = Some e) ->
  _isExpired now e = true ->
  let p := if on then _getFromL1 now key c else (None, c) in
  p.1 = None /\ heap p.2 = heap c /\ l2Cache p.2 = l2Cache c
  /\ l3Cache p.2 = l3Cache c
  /\ (on = true -> assoc_has key (l1Cache p.2) = false).
Proof.
  intros Hnd He Hx. destruct on; simpl; [|done].
  rewrite (_getFromL1_expired now key c e) by auto. simpl.
  split_and!; try done. intros _. by apply assoc_has_delete_eq.
Qed.

Lemma probe_l2_expired (on : bool) now key c e :
  NoDup (keys (l2Cache c)) ->
  (on = true -> entry_of (heap c) (l2Cache c) key = Some e) ->
  _isExpired now e = true ->
  let p := if on then _getFromL2 now key c else (None, c) in
  p.1 = None /\ heap p.2 = heap c /\ l1Cache p.2 = l1Cache c
  /\ l3Cache p.2 = l3Cache c
  /\ (on = true -> assoc_has key (l2Cache p.2) = false).
Proof.
  intros Hnd He Hx. destruct on; simpl; [|done].
  rewrite (_getFromL2_expired now key c e) by auto. simpl.
  split_and!; try done. intros _. by apply assoc_has_delete_eq.
Qed.

Lemma probe_l3_expired (on : bool) now key c e :
  NoDup (keys (l3Cache c)) ->
  (on = true -> entry_of (heap c) (l3Cache c) key = Some e) ->
  _isExpired now e = true ->
  let p := if on then _getFromL3 now key c else (None, c) in
  p.1 = None /\ heap p.2 = heap c /\ l1Cache p.2 = l1Cache c
  /\ l2Cache p.2 = l2Cache c
  /\ (on = true -> assoc_has key (l3Cache p.2) = false).
Proof.
  intros Hnd He Hx. destruct on; simpl; [|done].
  rewrite (_getFromL3_expired now key c e) by auto. simpl.
  split_and!; try done. intros _. by apply assoc_has_delete_eq.
Qed.

(** X7.  Once the time to live of a stored entry has passed, [get]
    answers with a miss and the read itself removes the key from every
    enabled level. *)
Theorem get_after_expiry (cfg : cacheConfig) (now now' : Z) (key : string)
    (d : jsdata) (t : num) (c : cache) :
  nodup_levels c -> now <> 0 ->
  _isExpired now' (Entry d now (or_num t (cfg_ttl (l1 cfg))) 0) = true ->
  (get cfg now' key (set cfg now key d t c)).1 = None
  /\ (enabled (l1 cfg) = true ->
      assoc_has key
        (l1Cache (get cfg now' key (set cfg now key d t c)).2) = false)
  /\ (enabled (l2 cfg) = true ->
      assoc_has key
        (l2Cache (get cfg now' key (set cfg now key d t c)).2) = false)
  /\ (enabled (l3 cfg) = true ->
      assoc_has key
        (l3Cache (get cfg now' key (set cfg now key d t c)).2) = false).
Proof.
  intros Hnd Hnow Hx.
  destruct (set_entries_all cfg now key d t c Hnow) as (H1 & H2 & H3).
  apply (set_nodup cfg now key d t) in Hnd as (N1 & N2 & N3).
  set (c' := set cfg now key d t c) in *. clearbody c'.
  set (e := Entry d now (or_num t (cfg_ttl (l1 cfg))) 0) in *.
  unfold get.
  pose proof (probe_l1_expired (enabled (l1 cfg)) now' key c' e N1 H1 Hx)
    as (Hr1 & Hh1 & Hm12 & Hm13 & Hk1).
  destruct (if enabled (l1 cfg) then _getFromL1 now' key c' else (None, c'))
    as [r1 c1]. simpl in Hr1, Hh1, Hm12, Hm13, Hk1. subst r1.
  assert (N2' : NoDup (keys (l2Cache c1))) by by rewrite Hm12.
  assert (H2' : enabled (l2 cfg) = true
                -> entry_of (heap c1) (l2Cache c1) key = Some e)
    by by rewrite Hh1, Hm12.
  pose proof (probe_l2_expired (enabled (l2 cfg)) now' key c1 e N2' H2' Hx)
    as (Hr2 & Hh2 & Hm21 & Hm23 & Hk2).
  destruct (if enabled (l2 cfg) then _getFromL2 now' key c1 else (None, c1))
    as [r2 c2]. simpl in Hr2, Hh2, Hm21, Hm23, Hk2. subst r2.
  assert (N3' : NoDup (keys (l3Cache c2))) by by rewrite Hm23, Hm13.
  assert (H3' : enabled (l3 cfg) = true
                -> entry_of (heap c2) (l3Cache c2) key = Some e)
    by by rewrite Hh2, Hm23, Hh1, Hm13.
  pose proof (probe_l3_expired (enabled (l3 cfg)) now' key c2 e N3' H3' Hx)
    as (Hr3 & Hh3 & Hm31 & Hm32 & Hk3).
  destruct (if enabled (l3 cfg) then _getFromL3 now' key c2 else (None, c2))
    as [r3 c3]. simpl in Hr3, Hh3, Hm31, Hm32, Hk3. subst r3.
  simpl. split_and!; [done | | | done].
  - rewrite Hm31, Hm21. done.
  - rewrite Hm32. done.
Qed.

Lemma get_after_expiry_witness :
  nodup_levels empty /\ 1700000000000 <> 0 /\
  _isExpired 1700000061000
    (Entry (DPlain "body") 1700000000000
       (or_num (Some 60) (cfg_ttl (l1 productionConfig))) 0) = true /\
  ((get productionConfig 1700000061000 "scoring:tournamentId:14"
      (set productionConfig 1700000000000 "scoring:tournamentId:14"
         (DPlain "body") (Some 60) empty)).1 = None
   /\ (enabled (l1 productionConfig) = true ->
       assoc_has "scoring:tournamentId:14"
         (l1Cache
            (get productionConfig 1700000061000 "scoring:tournamentId:14"
               (set productionConfig 1700000000000
                  "scoring:tournamentId:14" (DPlain "body") (Some 60)
                  empty)).2) = false)
   /\ (enabled (l2 productionConfig) = true ->
       assoc_has "scoring:tournamentId:14"
         (l2Cache
            (get productionConfig 1700000061000 "scoring:tournamentId:14"
               (set productionConfig 1700000000000
                  "scoring:tournamentId:14" (DPlain "body") (Some 60)
                  empty)).2) = false)
   /\ (enabled (l3 productionConfig) = true ->
       assoc_has "scoring:tournamentId:14"
         (l3Cache
            (get productionConfig 1700000061000 "scoring:tournamentId:14"
               (set productionConfig 1700000000000
                  "scoring:tournamentId:14" (DPlain "body") (Some 60)
                  empty)).2) = false)).
Proof.
  assert (H0 : nodup_levels empty) by (repeat split; apply NoDup_nil_2).
  assert (H1 : 1700000000000 <> 0) by lia.
  assert (H2 : _isExpired 1700000061000
                 (Entry (DPlain "body") 1700000000000
                    (or_num (Some 60) (cfg_ttl (l1 productionConfig))) 0)
               = true) by reflexivity.
  repeat (split; [assumption|]).
  exact (get_after_expiry productionConfig 1700000000000 1700000061000
           "scoring:tournamentId:14" (DPlain "body") (Some 60) empty
           H0 H1 H2).
Defined.

(** *** Promotion *)

Lemma bump_lookup l h e :
  h !! l = Some e ->
  bump l h !! l
  = Some (Entry (data e) (timestamp e) (ttl e) (accessCount e + 1))
  /\ List.length (bump l h) = List.length h.
Proof.
  intros Hl. unfold bump. rewrite Hl. split.
  - apply list_lookup_insert_eq. by apply lookup_lt_Some in Hl.
  - apply length_insert.
Qed.




(** The promoted copy outlives the entry it was copied from: the value
    stored for sixty seconds is still served after ninety. *)
Example promoted_entry_outlives_ttl :
  let c1 := (get developmentConfig 1700000050000 "rankings:tour:PGA"
               demoted).2 in
  (get developmentConfig 1700000090000 "rankings:tour:PGA" c1).1
  = Some (DPlain "body").
Proof. reflexivity. Qed.

(** *** One entry object, three maps *)

Lemma _getFromL1_fresh now key c l e :
  assoc_get key (l1Cache c) = Some l -> heap c !! l = Some e ->
  _isExpired now e = false ->
  _getFromL1 now key c
  = (Some (data e),
     set_l1Stats
       (set_heap
          (set_l1 c (l1Cache c)
             (assoc_set key now (assoc_delete key (l1AccessOrder c))))
          (bump l (heap c)))
       (hit (l1Stats c))).
Proof. intros Hk Hl Hx. unfold _getFromL1. by rewrite Hk, Hl, Hx. Qed.

(** X9.  The levels share the entry object that [set] built: a read that
    level 1 answers raises the access count that level 3 sees for the
    key, from zero to one, although level 3 is not consulted (its
    statistics stay as they were). *)
Theorem l1_hit_counts_in_l3 (cfg : cacheConfig) (now now' : Z)
    (key : string) (d : jsdata) (t : num) (c : cache) :
  now <> 0 -> enabled (l1 cfg) = true -> enabled (l3 cfg) = true ->
  _isExpired now' (Entry d now (or_num t (cfg_ttl (l1 cfg))) 0) = false ->
  accessCount <$> entry_of (heap (set cfg now key d t c))
                    (l3Cache (set cfg now key d t c)) key = Some 0
  /\ accessCount <$>
       entry_of (heap (get cfg now' key (set cfg now key d t c)).2)
         (l3Cache (get cfg now' key (set cfg now key d t c)).2) key
     = Some 1
  /\ l3Stats (get cfg now' key (set cfg now key d t c)).2
     = l3Stats (set cfg now key d t c).
Proof.
  intros Hnow E1 E3 Hx.
  destruct (set_locs cfg now key d t c Hnow) as (Hh & H1 & _ & H3).
  specialize (H1 E1). specialize (H3 E3).
  set (c' := set cfg now key d t c) in *. clearbody c'.
  set (e := Entry d now (or_num t (cfg_ttl (l1 cfg))) 0) in *.
  assert (Hl : heap c' !! List.length (heap c) = Some e).
  { rewrite Hh. by apply list_lookup_middle. }
  unfold get. rewrite E1.
  rewrite (_getFromL1_fresh now' key c' _ e H1 Hl Hx). simpl.
  unfold entry_of. rewrite H3. simpl.
  destruct (bump_lookup _ _ _ Hl) as [Hb _].
  split_and!; [| | done].
  - exact (f_equal (fmap accessCount) Hl).
  - exact (f_equal (fmap accessCount) Hb).
Qed.

Lemma l1_hit_counts_in_l3_witness :
  1700000000000 <> 0 /\ enabled (l1 productionConfig) = true /\
  enabled (l3 productionConfig) = true /\
  _isExpired 1700000030000
    (Entry (DPlain "body") 1700000000000
       (or_num None (cfg_ttl (l1 productionConfig))) 0) = false /\
  (accessCount <$>
     entry_of
       (heap (set productionConfig 1700000000000 "rankings" (DPlain "body")
                None empty))
       (l3Cache (set productionConfig 1700000000000 "rankings"
                   (DPlain "body") None empty)) "rankings" = Some 0
   /\ accessCount <$>
        entry_of
          (heap (get productionConfig 1700000030000 "rankings"
                   (set productionConfig 1700000000000 "rankings"
                      (DPlain "body") None empty)).2)
          (l3Cache (get productionConfig 1700000030000 "rankings"
                      (set productionConfig 1700000000000 "rankings"
                         (DPlain "body") None empty)).2) "rankings"
      = Some 1
   /\ l3Stats (get productionConfig 1700000030000 "rankings"
                 (set productionConfig 1700000000000 "rankings"
                    (DPlain "body") None empty)).2
      = l3Stats (set productionConfig 1700000000000 "rankings"
                   (DPlain "body") None empty)).
Proof.
  assert (H1 : 1700000000000 <> 0) by lia.
  assert (H2 : enabled (l1 productionConfig) = true) by reflexivity.
  assert (H3 : enabled (l3 productionConfig) = true) by reflexivity.
  assert (H4 : _isExpired 1700000030000
                 (Entry (DPlain "body") 1700000000000
                    (or_num None (cfg_ttl (l1 productionConfig))) 0)
               = false) by reflexivity.
  repeat (split; [assumption|]).
  exact (l1_hit_counts_in_l3 productionConfig 1700000000000 1700000030000
           "rankings" (DPlain "body") None empty H1 H2 H3 H4).
Defined.

(** *** [delete] *)

(** X10.  [delete] reports whether some level held the key; afterwards no
    level holds it, and every other key is mapped as before. *)
Theorem delete_removes (key : string) (c : cache) :
  nodup_levels c ->
  (delete key c).1 = cached key c
  /\ cached key (delete key c).2 = false
  /\ forall k, k <> key ->
       assoc_get k (l1Cache (delete key c).2) = assoc_get k (l1Cache c)
       /\ assoc_get k (l2Cache (delete key c).2) = assoc_get k (l2Cache c)
       /\ assoc_get k (l3Cache (delete key c).2) = assoc_get k (l3Cache c).
Proof.
  intros (N1 & N2 & N3). unfold delete, cached. simpl.
  split_and!; [done | | ].
  - by rewrite !assoc_has_delete_eq.
  - intros k Hk. by rewrite !assoc_get_delete_ne.
Qed.

Lemma delete_removes_witness :
  nodup_levels fullL1 /\
  ((delete "rankings:tour:PGA" fullL1).1 = cached "rankings:tour:PGA" fullL1
   /\ cached "rankings:tour:PGA" (delete "rankings:tour:PGA" fullL1).2
      = false
   /\ forall k, k <> "rankings:tour:PGA" ->
        assoc_get k (l1Cache (delete "rankings:tour:PGA" fullL1).2)
        = assoc_get k (l1Cache fullL1)
        /\ assoc_get k (l2Cache (delete "rankings:tour:PGA" fullL1).2)
           = assoc_get k (l2Cache fullL1)
        /\ assoc_get k (l3Cache (delete "rankings:tour:PGA" fullL1).2)
           = assoc_get k (l3Cache fullL1)).
Proof.
  assert (H0 : nodup_levels fullL1).
  { repeat split; vm_compute; repeat constructor;
      rewrite ?elem_of_cons, ?elem_of_nil; intros H; intuition discriminate. }
  split; [assumption|].
  exact (delete_removes "rankings:tour:PGA" fullL1 H0).
Defined.

(** *** Capacity *)

Lemma truthy_str_ne (k : string) : truthy_str k = true <-> k <> "".
Proof. destruct k; simpl; split; done. Qed.

Section Assoc_elems.
Context {V : Type}.
Implicit Types (m : list (string * V)) (k : string) (v : V).

Lemma elem_of_assoc_delete_pair m k (p : string * V) :
  p ∈ assoc_delete k m -> p ∈ m.
Proof.
  induction m as [|[k0 v0] m IH]; simpl; [done|].
  destruct (String.eqb k k0).
  - intros ?. apply elem_of_cons. by right.
  - intros [-> | ?]%elem_of_cons; apply elem_of_cons; auto.
Qed.

Lemma elem_of_assoc_set_pair m k v (p : string * V) :
  p ∈ assoc_set k v m -> p = (k, v) \/ p ∈ m.
Proof.
  induction m as [|[k0 v0] m IH]; simpl.
  - intros ->%list_elem_of_singleton. by left.
  - destruct (String.eqb_spec k k0) as [-> | Hne].
    + intros [-> | ?]%elem_of_cons; [by left|].
      right. apply elem_of_cons. by right.
    + intros [-> | H]%elem_of_cons.
      * right. apply elem_of_cons. by left.
      * destruct (IH H) as [? | ?]; [by left|].
        right. apply elem_of_cons. by right.
Qed.

Lemma assoc_has_head m k v : assoc_has k ((k, v) :: m) = true.
Proof. unfold assoc_has. simpl. by rewrite String.eqb_refl. Qed.

Lemma assoc_has_delete m k k' :
  NoDup (m.*1) ->
  assoc_has k' (assoc_delete k m)
  = if String.eqb k' k then false else assoc_has k' m.
Proof.
  intros Hnd. destruct (String.eqb_spec k' k) as [-> | Hne].
  - by apply assoc_has_delete_eq.
  - by apply assoc_has_delete_ne.
Qed.

Lemma assoc_has_delete_false m k k' :
  assoc_has k' m = false -> assoc_has k' (assoc_delete k m) = false.
Proof.
  rewrite !assoc_has_false. intros Hout Hin.
  by apply Hout, (elem_of_assoc_delete m k).
Qed.

Lemma size_assoc_delete m k :
  assoc_has k m = true -> size (assoc_delete k m) = size m - 1.
Proof.
  intros H. apply length_assoc_delete in H. unfold size. lia.
Qed.

Lemma size_assoc_delete_le m k : size (assoc_delete k m) <= size m.
Proof. unfold size. pose proof (length_assoc_delete_le m k). lia. Qed.

Lemma size_assoc_set_le m k v : size (assoc_set k v m) <= size m + 1.
Proof. unfold size. pose proof (length_assoc_set_le m k v). lia. Qed.
End Assoc_elems.

Lemma within_delete {V} lv (m : list (string * V)) k :
  within lv m -> within lv (assoc_delete k m).
Proof.
  intros H n Hn. pose proof (size_assoc_delete_le m k). specialize (H n Hn).
  lia.
Qed.

(** The heap never shrinks, and the entry that a level stores is one of
    its objects. *)
Lemma as_entry_heap now d t h :
  ((as_entry now d t h).1 < List.length (as_entry now d t h).2)%nat
  /\ (List.length h <= List.length (as_entry now d t h).2)%nat.
Proof.
  assert (Hfresh : (List.length h
                    < List.length (h ++ [Entry d now t 0])%list)%nat
                   /\ (List.length h
                       <= List.length (h ++ [Entry d now t 0])%list)%nat).
  { rewrite length_app. simpl. lia. }
  unfold as_entry. destruct d as [b | l]; [done|].
  destruct (h !! l) as [e|] eqn:El; [|done].
  destruct (timestamp e =? 0); [done|]. simpl.
  apply lookup_lt_Some in El. lia.
Qed.

Lemma bump_length l h : List.length (bump l h) = List.length h.
Proof. unfold bump. destruct (h !! l); [apply length_insert | done]. Qed.

(** **** Level 2 *)

Lemma _evictFromL2_room cfg c :
  roomy (l2 cfg) -> l2_ok cfg c ->
  let c1 := if at_capacity (l2Cache c) (l2 cfg) then _evictFromL2 c else c in
  assoc_has "" (l2Cache c1) = false
  /\ (forall n, maxSize (l2 cfg) = Some n -> size (l2Cache c1) <= n - 1)
  /\ heap c1 = heap c /\ l1Cache c1 = l1Cache c
  /\ l1AccessOrder c1 = l1AccessOrder c /\ l3Cache c1 = l3Cache c.
Proof.
  intros Hroom [Hno Hin]. unfold at_capacity.
  destruct (maxSize (l2 cfg)) as [n|] eqn:En; simpl; [|done].
  destruct (Z.leb_spec n (size (l2Cache c))) as [Hle | Hlt].
  - specialize (Hroom n En). specialize (Hin n En).
    unfold _evictFromL2.
    destruct (l2Cache c) as [|[k v] m] eqn:Em.
    { unfold size in Hle. simpl in Hle. lia. }
    simpl. assert (Hk : k <> "").
    { intros ->. by rewrite assoc_has_head in Hno. }
    apply truthy_str_ne in Hk as Ht. rewrite Ht. simpl.
    rewrite String.eqb_refl. split_and!; try done.
    + unfold assoc_has in *. simpl in Hno. by destruct k.
    + intros ? [= <-]. unfold size in *. simpl in Hin. lia.
  - split_and!; try done. intros ? [= <-]. lia.
Qed.

Lemma _setToL2_inv cfg now key d t c :
  roomy (l2 cfg) -> key <> "" -> inv cfg c ->
  inv cfg (_setToL2 cfg now key d t c).
Proof.
  intros Hroom Hkey (H1 & H2 & H3).
  pose proof (_evictFromL2_room cfg c Hroom H2)
    as (Hno & Hsz & Hh & Hm1 & Ho1 & Hm3).
  unfold _setToL2.
  set (c1 := if at_capacity (l2Cache c) (l2 cfg) then _ else _) in *.
  clearbody c1.
  pose proof (as_entry_heap now d t (heap c1)) as [_ Hlen].
  destruct (as_entry now d t (heap c1)) as [l h]. simpl in Hlen.
  split_and!.
  - unfold l1_ok. simpl. rewrite Hm1, Ho1. exact H1.
  - split; simpl.
    + rewrite assoc_has_set, Hno.
      by destruct (String.eqb_spec "" key) as [<- | _].
    + intros n Hn. specialize (Hsz n Hn).
      pose proof (size_assoc_set_le (l2Cache c1) key l). lia.
  - destruct H3 as (H3a & H3b & H3c). unfold l3_ok. simpl.
    rewrite Hm3. split_and!; [done | | done].
    intros k l' Hin. specialize (H3b k l' Hin). rewrite Hh in Hlen. lia.
Qed.

Lemma _getFromL2_inv cfg now key c :
  inv cfg c -> inv cfg (_getFromL2 now key c).2.
Proof.
  intros (H1 & H2 & H3). unfold _getFromL2.
  destruct (assoc_get key (l2Cache c)) as [l|]; [|done].
  destruct (heap c !! l) as [e|]; [|done].
  destruct (_isExpired now e); simpl.
  - split_and!; [done | | done]. destruct H2 as [Hno Hin]. split; simpl.
    + by apply assoc_has_delete_false.
    + by apply within_delete.
  - split_and!; [done | done |].
    destruct H3 as (H3a & H3b & H3c). unfold l3_ok. simpl.
    rewrite bump_length. done.
Qed.

(** Without the guard on the key, the level grows past its [maxSize]:
    the empty key is the first of level 2, [_evictFromL2] takes it for
    the absence of a key and evicts nothing. *)
Example empty_key_defeats_eviction :
  size (l2Cache (set tinyL2 2000 "rankings" (DPlain "B") None
                   (set tinyL2 1000 "" (DPlain "A") None empty))) = 2.
Proof. reflexivity. Qed.

(** **** Level 1 *)

Lemma _evictFromL1_room cfg c :
  roomy (l1 cfg) -> l1_ok cfg c ->
  let c1 := if at_capacity (l1Cache c) (l1 cfg) then _evictFromL1 c else c in
  NoDup (keys (l1Cache c1)) /\ NoDup (keys (l1AccessOrder c1))
  /\ (forall k, assoc_has k (l1AccessOrder c1) = assoc_has k (l1Cache c1))
  /\ assoc_has "" (l1Cache c1) = false
  /\ (forall n, maxSize (l1 cfg) = Some n -> size (l1Cache c1) <= n - 1)
  /\ heap c1 = heap c /\ l2Cache c1 = l2Cache c /\ l3Cache c1 = l3Cache c.
Proof.
  intros Hroom (N1 & N2 & Hs & Hno & Hin). unfold at_capacity.
  destruct (maxSize (l1 cfg)) as [n|] eqn:En; simpl; [|done].
  destruct (Z.leb_spec n (size (l1Cache c))) as [Hle | Hlt].
  - specialize (Hroom n En). specialize (Hin n En).
    assert (Hne : exists ko, first_key (l1AccessOrder c) = Some ko
                             /\ assoc_has ko (l1AccessOrder c) = true).
    { destruct (l1Cache c) as [|[k0 v0] m] eqn:Em.
      { unfold size in Hle. simpl in Hle. lia. }
      specialize (Hs k0). rewrite assoc_has_head in Hs.
      destruct (l1AccessOrder c) as [|[ko vo] mo]; [done|].
      exists ko. split; [done | apply assoc_has_head]. }
    destruct Hne as (ko & Hf & Hko).
    assert (Hk1 : assoc_has ko (l1Cache c) = true) by by rewrite <- Hs.
    assert (Hk : ko <> "") by (intros ->; congruence).
    apply truthy_str_ne in Hk as Ht.
    unfold _evictFromL1. rewrite Hf, Ht. simpl.
    split_and!; try done.
    + by apply NoDup_assoc_delete.
    + by apply NoDup_assoc_delete.
    + intros k. rewrite !assoc_has_delete by done. by rewrite Hs.
    + by apply assoc_has_delete_false.
    + intros ? [= <-]. rewrite size_assoc_delete by done. lia.
  - split_and!; try done. intros ? [= <-]. lia.
Qed.

Lemma _setToL1_inv cfg now key d t c :
  roomy (l1 cfg) -> key <> "" -> inv cfg c ->
  inv cfg (_setToL1 cfg now key d t c).
Proof.
  intros Hroom Hkey (H1 & H2 & H3).
  pose proof (_evictFromL1_room cfg c Hroom H1)
    as (N1 & N2 & Hs & Hno & Hsz & Hh & Hm2 & Hm3).
  unfold _setToL1.
  set (c1 := if at_capacity (l1Cache c) (l1 cfg) then _ else _) in *.
  clearbody c1.
  pose proof (as_entry_heap now d t (heap c1)) as [_ Hlen].
  destruct (as_entry now d t (heap c1)) as [l h]. simpl in Hlen.
  set (c2 := set_l1 _ _ _).
  assert (Hinv : inv cfg c2).
  { split_and!.
    - unfold l1_ok, c2. simpl. split_and!.
      + by apply NoDup_assoc_set.
      + by apply NoDup_assoc_set.
      + intros k. by rewrite !assoc_has_set, Hs.
      + rewrite assoc_has_set, Hno.
        by destruct (String.eqb_spec "" key) as [<- | _].
      + intros n Hn. specialize (Hsz n Hn).
        pose proof (size_assoc_set_le (l1Cache c1) key l). lia.
    - unfold l2_ok, c2. simpl. rewrite Hm2. exact H2.
    - destruct H3 as (H3a & H3b & H3c). unfold l3_ok, c2. simpl.
      rewrite Hm3. split_and!; [done | | done].
      intros k l' Hin. specialize (H3b k l' Hin). rewrite Hh in Hlen. lia. }
  clearbody c2.
  destruct t as [z|]; [destruct (z =? 0)|]; done.
Qed.

Lemma _getFromL1_inv cfg now key c :
  inv cfg c -> inv cfg (_getFromL1 now key c).2.
Proof.
  intros (H1 & H2 & H3). unfold _getFromL1.
  destruct (assoc_get key (l1Cache c)) as [l|] eqn:Ek; [|done].
  destruct (heap c !! l) as [e|]; [|done].
  destruct H1 as (N1 & N2 & Hs & Hno & Hin).
  destruct (_isExpired now e); simpl.
  - split_and!; [| done | done]. unfold l1_ok. simpl. split_and!.
    + by apply NoDup_assoc_delete.
    + by apply NoDup_assoc_delete.
    + intros k. rewrite !assoc_has_delete by done. by rewrite Hs.
    + by apply assoc_has_delete_false.
    + by apply within_delete.
  - split_and!; [| done |].
    + unfold l1_ok. simpl. split_and!; try done.
      * by apply NoDup_assoc_set, NoDup_assoc_delete.
      * intros k. rewrite assoc_has_set, assoc_has_delete by done.
        destruct (String.eqb_spec k key) as [-> | Hne]; [|apply Hs].
        unfold assoc_has. by rewrite Ek.
    + destruct H3 as (H3a & H3b & H3c). unfold l3_ok. simpl.
      rewrite bump_length. done.
Qed.

(** **** Level 3 *)

Lemma leastUsed_some h (m : list (string * loc)) best :
  (forall k l, (k, l) ∈ m -> (l < List.length h)%nat) ->
  m <> [] \/ is_Some best ->
  exists k n, leastUsed h m best = Some (k, n)
              /\ (k ∈ m.*1 \/ best = Some (k, n)).
Proof.
  revert best.
  induction m as [|[k0 l0] m IH]; intros best Hv Hne; cbn [leastUsed].
  - destruct Hne as [? | [[k n] ->]]; [done|]. exists k, n. auto.
  - assert (Hv' : forall k l, (k, l) ∈ m -> (l < List.length h)%nat).
    { intros k l Hin. apply (Hv k l), elem_of_cons. by right. }
    assert (Hl0 : (l0 < List.length h)%nat).
    { apply (Hv k0 l0), elem_of_cons. by left. }
    apply lookup_lt_is_Some in Hl0 as [e0 He0].
    destruct (h !! l0) as [e|] eqn:He;
      [|by pose proof (eq_trans (eq_sym He) He0)].
    assert (Hnew : exists k n,
               leastUsed h m (Some (k0, accessCount e)) = Some (k, n)
               /\ (k ∈ k0 :: m.*1 \/ best = Some (k, n))).
    { destruct (IH (Some (k0, accessCount e)) Hv') as (k & n & Hk & Hin);
        [by right|].
      exists k, n. split; [done|]. left.
      destruct Hin as [? | [= <- <-]]; apply elem_of_cons; auto. }
    destruct best as [[kb nb]|]; [|done].
    destruct (accessCount e <? nb); [done|].
    destruct (IH (Some (kb, nb)) Hv') as (k & n & Hk & Hin); [by right|].
    exists k, n. split; [done|].
    destruct Hin as [? | ?]; [left; apply elem_of_cons|]; auto.
Qed.

Lemma _evictFromL3_room cfg c :
  roomy (l3 cfg) -> l3_ok cfg c ->
  let c1 := if at_capacity (l3Cache c) (l3 cfg) then _evictFromL3 c else c in
  assoc_has "" (l3Cache c1) = false
  /\ (forall k l, (k, l) ∈ l3Cache c1 -> (l < List.length (heap c1))%nat)
  /\ (forall n, maxSize (l3 cfg) = Some n -> size (l3Cache c1) <= n - 1)
  /\ heap c1 = heap c /\ l1Cache c1 = l1Cache c
  /\ l1AccessOrder c1 = l1AccessOrder c /\ l2Cache c1 = l2Cache c.
Proof.
  intros Hroom (Hno & Hv & Hin). unfold at_capacity.
  destruct (maxSize (l3 cfg)) as [n|] eqn:En; simpl; [|done].
  destruct (Z.leb_spec n (size (l3Cache c))) as [Hle | Hlt].
  - specialize (Hroom n En). specialize (Hin n En).
    assert (Hne : l3Cache c <> []).
    { intros E. rewrite E in Hle. unfold size in Hle. simpl in Hle. lia. }
    destruct (leastUsed_some (heap c) (l3Cache c) None Hv (or_introl Hne))
      as (k & cnt & Hk & [Hin1 | ?]); [|done].
    apply assoc_has_elem in Hin1.
    assert (Hk0 : k <> "") by (intros ->; congruence).
    apply truthy_str_ne in Hk0 as Ht.
    unfold _evictFromL3. rewrite Hk, Ht. simpl.
    split_and!; try done.
    + by apply assoc_has_delete_false.
    + intros k' l' Hin'. apply (Hv k' l').
      by apply (elem_of_assoc_delete_pair _ k).
    + intros ? [= <-]. rewrite size_assoc_delete by done. lia.
  - split_and!; try done. intros ? [= <-]. lia.
Qed.

Lemma _setToL3_inv cfg now key d t c :
  roomy (l3 cfg) -> key <> "" -> inv cfg c ->
  inv cfg (_setToL3 cfg now key d t c).
Proof.
  intros Hroom Hkey (H1 & H2 & H3).
  pose proof (_evictFromL3_room cfg c Hroom H3)
    as (Hno & Hv & Hsz & Hh & Hm1 & Ho1 & Hm2).
  unfold _setToL3.
  set (c1 := if at_capacity (l3Cache c) (l3 cfg) then _ else _) in *.
  clearbody c1.
  pose proof (as_entry_heap now d t (heap c1)) as [Hl Hlen].
  destruct (as_entry now d t (heap c1)) as [l h]. simpl in Hl, Hlen.
  split_and!.
  - unfold l1_ok. simpl. rewrite Hm1, Ho1. exact H1.
  - unfold l2_ok. simpl. rewrite Hm2. exact H2.
  - unfold l3_ok. simpl. split_and!.
    + rewrite assoc_has_set, Hno.
      by destruct (String.eqb_spec "" key) as [<- | _].
    + intros k l' [[= -> ->] | Hin]%elem_of_assoc_set_pair; [done|].
      specialize (Hv k l' Hin). lia.
    + intros n Hn. specialize (Hsz n Hn).
      pose proof (size_assoc_set_le (l3Cache c1) key l). lia.
Qed.

Lemma _getFromL3_inv cfg now key c :
  inv cfg c -> inv cfg (_getFromL3 now key c).2.
Proof.
  intros (H1 & H2 & H3). unfold _getFromL3.
  destruct (assoc_get key (l3Cache c)) as [l|]; [|done].
  destruct (heap c !! l) as [e|]; [|done].
  destruct H3 as (Hno & Hv & Hin).
  destruct (_isExpired now e); simpl.
  - split_and!; [done | done |]. split_and!; simpl.
    + by apply assoc_has_delete_false.
    + intros k' l' Hin'. apply (Hv k' l').
      by apply (elem_of_assoc_delete_pair _ key).
    + by apply within_delete.
  - split_and!; [done | done |]. unfold l3_ok. simpl.
    rewrite bump_length. done.
Qed.

(** **** The public operations *)

Lemma get_inv cfg now key c :
  roomy (l1 cfg) -> roomy (l2 cfg) -> key <> "" ->
  inv cfg c -> inv cfg (get cfg now key c).2.
Proof.
  intros R1 R2 Hkey Hinv. unfold get.
  assert (I1 : inv cfg
                 (if enabled (l1 cfg) then _getFromL1 now key c
                  else (None, c)).2).
  { destruct (enabled (l1 cfg)); [by apply _getFromL1_inv | done]. }
  destruct (if enabled (l1 cfg) then _getFromL1 now key c else (None, c))
    as [r1 c1]. simpl in I1.
  destruct r1 as [d1|]; [done|].
  assert (I2 : inv cfg
                 (if enabled (l2 cfg) then _getFromL2 now key c1
                  else (None, c1)).2).
  { destruct (enabled (l2 cfg)); [by apply _getFromL2_inv | done]. }
  destruct (if enabled (l2 cfg) then _getFromL2 now key c1 else (None, c1))
    as [r2 c2]. simpl in I2.
  destruct r2 as [d2|]; simpl.
  { destruct (enabled (l1 cfg)); [by apply _setToL1_inv | done]. }
  assert (I3 : inv cfg
                 (if enabled (l3 cfg) then _getFromL3 now key c2
                  else (None, c2)).2).
  { destruct (enabled (l3 cfg)); [by apply _getFromL3_inv | done]. }
  destruct (if enabled (l3 cfg) then _getFromL3 now key c2 else (None, c2))
    as [r3 c3]. simpl in I3.
  destruct r3 as [d3|]; simpl; [|done].
  assert (I4 : inv cfg
                 (if enabled (l2 cfg)
                  then _setToL2 cfg now key d3 (cfg_ttl (l2 cfg)) c3
                  else c3)).
  { destruct (enabled (l2 cfg)); [by apply _setToL2_inv | done]. }
  destruct (enabled (l1 cfg)); [by apply _setToL1_inv | done].
Qed.

Lemma set_inv cfg now key d t c :
  roomy (l1 cfg) -> roomy (l2 cfg) -> roomy (l3 cfg) -> key <> "" ->
  inv cfg c -> inv cfg (set cfg now key d t c).
Proof.
  intros R1 R2 R3 Hkey (H1 & H2 & H3). unfold set.
  set (c0 := set_heap c _).
  assert (I0 : inv cfg c0).
  { split_and!; [done | done |].
    destruct H3 as (Hno & Hv & Hin). split_and!; [done | | done].
    intros k l Hkl. specialize (Hv k l Hkl). unfold c0. simpl.
    rewrite length_app. lia. }
  clearbody c0.
  set (c1 := if enabled (l1 cfg) then _ else c0).
  assert (I1 : inv cfg c1).
  { unfold c1. destruct (enabled (l1 cfg)); [by apply _setToL1_inv | done]. }
  clearbody c1.
  set (c2 := if enabled (l2 cfg) then _ else c1).
  assert (I2 : inv cfg c2).
  { unfold c2. destruct (enabled (l2 cfg)); [by apply _setToL2_inv | done]. }
  clearbody c2.
  destruct (enabled (l3 cfg)); [by apply _setToL3_inv | done].
Qed.

Lemma delete_inv cfg key c : inv cfg c -> inv cfg (delete key c).2.
Proof.
  intros ((N1 & N2 & Hs & Hno1 & Hin1) & (Hno2 & Hin2) & (Hno3 & Hv & Hin3)).
  unfold delete. split_and!; simpl.
  - unfold l1_ok. simpl. split_and!.
    + by apply NoDup_assoc_delete.
    + by apply NoDup_assoc_delete.
    + intros k. rewrite !assoc_has_delete by done. by rewrite Hs.
    + by apply assoc_has_delete_false.
    + by apply within_delete.
  - split; simpl; [by apply assoc_has_delete_false | by apply within_delete].
  - split_and!; simpl.
    + by apply assoc_has_delete_false.
    + intros k' l' Hin'. apply (Hv k' l').
      by apply (elem_of_assoc_delete_pair _ key).
    + by apply within_delete.
Qed.

Lemma run_inv cfg ops c :
  roomy (l1 cfg) -> roomy (l2 cfg) -> roomy (l3 cfg) ->
  Forall (fun o => op_key o.2 <> "") ops ->
  inv cfg c -> inv cfg (run cfg ops c).
Proof.
  intros R1 R2 R3 Hops. revert c.
  induction Hops as [|[now o] ops Hk _ IH]; intros c Hinv; simpl; [done|].
  apply IH. simpl in Hk. destruct o as [key | key d t | key]; simpl in *.
  - by apply get_inv.
  - by apply set_inv.
  - by apply delete_inv.
Qed.

Lemma empty_inv cfg :
  roomy (l1 cfg) -> roomy (l2 cfg) -> roomy (l3 cfg) -> inv cfg empty.
Proof.
  intros R1 R2 R3.
  assert (W : forall lv, roomy lv -> within lv (@nil (string * loc))).
  { intros lv R n Hn. specialize (R n Hn). unfold size. simpl. lia. }
  unfold inv, l1_ok, l2_ok, l3_ok. simpl.
  split_and!; try done; try apply NoDup_nil_2; try by apply W.
  intros k l Hin. by apply elem_of_nil in Hin.
Qed.

(** X11.  No run of [get], [set] and [delete] calls with non-empty keys
    makes a level exceed its [maxSize] (when that is one at least):
    starting from the cache that the constructor builds, every level
    holds at most [maxSize] entries after every call. *)
Theorem levels_stay_within_capacity (cfg : cacheConfig)
    (ops : list (Z * op)) :
  roomy (l1 cfg) -> roomy (l2 cfg) -> roomy (l3 cfg) ->
  Forall (fun o => op_key o.2 <> "") ops ->
  within (l1 cfg) (l1Cache (run cfg ops empty))
  /\ within (l2 cfg) (l2Cache (run cfg ops empty))
  /\ within (l3 cfg) (l3Cache (run cfg ops empty)).
Proof.
  intros R1 R2 R3 Hops.
  destruct (run_inv cfg ops empty R1 R2 R3 Hops (empty_inv cfg R1 R2 R3))
    as ((_ & _ & _ & _ & W1) & (_ & W2) & (_ & _ & W3)).
  done.
Qed.

Lemma levels_stay_within_capacity_witness :
  roomy (l1 smallConfig) /\ roomy (l2 smallConfig) /\ roomy (l3 smallConfig)
  /\ Forall (fun o => op_key o.2 <> "") sampleOps
  /\ (within (l1 smallConfig) (l1Cache (run smallConfig sampleOps empty))
      /\ within (l2 smallConfig) (l2Cache (run smallConfig sampleOps empty))
      /\ within (l3 smallConfig)
           (l3Cache (run smallConfig sampleOps empty))).
Proof.
  assert (R1 : roomy (l1 smallConfig)) by (intros n [= <-]; lia).
  assert (R2 : roomy (l2 smallConfig)) by (intros n [=]).
  assert (R3 : roomy (l3 smallConfig)) by (intros n [=]).
  assert (Hk : Forall (fun o => op_key o.2 <> "") sampleOps)
    by (repeat constructor; discriminate).
  do 4 (split; [assumption|]).
  exact (levels_stay_within_capacity smallConfig sampleOps R1 R2 R3 Hk).
Defined.

(** In the run of the sample the third [set] finds level 1 full and
    evicts the rankings, read less recently than the tournaments; the
    field entry is deleted afterwards. *)
Example sampleOps_l1 :
  keys (l1Cache (run smallConfig sampleOps empty))
  = ["tournament:season:2024"]
  /\ evictions (l1Stats (run smallConfig sampleOps empty)) = 1.
Proof. split; reflexivity. Qed.

(** *** Eviction from level 3 *)

Lemma leastUsed_min h (m : list (string * loc)) best k n :
  leastUsed h m best = Some (k, n) ->
  (forall kb nb, best = Some (kb, nb) -> n <= nb)
  /\ (forall k' (l' : loc) e',
        (k', l') ∈ m -> h !! l' = Some e' -> n <= accessCount e')
  /\ (best = Some (k, n)
      \/ exists (l : loc) e,
           (k, l) ∈ m /\ h !! l = Some e /\ accessCount e = n).
Proof.
  revert best.
  induction m as [|[k0 l0] m IH]; intros best; cbn [leastUsed].
  - intros ->. split_and!; [by intros ? ? [= _ <-] | | by left].
    intros k' l' e' Hin. by apply elem_of_nil in Hin.
  - destruct (h !! l0) as [e|] eqn:He.
    + assert (Hnew : leastUsed h m (Some (k0, accessCount e)) = Some (k, n)
                     -> n <= accessCount e
                        /\ (forall k' (l' : loc) e',
                              (k', l') ∈ (k0, l0) :: m -> h !! l' = Some e'
                              -> n <= accessCount e')
                        /\ exists (l : loc) e1,
                             (k, l) ∈ (k0, l0) :: m /\ h !! l = Some e1
                             /\ accessCount e1 = n).
      { intros H. destruct (IH _ H) as (Hb & Hall & Hex).
        specialize (Hb k0 (accessCount e) eq_refl). split_and!; [done | |].
        - intros k' l' e' [[= -> ->] | Hin]%elem_of_cons He'.
          + rewrite He in He'. by injection He' as <-.
          + eauto.
        - destruct Hex as [[= <- <-] | (l & e1 & Hin & Hl & Hn)].
          + exists l0, e. split_and!; [apply elem_of_cons; by left | done..].
          + exists l, e1. split_and!; [apply elem_of_cons; by right | done..].
      }
      destruct best as [[kb nb]|].
      * destruct (Z.ltb_spec (accessCount e) nb) as [Hlt | Hge].
        -- intros H. destruct (Hnew H) as (Hle & Hall & Hex).
           split_and!; [intros ? ? [= _ <-]; lia | done | by right].
        -- intros H. destruct (IH _ H) as (Hb & Hall & Hex).
           specialize (Hb kb nb eq_refl). split_and!.
           ++ by intros ? ? [= _ <-].
           ++ intros k' l' e' [[= -> ->] | Hin]%elem_of_cons He'.
              ** rewrite He in He'. injection He' as <-. lia.
              ** eauto.
           ++ destruct Hex as [? | (l & e1 & Hin & Hl & Hn)]; [by left|].
              right. exists l, e1.
              split_and!; [apply elem_of_cons; by right | done..].
      * intros H. destruct (Hnew H) as (Hle & Hall & Hex).
        split_and!; [done | done | by right].
    + intros H. destruct (IH _ H) as (Hb & Hall & Hex).
      split_and!; [done | |].
      * intros k' l' e' [[= -> ->] | Hin]%elem_of_cons He'.
        -- rewrite He in He'. done.
        -- eauto.
      * destruct Hex as [? | (l & e1 & Hin & Hl & Hn)]; [by left|].
        right. exists l, e1.
        split_and!; [apply elem_of_cons; by right | done..].
Qed.

(** X12.  [_evictFromL3] removes an entry whose access count is the least
    of level 3: no entry of the level has been read fewer times than the
    evicted one, and the level loses that key and nothing else. *)
Theorem _evictFromL3_least_used (c : cache) :
  NoDup (keys (l3Cache c)) ->
  assoc_has "" (l3Cache c) = false ->
  l3Cache c <> [] ->
  (forall k l, (k, l) ∈ l3Cache c -> (l < List.length (heap c))%nat) ->
  exists k e,
    entry_of (heap c) (l3Cache c) k = Some e
    /\ (forall k' e', entry_of (heap c) (l3Cache c) k' = Some e'
                      -> accessCount e <= accessCount e')
    /\ l3Cache (_evictFromL3 c) = assoc_delete k (l3Cache c)
    /\ assoc_has k (l3Cache (_evictFromL3 c)) = false
    /\ size (l3Cache (_evictFromL3 c)) = size (l3Cache c) - 1
    /\ evictions (l3Stats (_evictFromL3 c)) = evictions (l3Stats c) + 1.
Proof.
  intros Hnd Hno Hne Hv.
  destruct (leastUsed_some (heap c) (l3Cache c) None Hv (or_introl Hne))
    as (k & n & Hk & [Hin | ?]); [|done].
  destruct (leastUsed_min _ _ _ _ _ Hk) as (_ & Hall & [? | Hex]); [done|].
  destruct Hex as (l & e & Hkl & Hl & Hn).
  apply assoc_has_elem in Hin as Hhas.
  assert (Hk0 : k <> "") by (intros ->; congruence).
  apply truthy_str_ne in Hk0 as Ht.
  exists k, e. unfold _evictFromL3. rewrite Hk, Ht. simpl.
  split_and!; try done.
  - unfold entry_of. rewrite (assoc_get_Some _ _ l) by done. exact Hl.
  - intros k' e'. unfold entry_of.
    destruct (assoc_get k' (l3Cache c)) as [l'|] eqn:Ek'; [|done].
    simpl. intros He'. apply assoc_get_elem in Ek'.
    specialize (Hall k' l' e' Ek' He'). lia.
  - by apply assoc_has_delete_eq.
  - by apply size_assoc_delete.
Qed.

Lemma _evictFromL3_least_used_witness :
  NoDup (keys (l3Cache readTwice)) /\
  assoc_has "" (l3Cache readTwice) = false /\
  l3Cache readTwice <> [] /\
  (forall k l, (k, l) ∈ l3Cache readTwice
               -> (l < List.length (heap readTwice))%nat) /\
  exists k e,
    entry_of (heap readTwice) (l3Cache readTwice) k = Some e
    /\ (forall k' e', entry_of (heap readTwice) (l3Cache readTwice) k'
                      = Some e'
                      -> accessCount e <= accessCount e')
    /\ l3Cache (_evictFromL3 readTwice) = assoc_delete k (l3Cache readTwice)
    /\ assoc_has k (l3Cache (_evictFromL3 readTwice)) = false
    /\ size (l3Cache (_evictFromL3 readTwice))
       = size (l3Cache readTwice) - 1
    /\ evictions (l3Stats (_evictFromL3 readTwice))
       = evictions (l3Stats readTwice) + 1.
Proof.
  assert (H1 : NoDup (keys (l3Cache readTwice))).
  { vm_compute. repeat constructor;
      rewrite ?elem_of_cons, ?elem_of_nil; intros H; intuition discriminate. }
  assert (H2 : assoc_has "" (l3Cache readTwice) = false) by reflexivity.
  assert (H3 : l3Cache readTwice <> []) by (vm_compute; discriminate).
  assert (H4 : forall k l, (k, l) ∈ l3Cache readTwice
                           -> (l < List.length (heap readTwice))%nat).
  { intros k l. vm_compute l3Cache. vm_compute heap.
    rewrite !elem_of_cons, elem_of_nil. simpl.
    intros [[= _ ->] | [[= _ ->] | []]]; lia. }
  repeat (split; [assumption|]).
  exact (_evictFromL3_least_used readTwice H1 H2 H3 H4).
Defined.

(** In the sample the rankings were read once through level 1 and the
    tournaments never: the tournaments go. *)
Example readTwice_evicts :
  keys (l3Cache (_evictFromL3 readTwice)) = ["rankings:tour:PGA"].
Proof. reflexivity. Qed.

(** *** The periodic sweep *)

Lemma assoc_delete_app_head {V} (pre rest : list (string * V)) k v :
  k ∉ pre.*1 -> assoc_delete k (pre ++ (k, v) :: rest) = (pre ++ rest)%list.
Proof.
  induction pre as [|[k0 v0] pre IH]; simpl.
  - intros _. by rewrite String.eqb_refl.
  - intros [Hne Hout]%not_elem_of_cons.
    destruct (String.eqb_spec k k0) as [-> | _]; [done|].
    f_equal. auto.
Qed.

Section Sweep.
Variables (now : Z) (drop : string -> cache -> cache).
Variable proj : cache -> list (string * loc).
Hypothesis drop_proj : forall k c, proj (drop k c) = assoc_delete k (proj c).
Hypothesis drop_heap : forall k c, heap (drop k c) = heap c.

Lemma sweep_frame {A} (q : cache -> A) todo acc :
  (forall k c, q (drop k c) = q c) ->
  q (sweep now drop todo acc).2 = q acc.2.
Proof.
  intros Hq. revert acc.
  induction todo as [|[k l] todo IH]; intros acc; simpl; [done|].
  rewrite IH. destruct (expired_at _ _ _); simpl; [apply Hq | done].
Qed.

Lemma sweep_spec pre todo n c :
  proj c = (pre ++ todo)%list -> NoDup ((pre ++ todo)%list.*1) ->
  proj (sweep now drop todo (n, c)).2 = (pre ++ live now (heap c) todo)%list
  /\ (sweep now drop todo (n, c)).1
     = n + size todo - size (live now (heap c) todo).
Proof.
  revert pre n c.
  induction todo as [|[k l] todo IH]; intros pre n c Hp Hnd.
  - simpl. split; [done|]. unfold size. simpl. lia.
  - cbn [sweep fst snd]. unfold live. rewrite filter_cons. simpl.
    destruct (expired_at now (heap c) l) eqn:Ex; simpl.
    + assert (Hk : k ∉ pre.*1).
      { rewrite fmap_app in Hnd. apply NoDup_app in Hnd as (_ & Hd & _).
        intros Hin. apply (Hd k Hin). simpl. apply elem_of_cons. by left. }
      destruct (IH pre (n + 1) (drop k c)) as [IH1 IH2].
      * rewrite drop_proj, Hp. by apply assoc_delete_app_head.
      * rewrite !fmap_app in *. simpl in Hnd.
        apply NoDup_app in Hnd as (N1 & Hd & [_ N2]%NoDup_cons).
        apply NoDup_app. split_and!; [done | | done].
        intros x Hx Hx'. apply (Hd x Hx). apply elem_of_cons. by right.
      * rewrite drop_heap in IH1, IH2. unfold live in *.
        split; [done|]. rewrite IH2. unfold size. simpl. lia.
    + destruct (IH (pre ++ [(k, l)])%list n c) as [IH1 IH2].
      * by rewrite <- app_assoc.
      * by rewrite <- app_assoc.
      * unfold live in *. rewrite <- app_assoc in IH1. split; [done|].
        rewrite IH2. unfold size. simpl. lia.
Qed.
End Sweep.

(** X13.  The periodic sweep removes from every level exactly the
    entries that are expired when it runs: the unexpired ones stay, in
    their order, and the count is the number of entries removed. *)
Theorem _cleanupExpiredEntries_sweeps (now : Z) (c : cache) :
  nodup_levels c ->
  heap (_cleanupExpiredEntries now c).2 = heap c
  /\ l1Cache (_cleanupExpiredEntries now c).2
     = live now (heap c) (l1Cache c)
  /\ l2Cache (_cleanupExpiredEntries now c).2
     = live now (heap c) (l2Cache c)
  /\ l3Cache (_cleanupExpiredEntries now c).2
     = live now (heap c) (l3Cache c)
  /\ (_cleanupExpiredEntries now c).1
     = size (l1Cache c) - size (live now (heap c) (l1Cache c))
       + (size (l2Cache c) - size (live now (heap c) (l2Cache c)))
       + (size (l3Cache c) - size (live now (heap c) (l3Cache c))).
Proof.
  intros (N1 & N2 & N3). unfold _cleanupExpiredEntries.
  destruct (sweep_spec now dropL1 l1Cache
              ltac:(done) ltac:(done) [] (l1Cache c) 0 c eq_refl N1)
    as [P1 C1].
  pose proof (sweep_frame now dropL1 heap (l1Cache c) (0, c)
                ltac:(done)) as Hh1.
  pose proof (sweep_frame now dropL1 l2Cache (l1Cache c) (0, c)
                ltac:(done)) as F12.
  pose proof (sweep_frame now dropL1 l3Cache (l1Cache c) (0, c)
                ltac:(done)) as F13.
  destruct (sweep now dropL1 (l1Cache c) (0, c)) as [n1 c1].
  simpl in P1, C1, Hh1, F12, F13. cbn [fst snd].
  assert (N2' : NoDup (([] ++ l2Cache c1)%list.*1)) by by rewrite F12.
  destruct (sweep_spec now dropL2 l2Cache
              ltac:(done) ltac:(done) [] (l2Cache c1) n1 c1 eq_refl N2')
    as [P2 C2].
  pose proof (sweep_frame now dropL2 heap (l2Cache c1) (n1, c1)
                ltac:(done)) as Hh2.
  pose proof (sweep_frame now dropL2 l1Cache (l2Cache c1) (n1, c1)
                ltac:(done)) as F21.
  pose proof (sweep_frame now dropL2 l3Cache (l2Cache c1) (n1, c1)
                ltac:(done)) as F23.
  destruct (sweep now dropL2 (l2Cache c1) (n1, c1)) as [n2 c2].
  simpl in P2, C2, Hh2, F21, F23. cbn [fst snd].
  assert (N3' : NoDup (([] ++ l3Cache c2)%list.*1)) by by rewrite F23, F13.
  destruct (sweep_spec now dropL3 l3Cache
              ltac:(done) ltac:(done) [] (l3Cache c2) n2 c2 eq_refl N3')
    as [P3 C3].
  pose proof (sweep_frame now dropL3 heap (l3Cache c2) (n2, c2)
                ltac:(done)) as Hh3.
  pose proof (sweep_frame now dropL3 l1Cache (l3Cache c2) (n2, c2)
                ltac:(done)) as F31.
  pose proof (sweep_frame now dropL3 l2Cache (l3Cache c2) (n2, c2)
                ltac:(done)) as F32.
  destruct (sweep now dropL3 (l3Cache c2) (n2, c2)) as [n3 c3].
  simpl in P3, C3, Hh3, F31, F32. simpl.
  rewrite Hh3, Hh2, Hh1, F31, F21, P1, F32, P2, P3, C3, C2, C1.
  rewrite Hh2, Hh1, F23, F13, F12. split_and!; try done. lia.
Qed.

Lemma _cleanupExpiredEntries_sweeps_witness :
  nodup_levels threeKeys /\
  (heap (_cleanupExpiredEntries 100000 threeKeys).2 = heap threeKeys
   /\ l1Cache (_cleanupExpiredEntries 100000 threeKeys).2
      = live 100000 (heap threeKeys) (l1Cache threeKeys)
   /\ l2Cache (_cleanupExpiredEntries 100000 threeKeys).2
      = live 100000 (heap threeKeys) (l2Cache threeKeys)
   /\ l3Cache (_cleanupExpiredEntries 100000 threeKeys).2
      = live 100000 (heap threeKeys) (l3Cache threeKeys)
   /\ (_cleanupExpiredEntries 100000 threeKeys).1
      = size (l1Cache threeKeys)
        - size (live 100000 (heap threeKeys) (l1Cache threeKeys))
        + (size (l2Cache threeKeys)
           - size (live 100000 (heap threeKeys) (l2Cache threeKeys)))
        + (size (l3Cache threeKeys)
           - size (live 100000 (heap threeKeys) (l3Cache threeKeys)))).
Proof.
  assert (H0 : nodup_levels threeKeys).
  { split_and!; refine (bool_decide_unpack _ _); vm_compute; exact I. }
  split; [assumption|].
  exact (_cleanupExpiredEntries_sweeps 100000 threeKeys H0).
Defined.

(** The key stored for sixty seconds is swept from the three levels. *)
Example threeKeys_swept :
  (_cleanupExpiredEntries 100000 threeKeys).1 = 3
  /\ keys (l2Cache (_cleanupExpiredEntries 100000 threeKeys).2)
     = ["rankings:tour:PGA"; "tournament:season:2025"].
Proof. split; reflexivity. Qed.

(** *** Invalidation by pattern *)

Lemma filter_all {A} (P : A -> Prop) `{!forall x, Decision (P x)}
    (l : list A) :
  (forall x, x ∈ l -> P x) -> filter P l = l.
Proof.
  induction l as [|x l IH]; intros Hall; [done|].
  rewrite filter_cons_True by (apply Hall, elem_of_cons; by left).
  f_equal. apply IH. intros y Hy. apply Hall, elem_of_cons. by right.
Qed.

Lemma filter_ext_in {A} (P Q : A -> Prop) `{!forall x, Decision (P x)}
    `{!forall x, Decision (Q x)} (l : list A) :
  (forall x, x ∈ l -> P x <-> Q x) -> filter P l = filter Q l.
Proof.
  induction l as [|x l IH]; intros Hall; [done|].
  assert (Hx : P x <-> Q x) by (apply Hall, elem_of_cons; by left).
  assert (IH' : filter P l = filter Q l).
  { apply IH. intros y Hy. apply Hall, elem_of_cons. by right. }
  rewrite !filter_cons, IH'.
  destruct (decide (P x)), (decide (Q x)); tauto.
Qed.

Lemma assoc_delete_filter (m : list (string * loc)) k :
  NoDup (m.*1) -> assoc_delete k m = filter (fun p => p.1 <> k) m.
Proof.
  induction m as [|[k0 v0] m IH]; simpl; [done|].
  intros [Hk0 Hnd]%NoDup_cons. rewrite filter_cons. simpl.
  destruct (String.eqb_spec k k0) as [-> | Hne].
  - rewrite decide_False by (intros H; by apply H).
    symmetry. apply filter_all. intros [k1 v1] Hin Heq. simpl in Heq.
    subst k1. apply Hk0. by apply (list_elem_of_fmap_2 fst) in Hin.
  - rewrite decide_True by done. f_equal. auto.
Qed.

Section Purge.
Variable test : string -> bool.

Lemma purged_nil m : purged test [] m = m.
Proof.
  apply filter_all. intros p _ [_ Hin]. by apply elem_of_nil in Hin.
Qed.

Lemma purged_cons_true key rest m :
  test key = true -> NoDup (m.*1) ->
  purged test rest (assoc_delete key m) = purged test (key :: rest) m.
Proof.
  intros Ht Hnd. rewrite assoc_delete_filter by done. unfold purged.
  rewrite list_filter_filter. apply list_filter_iff. intros [k v]. simpl.
  rewrite elem_of_cons. split.
  - intros [H1 H2] [Hd [-> | Hin]]; [done | by apply H1].
  - intros H. split.
    + intros [Hd Hin]. apply H. auto.
    + intros ->. apply H. auto.
Qed.

Lemma purged_cons_false key rest m :
  test key = false -> purged test (key :: rest) m = purged test rest m.
Proof.
  intros Ht. apply list_filter_iff. intros [k v]. simpl.
  rewrite elem_of_cons. split.
  - intros H [Hd Hin]. apply H. auto.
  - intros H [Hd [-> | Hin]]; [congruence | by apply H].
Qed.

Lemma purged_own m : purged test (keys m) m = unmatched test m.
Proof.
  apply filter_ext_in. intros [k v] Hin. simpl.
  apply (list_elem_of_fmap_2 fst) in Hin. simpl in Hin.
  destruct (test k); split; try done.
  - intros H. exfalso. by apply H.
  - by intros _ [? _].
Qed.

Lemma purged_unmatched ks m :
  purged test ks (unmatched test m) = unmatched test m.
Proof.
  apply filter_all. intros [k v] [Ht _]%list_elem_of_filter [Hd _].
  simpl in *. congruence.
Qed.

Lemma unmatched_purged ks m :
  unmatched test (purged test ks m) = unmatched test m.
Proof.
  apply list_filter_filter_l. intros [k v] Ht [Hd _]. simpl in *.
  congruence.
Qed.

Lemma elem_of_keys_purged ks m k :
  k ∈ keys (purged test ks m)
  <-> k ∈ keys m /\ ~ (test k = true /\ k ∈ ks).
Proof.
  unfold keys, purged. rewrite !list_elem_of_fmap. split.
  - intros ([k' v] & -> & [Hp Hin]%list_elem_of_filter). simpl in *.
    split; [|done]. by exists (k', v).
  - intros [([k' v] & -> & Hin) Hp]. exists (k', v). split; [done|].
    by apply list_elem_of_filter.
Qed.

Lemma unmatched_has m k :
  test k = true -> assoc_has k (unmatched test m) = false.
Proof.
  intros Ht. apply assoc_has_false.
  intros ([k' v] & -> & [Hp _]%list_elem_of_filter)%list_elem_of_fmap.
  simpl in *. congruence.
Qed.

(** A guard that lets every matching key through makes no difference. *)
Lemma purge_guard guard (P : cache -> Prop) todo acc :
  P acc.2 -> (forall k c, P c -> P (delete k c).2) ->
  (forall k c, P c -> test k = true -> guard k c = true) ->
  purge test guard todo acc = purge test (fun _ _ => true) todo acc.
Proof.
  intros HP Hdel Hg. revert acc HP.
  induction todo as [|key todo IH]; intros acc HP; simpl; [done|].
  destruct (test key) eqn:Et; simpl; [|by apply IH].
  rewrite (Hg key acc.2 HP Et). apply IH. simpl. by apply Hdel.
Qed.

Lemma purge_heap todo acc :
  heap (purge test (fun _ _ => true) todo acc).2 = heap acc.2.
Proof.
  revert acc. induction todo as [|key todo IH]; intros acc; simpl; [done|].
  rewrite IH. by destruct (test key).
Qed.

Lemma purge_count todo acc :
  (purge test (fun _ _ => true) todo acc).1
  = acc.1 + Z.of_nat (List.length (matching test todo)).
Proof.
  revert acc. induction todo as [|key todo IH]; intros acc; simpl; [lia|].
  rewrite IH. unfold matching. rewrite filter_cons.
  destruct (test key) eqn:Et; simpl; lia.
Qed.

Section Level.
Variable proj : cache -> list (string * loc).
Hypothesis delete_proj :
  forall k c, proj (delete k c).2 = assoc_delete k (proj c).

Lemma purge_level todo acc :
  NoDup ((proj acc.2).*1) ->
  proj (purge test (fun _ _ => true) todo acc).2
  = purged test todo (proj acc.2)
  /\ NoDup ((proj (purge test (fun _ _ => true) todo acc).2).*1).
Proof.
  revert acc.
  induction todo as [|key todo IH]; intros acc Hnd; cbn [purge].
  - by rewrite purged_nil.
  - destruct (test key) eqn:Et; cbn [andb fst snd].
    + destruct (IH (acc.1 + 1, (delete key acc.2).2)) as [IH1 IH2].
      { cbn [fst snd]. rewrite delete_proj. by apply NoDup_assoc_delete. }
      cbn [fst snd] in IH1. rewrite delete_proj in IH1.
      rewrite purged_cons_true in IH1 by done. done.
    + destruct (IH acc Hnd) as [IH1 IH2].
      by rewrite purged_cons_false.
Qed.
End Level.

(** The keys counted by the three loops are the distinct matching keys
    of the three levels. *)
Lemma matching_distinct (K1 K2 K3 K2' K3' : list string) :
  NoDup K1 -> NoDup K2' -> NoDup K3' ->
  (forall k, k ∈ K2' <-> k ∈ K2 /\ ~ (test k = true /\ k ∈ K1)) ->
  (forall k, k ∈ K3' <-> (k ∈ K3 /\ ~ (test k = true /\ k ∈ K1))
                         /\ ~ (test k = true /\ k ∈ K2')) ->
  List.length (matching test K1 ++ matching test K2'
               ++ matching test K3')%list
  = List.length (remove_dups (matching test (K1 ++ K2 ++ K3)%list)).
Proof.
  intros N1 N2 N3 H2 H3. apply Permutation_length, NoDup_Permutation.
  - apply NoDup_app. split_and!; [by apply NoDup_filter | |].
    + intros k [Hd Hin]%list_elem_of_filter Hin'.
      apply elem_of_app in Hin' as [[_ Hk]%list_elem_of_filter
                                   | [_ Hk]%list_elem_of_filter].
      * apply H2 in Hk as [_ Hk]. by apply Hk.
      * apply H3 in Hk as [[_ Hk] _]. by apply Hk.
    + apply NoDup_app. split_and!; [by apply NoDup_filter | |
                                     by apply NoDup_filter].
      intros k [Hd Hin]%list_elem_of_filter [_ Hk]%list_elem_of_filter.
      apply H3 in Hk as [_ Hk]. by apply Hk.
  - apply NoDup_remove_dups.
  - intros k. rewrite elem_of_remove_dups. unfold matching.
    rewrite !elem_of_app, !list_elem_of_filter, !elem_of_app.
    rewrite H3, H2.
    destruct (decide (k ∈ K1)), (decide (k ∈ K2)); tauto.
Qed.
End Purge.

(** The three loops together. *)
Lemma invalidateByPattern_spec (test : string -> bool) (c : cache) :
  nodup_levels c ->
  heap (invalidateByPattern (Some test) c).2 = heap c
  /\ l1Cache (invalidateByPattern (Some test) c).2
     = unmatched test (l1Cache c)
  /\ l2Cache (invalidateByPattern (Some test) c).2
     = unmatched test (l2Cache c)
  /\ l3Cache (invalidateByPattern (Some test) c).2
     = unmatched test (l3Cache c)
  /\ (invalidateByPattern (Some test) c).1
     = Z.of_nat
         (List.length
            (remove_dups
               (matching test
                  (keys (l1Cache c) ++ keys (l2Cache c)
                   ++ keys (l3Cache c))%list))).
Proof.
  intros (N1 & N2 & N3). unfold invalidateByPattern.
  (* the first loop *)
  pose proof (purge_heap test (keys (l1Cache c)) (0, c)) as Hh1.
  pose proof (purge_count test (keys (l1Cache c)) (0, c)) as C1.
  destruct (purge_level test l1Cache ltac:(done)
              (keys (l1Cache c)) (0, c) N1) as [P11 N11].
  destruct (purge_level test l2Cache ltac:(done)
              (keys (l1Cache c)) (0, c) N2) as [P12 N12].
  destruct (purge_level test l3Cache ltac:(done)
              (keys (l1Cache c)) (0, c) N3) as [P13 N13].
  destruct (purge test (fun _ _ => true) (keys (l1Cache c)) (0, c))
    as [n1 c1].
  simpl in Hh1, C1, P11, N11, P12, N12, P13, N13. cbn [fst snd].
  rewrite purged_own in P11.
  (* the second loop *)
  rewrite (purge_guard test
             (fun key c => negb (assoc_has key (l1Cache c)))
             (fun c => forall k, test k = true
                                 -> assoc_has k (l1Cache c) = false)
             (keys (l2Cache c1)) (n1, c1)).
  2:{ simpl. intros k Hk. rewrite P11. by apply unmatched_has. }
  2:{ intros k c' HP k' Hk'. simpl. apply assoc_has_delete_false. auto. }
  2:{ intros k c' HP Hk. by rewrite (HP k Hk). }
  pose proof (purge_heap test (keys (l2Cache c1)) (n1, c1)) as Hh2.
  pose proof (purge_count test (keys (l2Cache c1)) (n1, c1)) as C2.
  destruct (purge_level test l1Cache ltac:(done)
              (keys (l2Cache c1)) (n1, c1) N11) as [P21 N21].
  destruct (purge_level test l2Cache ltac:(done)
              (keys (l2Cache c1)) (n1, c1) N12) as [P22 N22].
  destruct (purge_level test l3Cache ltac:(done)
              (keys (l2Cache c1)) (n1, c1) N13) as [P23 N23].
  destruct (purge test (fun _ _ => true) (keys (l2Cache c1)) (n1, c1))
    as [n2 c2].
  simpl in Hh2, C2, P21, N21, P22, N22, P23, N23. cbn [fst snd].
  rewrite purged_own in P22.
  rewrite P11, purged_unmatched in P21.
  assert (P22' : l2Cache c2 = unmatched test (l2Cache c)).
  { by rewrite P22, P12, unmatched_purged. }
  (* the third loop *)
  rewrite (purge_guard test
             (fun key c => negb (assoc_has key (l1Cache c))
                           && negb (assoc_has key (l2Cache c)))
             (fun c => forall k, test k = true
                                 -> assoc_has k (l1Cache c) = false
                                    /\ assoc_has k (l2Cache c) = false)
             (keys (l3Cache c2)) (n2, c2)).
  2:{ simpl. intros k Hk. rewrite P21, P22'.
      split; by apply unmatched_has. }
  2:{ intros k c' HP k' Hk'. simpl. destruct (HP k' Hk').
      split; by apply assoc_has_delete_false. }
  2:{ intros k c' HP Hk. destruct (HP k Hk) as [-> ->]. done. }
  pose proof (purge_heap test (keys (l3Cache c2)) (n2, c2)) as Hh3.
  pose proof (purge_count test (keys (l3Cache c2)) (n2, c2)) as C3.
  destruct (purge_level test l1Cache ltac:(done)
              (keys (l3Cache c2)) (n2, c2) N21) as [P31 N31].
  destruct (purge_level test l2Cache ltac:(done)
              (keys (l3Cache c2)) (n2, c2) N22) as [P32 N32].
  destruct (purge_level test l3Cache ltac:(done)
              (keys (l3Cache c2)) (n2, c2) N23) as [P33 N33].
  destruct (purge test (fun _ _ => true) (keys (l3Cache c2)) (n2, c2))
    as [n3 c3].
  simpl in Hh3, C3, P31, N31, P32, N32, P33, N33. cbn [fst snd].
  rewrite purged_own in P33.
  rewrite P21, purged_unmatched in P31.
  rewrite P22', purged_unmatched in P32.
  split_and!.
  - by rewrite Hh3, Hh2, Hh1.
  - done.
  - done.
  - by rewrite P33, P23, P13, !unmatched_purged.
  - rewrite C3, C2, C1.
    rewrite <- (matching_distinct test (keys (l1Cache c)) (keys (l2Cache c))
                  (keys (l3Cache c)) (keys (l2Cache c1))
                  (keys (l3Cache c2))); try done.
    + rewrite !length_app. lia.
    + intros k. rewrite P12. apply elem_of_keys_purged.
    + intros k. rewrite P23, P13, !elem_of_keys_purged. done.
Qed.

(** X14.  [invalidateByPattern] removes from every level exactly the keys
    that the pattern matches, leaves the other entries in their order,
    and returns the number of distinct keys removed: a key held by
    several levels is counted once. *)
Theorem invalidateByPattern_removes_matches (test : string -> bool)
    (c : cache) :
  nodup_levels c ->
  heap (invalidateByPattern (Some test) c).2 = heap c
  /\ l1Cache (invalidateByPattern (Some test) c).2
     = unmatched test (l1Cache c)
  /\ l2Cache (invalidateByPattern (Some test) c).2
     = unmatched test (l2Cache c)
  /\ l3Cache (invalidateByPattern (Some test) c).2
     = unmatched test (l3Cache c)
  /\ (invalidateByPattern (Some test) c).1
     = Z.of_nat
         (List.length
            (remove_dups
               (matching test
                  (keys (l1Cache c) ++ keys (l2Cache c)
                   ++ keys (l3Cache c))%list))).
Proof. apply invalidateByPattern_spec. Qed.

Lemma invalidateByPattern_removes_matches_witness :
  nodup_levels threeKeys /\
  (heap (invalidateByPattern (Some tournamentKeys) threeKeys).2
   = heap threeKeys
   /\ l1Cache (invalidateByPattern (Some tournamentKeys) threeKeys).2
      = unmatched tournamentKeys (l1Cache threeKeys)
   /\ l2Cache (invalidateByPattern (Some tournamentKeys) threeKeys).2
      = unmatched tournamentKeys (l2Cache threeKeys)
   /\ l3Cache (invalidateByPattern (Some tournamentKeys) threeKeys).2
      = unmatched tournamentKeys (l3Cache threeKeys)
   /\ (invalidateByPattern (Some tournamentKeys) threeKeys).1
      = Z.of_nat
          (List.length
             (remove_dups
                (matching tournamentKeys
                   (keys (l1Cache threeKeys) ++ keys (l2Cache threeKeys)
                    ++ keys (l3Cache threeKeys))%list)))).
Proof.
  assert (H0 : nodup_levels threeKeys).
  { split_and!; refine (bool_decide_unpack _ _); vm_compute; exact I. }
  split; [assumption|].
  exact (invalidateByPattern_removes_matches tournamentKeys threeKeys H0).
Defined.

(** Two tournament keys held by three levels each: the count is two. *)
Example threeKeys_invalidated :
  (invalidateByPattern (Some tournamentKeys) threeKeys).1 = 2
  /\ keys (l3Cache (invalidateByPattern (Some tournamentKeys) threeKeys).2)
     = ["rankings:tour:PGA"].
Proof. split; reflexivity. Qed.

(** *** Recency *)

Lemma assoc_set_new {V} (m : list (string * V)) k v :
  k ∉ m.*1 -> assoc_set k v m = (m ++ [(k, v)])%list.
Proof.
  induction m as [|[k0 v0] m IH]; simpl; [done|].
  intros [Hne Hk]%not_elem_of_cons.
  destruct (String.eqb_spec k k0) as [-> | _]; [done|].
  f_equal. auto.
Qed.

(** What is written to level 1 evicts at most the key that heads the
    access order. *)
Lemma _setToL1_keeps cfg now new d t c key :
  assoc_has key (l1Cache c) = true ->
  first_key (l1AccessOrder c) <> Some key ->
  assoc_has key (l1Cache (_setToL1 cfg now new d t c)) = true.
Proof.
  intros Hkey Hfirst. unfold _setToL1.
  set (c1 := if at_capacity (l1Cache c) (l1 cfg) then _ else _).
  assert (H1 : assoc_has key (l1Cache c1) = true).
  { unfold c1, _evictFromL1. destruct (at_capacity _ _); [|done].
    destruct (first_key (l1AccessOrder c)) as [oldest|]; [|done].
    destruct (truthy_str oldest); [|done]. simpl.
    rewrite assoc_has_delete_ne; [done | congruence]. }
  clearbody c1. destruct (as_entry _ _ _ _) as [l h].
  destruct t as [z|]; [destruct (z =? 0)|]; simpl;
    rewrite assoc_has_set, H1; by destruct (String.eqb key new).
Qed.

(** X22.  Level 1 evicts by recency of use: a key that has just been read
    from level 1 is not the one that the next [set] of another key
    evicts, as long as level 1 holds some other key. *)
Theorem recently_read_survives (cfg : cacheConfig) (now now' : Z)
    (key other new : string) (d : jsdata) (t : num) (c : cache)
    (e : entry) :
  enabled (l1 cfg) = true ->
  NoDup (keys (l1AccessOrder c)) ->
  entry_of (heap c) (l1Cache c) key = Some e ->
  _isExpired now e = false ->
  other ∈ keys (l1AccessOrder c) -> other <> key ->
  (get cfg now key c).1 = Some (data e)
  /\ assoc_has key
       (l1Cache (set cfg now' new d t (get cfg now key c).2)) = true.
Proof.
  intros E1 Hnd He Hx Hother Hne.
  unfold entry_of in He.
  destruct (assoc_get key (l1Cache c)) as [l|] eqn:Ek; [|done].
  simpl in He. unfold get. rewrite E1.
  rewrite (_getFromL1_fresh now key c l e Ek He Hx).
  split; [done|]. cbn [snd].
  set (c1 := set_l1Stats _ _).
  assert (Hk1 : assoc_has key (l1Cache c1) = true).
  { unfold c1, assoc_has. simpl. by rewrite Ek. }
  assert (Ho1 : first_key (l1AccessOrder c1) <> Some key).
  { unfold c1. simpl.
    rewrite assoc_set_new.
    2:{ apply assoc_has_false. by apply assoc_has_delete_eq. }
    assert (Hin : other ∈ (assoc_delete key (l1AccessOrder c)).*1).
    { apply assoc_has_elem. rewrite assoc_has_delete_ne by done.
      by apply assoc_has_elem. }
    destruct (assoc_delete key (l1AccessOrder c)) as [|[k0 v0] rest] eqn:Ed.
    { by apply elem_of_nil in Hin. }
    simpl. intros [= ->].
    assert (Hhas : assoc_has key (assoc_delete key (l1AccessOrder c)) = true).
    { rewrite Ed. apply assoc_has_head. }
    by rewrite assoc_has_delete_eq in Hhas. }
  clearbody c1. unfold set. rewrite E1.
  set (c0 := set_heap c1 _).
  set (c2 := _setToL1 _ _ _ _ _ c0).
  assert (H2 : assoc_has key (l1Cache c2) = true).
  { unfold c2. by apply _setToL1_keeps. }
  clearbody c2.
  set (c3 := if enabled (l2 cfg) then _ else c2).
  assert (H3 : l1Cache c3 = l1Cache c2).
  { unfold c3. destruct (enabled (l2 cfg)); [apply _setToL2_frame | done]. }
  clearbody c3.
  destruct (enabled (l3 cfg)).
  - destruct (_setToL3_frame cfg now' new (DRef (List.length (heap c1)))
                (or_num t (cfg_ttl (l3 cfg))) c3) as (-> & _).
    by rewrite H3.
  - by rewrite H3.
Qed.

Lemma recently_read_survives_witness :
  enabled (l1 smallConfig) = true /\
  NoDup (keys (l1AccessOrder fullL1)) /\
  entry_of (heap fullL1) (l1Cache fullL1) "tournament:season:2024"
  = Some (Entry (DPlain "A") 1000 (Some 300) 0) /\
  _isExpired 3000 (Entry (DPlain "A") 1000 (Some 300) 0) = false /\
  "rankings:tour:PGA" ∈ keys (l1AccessOrder fullL1) /\
  "rankings:tour:PGA" <> "tournament:season:2024" /\
  ((get smallConfig 3000 "tournament:season:2024" fullL1).1
   = Some (data (Entry (DPlain "A") 1000 (Some 300) 0))
   /\ assoc_has "tournament:season:2024"
        (l1Cache
           (set smallConfig 4000 "field:tournamentId:14" (DPlain "C")
              (Some 60)
              (get smallConfig 3000 "tournament:season:2024" fullL1).2))
      = true).
Proof.
  assert (H1 : enabled (l1 smallConfig) = true) by reflexivity.
  assert (H2 : NoDup (keys (l1AccessOrder fullL1))).
  { refine (bool_decide_unpack _ _). vm_compute. exact I. }
  assert (H3 : entry_of (heap fullL1) (l1Cache fullL1)
                 "tournament:season:2024"
               = Some (Entry (DPlain "A") 1000 (Some 300) 0))
    by reflexivity.
  assert (H4 : _isExpired 3000 (Entry (DPlain "A") 1000 (Some 300) 0)
               = false) by reflexivity.
  assert (H5 : "rankings:tour:PGA" ∈ keys (l1AccessOrder fullL1)).
  { refine (bool_decide_unpack _ _). vm_compute. exact I. }
  assert (H6 : "rankings:tour:PGA" <> "tournament:season:2024")
    by discriminate.
  repeat (split; [assumption|]).
  exact (recently_read_survives smallConfig 3000 4000
           "tournament:season:2024" "rankings:tour:PGA"
           "field:tournamentId:14" (DPlain "C") (Some 60) fullL1
           (Entry (DPlain "A") 1000 (Some 300) 0) H1 H2 H3 H4 H5 H6).
Defined.

End CacheMoreFacts.

(** ** The callbacks between two calls *)

Module CacheBackgroundFacts.
Import Js JsFacts Cache CacheFacts CacheMore CacheMoreFacts.

Lemma _isExpired_earlier now now' e :
  now <= now' -> _isExpired now' e = false -> _isExpired now e = false.
Proof.
  unfold _isExpired. intros Hle. destruct (ttl e) as [t|]; [|done].
  destruct (t =? 0); [done|]. rewrite !Z.ltb_ge. lia.
Qed.

Lemma due_earlier now now' key c :
  now <= now' -> due now' key c = false -> due now key c = false.
Proof.
  unfold due. intros Hle. destruct (assoc_get key (ttlTimers c)); [|done].
  rewrite !Z.leb_gt. lia.
Qed.

(** *** The timer that [set] leaves *)

Lemma _setToL2_timers cfg now key d t c :
  ttlTimers (_setToL2 cfg now key d t c) = ttlTimers c.
Proof.
  unfold _setToL2, _evictFromL2.
  destruct (at_capacity _ _);
    [destruct (first_key _) as [k|]; [destruct (truthy_str k)|]|];
    destruct (as_entry _ _ _ _) as [l h]; done.
Qed.

Lemma _setToL3_timers cfg now key d t c :
  ttlTimers (_setToL3 cfg now key d t c) = ttlTimers c.
Proof.
  unfold _setToL3, _evictFromL3.
  destruct (at_capacity _ _);
    [destruct (leastUsed _ _ _) as [[k n]|]; [destruct (truthy_str k)|]|];
    destruct (as_entry _ _ _ _) as [l h]; done.
Qed.

Lemma _setToL1_timers cfg now key d t c :
  ttlTimers (_setToL1 cfg now key d t c)
  = match t with
    | Some z =>
        if z =? 0 then ttlTimers c
        else assoc_set key (now + setTimeout_delay (z * 1000)) (ttlTimers c)
    | None => ttlTimers c
    end.
Proof.
  unfold _setToL1, _evictFromL1.
  destruct (at_capacity _ _);
    [destruct (first_key _) as [k|]; [destruct (truthy_str k)|]|];
    destruct (as_entry _ _ _ _) as [l h];
    destruct t as [z|]; try destruct (z =? 0); done.
Qed.

Lemma set_timers_spec cfg now key d t c :
  ttlTimers (set cfg now key d t c)
  = if enabled (l1 cfg) && truthy_num (or_num t (cfg_ttl (l1 cfg)))
    then match or_num t (cfg_ttl (l1 cfg)) with
         | Some z =>
             assoc_set key (now + setTimeout_delay (z * 1000)) (ttlTimers c)
         | None => ttlTimers c
         end
    else ttlTimers c.
Proof.
  unfold set.
  set (c0 := set_heap c _).
  set (c1 := if enabled (l1 cfg) then _ else c0).
  set (c2 := if enabled (l2 cfg) then _ else c1).
  assert (E3 : ttlTimers (if enabled (l3 cfg)
                          then _setToL3 cfg now key
                                 (DRef (List.length (heap c)))
                                 (or_num t (cfg_ttl (l3 cfg))) c2
                          else c2) = ttlTimers c2).
  { destruct (enabled (l3 cfg)); [apply _setToL3_timers | done]. }
  assert (E2 : ttlTimers c2 = ttlTimers c1).
  { unfold c2. destruct (enabled (l2 cfg)); [apply _setToL2_timers | done]. }
  rewrite E3, E2. unfold c1.
  destruct (enabled (l1 cfg)); [|done].
  rewrite _setToL1_timers. simpl.
  destruct (or_num t (cfg_ttl (l1 cfg))) as [z|]; [|done]. simpl.
  by destruct (z =? 0).
Qed.

(** The timer that [set] arms is due after [ttl * 1000] milliseconds, or
    after one when that is not a delay that [setTimeout] accepts. *)
Lemma set_due_armed cfg now now' key d t c z :
  enabled (l1 cfg) = true -> or_num t (cfg_ttl (l1 cfg)) = Some z ->
  z <> 0 ->
  due now' key (set cfg now key d t c)
  = (now + setTimeout_delay (z * 1000) <=? now').
Proof.
  intros E1 Et Hz. unfold due. rewrite set_timers_spec, E1, Et. simpl.
  destruct (Z.eqb_spec z 0) as [|_]; [done|]. simpl.
  by rewrite assoc_get_set, String.eqb_refl.
Qed.

(** A [set] that arms no timer leaves the timer of an earlier one. *)
Lemma set_due_kept cfg now now' key d t c :
  enabled (l1 cfg) && truthy_num (or_num t (cfg_ttl (l1 cfg))) = false ->
  due now' key (set cfg now key d t c) = due now' key c.
Proof. intros E. unfold due. by rewrite set_timers_spec, E. Qed.

(** *** What a callback leaves in place *)

Lemma elem_of_assoc_delete_ne {V} (m : list (string * V)) k k' (v : V) :
  k' <> k -> (k', v) ∈ m -> (k', v) ∈ assoc_delete k m.
Proof.
  intros Hne. induction m as [|[k0 v0] m IH]; simpl; [done|].
  destruct (String.eqb_spec k k0) as [-> | Hk].
  - intros [[= -> ->] | H]%elem_of_cons; [done | done].
  - intros [[= -> ->] | H]%elem_of_cons; apply elem_of_cons; auto.
Qed.

Lemma nodup_keys_functional {V} (m : list (string * V)) k (v1 v2 : V) :
  NoDup (m.*1) -> (k, v1) ∈ m -> (k, v2) ∈ m -> v1 = v2.
Proof.
  induction m as [|[k0 v0] m IH]; simpl; intros Hnd H1 H2.
  - by apply elem_of_nil in H1.
  - apply NoDup_cons in Hnd as [Hk Hnd].
    apply elem_of_cons in H1 as [H1 | H1];
      apply elem_of_cons in H2 as [H2 | H2].
    + congruence.
    + injection H1 as -> ->. destruct Hk.
      by apply (list_elem_of_fmap_2 fst) in H2.
    + injection H2 as -> ->. destruct Hk.
      by apply (list_elem_of_fmap_2 fst) in H1.
    + by apply IH.
Qed.

Section Sweep_keeps.
Variables (now : Z) (drop : string -> cache -> cache).
Variable proj : cache -> list (string * loc).
Hypothesis drop_proj : forall k c, proj (drop k c) = assoc_delete k (proj c).
Hypothesis drop_heap : forall k c, heap (drop k c) = heap c.

Lemma sweep_nodup todo acc :
  NoDup ((proj acc.2).*1) ->
  NoDup ((proj (sweep now drop todo acc).2).*1).
Proof.
  revert acc. induction todo as [|[k l] todo IH]; intros acc Hnd; [done|].
  cbn [sweep]. apply IH.
  destruct (expired_at now (heap acc.2) l); [|done].
  cbn [snd]. rewrite drop_proj. by apply NoDup_assoc_delete.
Qed.

Lemma sweep_entry key e todo acc :
  NoDup ((proj acc.2).*1) ->
  (forall l, (key, l) ∈ todo -> (key, l) ∈ proj acc.2) ->
  entry_of (heap acc.2) (proj acc.2) key = Some e ->
  _isExpired now e = false ->
  entry_of (heap (sweep now drop todo acc).2)
           (proj (sweep now drop todo acc).2) key = Some e.
Proof.
  intros Hnd Hin He Hfresh. revert acc Hnd Hin He.
  induction todo as [|[k l] todo IH]; intros acc Hnd Hin He; [done|].
  cbn [sweep]. destruct (expired_at now (heap acc.2) l) eqn:Ex.
  - assert (Hk : k <> key).
    { intros ->.
      assert (Hl : (key, l) ∈ proj acc.2)
        by (apply Hin, elem_of_cons; by left).
      unfold entry_of in He.
      destruct (assoc_get key (proj acc.2)) as [lk|] eqn:Eg; [|done].
      simpl in He. apply assoc_get_elem in Eg.
      pose proof (nodup_keys_functional _ _ _ _ Hnd Hl Eg) as ->.
      unfold expired_at in Ex. rewrite He in Ex. congruence. }
    apply IH; cbn [snd].
    + rewrite drop_proj. by apply NoDup_assoc_delete.
    + intros l' Hl'. rewrite drop_proj.
      apply elem_of_assoc_delete_ne; [congruence|].
      apply Hin, elem_of_cons. by right.
    + rewrite drop_proj, drop_heap. unfold entry_of in *.
      by rewrite assoc_get_delete_ne.
  - apply IH; [done | | done].
    intros l' Hl'. apply Hin, elem_of_cons. by right.
Qed.
End Sweep_keeps.

Lemma delete_keeps cfg now key e k c :
  k <> key ->
  nodup_levels c -> due now key c = false -> stored cfg key e c ->
  nodup_levels (delete k c).2
  /\ due now key (delete k c).2 = false
  /\ stored cfg key e (delete k c).2.
Proof.
  intros Hk (N1 & N2 & N3) Hdue (S1 & S2 & S3).
  assert (Hne : key <> k) by congruence.
  unfold nodup_levels, due, stored, entry_of, keys in *.
  cbn [delete snd heap l1Cache l2Cache l3Cache ttlTimers].
  rewrite !assoc_get_delete_ne by done.
  split_and!; try done; by apply NoDup_assoc_delete.
Qed.

Lemma _cleanupExpiredEntries_keeps cfg now now' key e c :
  _isExpired now e = false ->
  nodup_levels c -> due now' key c = false -> stored cfg key e c ->
  nodup_levels (_cleanupExpiredEntries now c).2
  /\ due now' key (_cleanupExpiredEntries now c).2 = false
  /\ stored cfg key e (_cleanupExpiredEntries now c).2.
Proof.
  intros Hfresh (N1 & N2 & N3) Hdue (S1 & S2 & S3).
  unfold _cleanupExpiredEntries.
  set (a1 := sweep now dropL1 (l1Cache c) (0, c)).
  assert (I1 : (nodup_levels a1.2 /\ ttlTimers a1.2 = ttlTimers c
                /\ stored cfg key e a1.2)).
  { unfold a1, nodup_levels, stored, keys.
    rewrite (sweep_frame now dropL1 heap) by done.
    rewrite (sweep_frame now dropL1 l2Cache) by done.
    rewrite (sweep_frame now dropL1 l3Cache) by done.
    rewrite (sweep_frame now dropL1 ttlTimers) by done.
    split_and!; try done.
    - by apply (sweep_nodup now dropL1 l1Cache).
    - intros E1.
      pose proof (sweep_entry now dropL1 l1Cache ltac:(done) ltac:(done)
                    key e (l1Cache c) (0, c) N1 ltac:(done) (S1 E1) Hfresh)
        as H.
      by rewrite (sweep_frame now dropL1 heap) in H by done. }
  clearbody a1. destruct I1 as ((M1 & M2 & M3) & T1 & (R1 & R2 & R3)).
  set (a2 := sweep now dropL2 (l2Cache a1.2) a1).
  assert (I2 : (nodup_levels a2.2 /\ ttlTimers a2.2 = ttlTimers c
                /\ stored cfg key e a2.2)).
  { unfold a2, nodup_levels, stored, keys.
    rewrite (sweep_frame now dropL2 heap) by done.
    rewrite (sweep_frame now dropL2 l1Cache) by done.
    rewrite (sweep_frame now dropL2 l3Cache) by done.
    rewrite (sweep_frame now dropL2 ttlTimers) by done.
    split_and!; try done.
    - by apply (sweep_nodup now dropL2 l2Cache).
    - intros E2.
      pose proof (sweep_entry now dropL2 l2Cache ltac:(done) ltac:(done)
                    key e (l2Cache a1.2) a1 M2 ltac:(done) (R2 E2) Hfresh)
        as H.
      by rewrite (sweep_frame now dropL2 heap) in H by done. }
  clearbody a2. clear M1 M2 M3 T1 R1 R2 R3.
  destruct I2 as ((M1 & M2 & M3) & T1 & (R1 & R2 & R3)).
  unfold nodup_levels, stored, keys, due.
  rewrite (sweep_frame now dropL3 heap) by done.
  rewrite (sweep_frame now dropL3 l1Cache) by done.
  rewrite (sweep_frame now dropL3 l2Cache) by done.
  rewrite (sweep_frame now dropL3 ttlTimers) by done.
  rewrite T1. split_and!; try done.
  - by apply (sweep_nodup now dropL3 l3Cache).
  - intros E3.
    pose proof (sweep_entry now dropL3 l3Cache ltac:(done) ltac:(done)
                  key e (l3Cache a2.2) a2 M3 ltac:(done) (R3 E3) Hfresh)
      as H.
    by rewrite (sweep_frame now dropL3 heap) in H by done.
Qed.

(** The callbacks that run before the timer of a key is due leave an
    unexpired entry of the key where it is. *)
Lemma background_run_keeps cfg now' key e bs c c' :
  _isExpired now' e = false ->
  Forall (fun b => b.1 <= now') bs ->
  nodup_levels c -> due now' key c = false -> stored cfg key e c ->
  background_run bs c = Some c' ->
  nodup_levels c' /\ due now' key c' = false /\ stored cfg key e c'.
Proof.
  intros Hfresh Hbs. revert c.
  induction Hbs as [|[now b] bs Hle _ IH]; intros c Hnd Hdue Hst Hrun.
  - injection Hrun as <-. done.
  - simpl in Hle, Hrun.
    destruct (background_step now b c) as [c1|] eqn:E1; [|done].
    destruct b as [k|]; simpl in E1.
    + destruct (due now k c) eqn:Ek; [|done]. injection E1 as <-.
      assert (Hk : k <> key).
      { intros ->. rewrite (due_earlier now now' key c Hle Hdue) in Ek.
        done. }
      destruct (delete_keeps cfg now' key e k c Hk Hnd Hdue Hst)
        as (? & ? & ?).
      by apply (IH (delete k c).2).
    + injection E1 as <-.
      destruct (_cleanupExpiredEntries_keeps cfg now now' key e c
                  (_isExpired_earlier now now' e Hle Hfresh) Hnd Hdue Hst)
        as (? & ? & ?).
      by apply (IH (_cleanupExpiredEntries now c).2).
Qed.

(** *** Reads keep distinct keys distinct *)

Lemma _getFromL1_nodup now key c :
  nodup_levels c -> nodup_levels (_getFromL1 now key c).2.
Proof.
  intros (N1 & N2 & N3). unfold _getFromL1.
  destruct (assoc_get key (l1Cache c)) as [l|]; [|done].
  destruct (heap c !! l) as [e|]; [|done].
  destruct (_isExpired now e); [|done].
  split_and!; try done. by apply NoDup_assoc_delete.
Qed.

Lemma _getFromL2_nodup now key c :
  nodup_levels c -> nodup_levels (_getFromL2 now key c).2.
Proof.
  intros (N1 & N2 & N3). unfold _getFromL2.
  destruct (assoc_get key (l2Cache c)) as [l|]; [|done].
  destruct (heap c !! l) as [e|]; [|done].
  destruct (_isExpired now e); [|done].
  split_and!; try done. by apply NoDup_assoc_delete.
Qed.

Lemma _getFromL3_nodup now key c :
  nodup_levels c -> nodup_levels (_getFromL3 now key c).2.
Proof.
  intros (N1 & N2 & N3). unfold _getFromL3.
  destruct (assoc_get key (l3Cache c)) as [l|]; [|done].
  destruct (heap c !! l) as [e|]; [|done].
  destruct (_isExpired now e); [|done].
  split_and!; try done. by apply NoDup_assoc_delete.
Qed.

Lemma _setToL1_nodup_levels cfg now key d t c :
  nodup_levels c -> nodup_levels (_setToL1 cfg now key d t c).
Proof.
  intros (N1 & N2 & N3).
  destruct (_setToL1_frame cfg now key d t c) as (E2 & E3 & _).
  unfold nodup_levels. rewrite E2, E3.
  split_and!; [by apply _setToL1_nodup | done | done].
Qed.

Lemma _setToL2_nodup_levels cfg now key d t c :
  nodup_levels c -> nodup_levels (_setToL2 cfg now key d t c).
Proof.
  intros (N1 & N2 & N3).
  destruct (_setToL2_frame cfg now key d t c) as (E1 & _ & E3 & _).
  unfold nodup_levels. rewrite E1, E3.
  split_and!; [done | by apply _setToL2_nodup | done].
Qed.

Lemma get_nodup cfg now key c :
  nodup_levels c -> nodup_levels (get cfg now key c).2.
Proof.
  intros H0. unfold get.
  assert (H1 : nodup_levels
                 (if enabled (l1 cfg) then _getFromL1 now key c
                  else (None, c)).2).
  { destruct (enabled (l1 cfg)); [by apply _getFromL1_nodup | done]. }
  destruct (if enabled (l1 cfg) then _getFromL1 now key c else (None, c))
    as [r1 c1]. simpl in H1. destruct r1 as [d1|]; [done|].
  assert (H2 : nodup_levels
                 (if enabled (l2 cfg) then _getFromL2 now key c1
                  else (None, c1)).2).
  { destruct (enabled (l2 cfg)); [by apply _getFromL2_nodup | done]. }
  destruct (if enabled (l2 cfg) then _getFromL2 now key c1 else (None, c1))
    as [r2 c2]. simpl in H2. destruct r2 as [d2|].
  { simpl. destruct (enabled (l1 cfg)); [|done].
    by apply _setToL1_nodup_levels. }
  assert (H3 : nodup_levels
                 (if enabled (l3 cfg) then _getFromL3 now key c2
                  else (None, c2)).2).
  { destruct (enabled (l3 cfg)); [by apply _getFromL3_nodup | done]. }
  destruct (if enabled (l3 cfg) then _getFromL3 now key c2 else (None, c2))
    as [r3 c3]. simpl in H3. destruct r3 as [d3|]; [|done].
  simpl.
  assert (H4 : nodup_levels
                 (if enabled (l2 cfg)
                  then _setToL2 cfg now key d3 (cfg_ttl (l2 cfg)) c3
                  else c3)).
  { destruct (enabled (l2 cfg)); [by apply _setToL2_nodup_levels | done]. }
  destruct (enabled (l1 cfg)); [|done].
  by apply _setToL1_nodup_levels.
Qed.

(** A read finds an unexpired entry that every enabled level holds. *)
Lemma get_stored cfg now key e c :
  enabled (l1 cfg) || enabled (l2 cfg) || enabled (l3 cfg) = true ->
  stored cfg key e c -> _isExpired now e = false ->
  (get cfg now key c).1 = Some (data e).
Proof.
  intros Hen (H1 & H2 & H3) Hfresh. unfold get.
  destruct (enabled (l1 cfg)) eqn:E1.
  - pose proof (_getFromL1_hit now key c e (H1 eq_refl) Hfresh) as Hhit.
    destruct (_getFromL1 now key c) as [r1 c1]. simpl in Hhit.
    by subst r1.
  - destruct (enabled (l2 cfg)) eqn:E2.
    + pose proof (_getFromL2_hit now key c e (H2 eq_refl) Hfresh) as Hhit.
      destruct (_getFromL2 now key c) as [r2 c2]. simpl in Hhit.
      by subst r2.
    + destruct (enabled (l3 cfg)) eqn:E3; [|done].
      pose proof (_getFromL3_hit now key c e (H3 eq_refl) Hfresh) as Hhit.
      destruct (_getFromL3 now key c) as [r3 c3]. simpl in Hhit.
      by subst r3.
Qed.

(** What [set] stored is read back as long as the entry has not expired
    and the timer of the key is not due, whatever callbacks ran. *)
Lemma get_set_background cfg now now' key d t c bs c' :
  now <> 0 ->
  enabled (l1 cfg) || enabled (l2 cfg) || enabled (l3 cfg) = true ->
  nodup_levels c ->
  _isExpired now' (Entry d now (or_num t (cfg_ttl (l1 cfg))) 0) = false ->
  due now' key (set cfg now key d t c) = false ->
  Forall (fun b => b.1 <= now') bs ->
  background_run bs (set cfg now key d t c) = Some c' ->
  (get cfg now' key c').1 = Some d.
Proof.
  intros Hnow Hen Hnd Hfresh Hdue Hbs Hrun.
  set (e := Entry d now (or_num t (cfg_ttl (l1 cfg))) 0) in *.
  destruct (background_run_keeps cfg now' key e bs _ c' Hfresh Hbs
              (set_nodup cfg now key d t c Hnd) Hdue
              (set_entries_all cfg now key d t c Hnow) Hrun)
    as (_ & _ & Hst).
  exact (get_stored cfg now' key e c' Hen Hst Hfresh).
Qed.

(** X6.  What [set] stores, [get] returns, as long as the entry has not
    expired and the TTL timer of the key is not due: whatever the cache
    held before, and whichever callbacks of the cache (the timers of
    other keys, the periodic sweep) ran in between, a [get] of the key
    returns the data that was stored. *)
Theorem get_after_set (cfg : cacheConfig) (now now' : Z) (key : string)
    (d : jsdata) (t : num) (c c' : cache) (bs : list (Z * background)) :
  now <> 0 ->
  enabled (l1 cfg) || enabled (l2 cfg) || enabled (l3 cfg) = true ->
  nodup_levels c ->
  _isExpired now' (Entry d now (or_num t (cfg_ttl (l1 cfg))) 0) = false ->
  due now' key (set cfg now key d t c) = false ->
  Forall (fun b => b.1 <= now') bs ->
  background_run bs (set cfg now key d t c) = Some c' ->
  (get cfg now' key c').1 = Some d.
Proof. apply get_set_background. Qed.

Lemma get_after_set_witness :
  1700000000000 <> 0 /\
  enabled (l1 productionConfig) || enabled (l2 productionConfig)
  || enabled (l3 productionConfig) = true /\
  nodup_levels threeKeys /\
  _isExpired 1700000030000
    (Entry (DPlain "body") 1700000000000
       (or_num (Some 60) (cfg_ttl (l1 productionConfig))) 0) = false /\
  due 1700000030000 "scoring:tournamentId:14"
    (set productionConfig 1700000000000 "scoring:tournamentId:14"
       (DPlain "body") (Some 60) threeKeys) = false /\
  Forall (fun b => b.1 <= 1700000030000)
    [(1700000010000, Timeout "tournament:season:2024");
     (1700000020000, Cleanup)] /\
  background_run
    [(1700000010000, Timeout "tournament:season:2024");
     (1700000020000, Cleanup)]
    (set productionConfig 1700000000000 "scoring:tournamentId:14"
       (DPlain "body") (Some 60) threeKeys)
  = Some (_cleanupExpiredEntries 1700000020000
            (delete "tournament:season:2024"
               (set productionConfig 1700000000000
                  "scoring:tournamentId:14" (DPlain "body") (Some 60)
                  threeKeys)).2).2 /\
  (get productionConfig 1700000030000 "scoring:tournamentId:14"
     (_cleanupExpiredEntries 1700000020000
        (delete "tournament:season:2024"
           (set productionConfig 1700000000000 "scoring:tournamentId:14"
              (DPlain "body") (Some 60) threeKeys)).2).2).1
  = Some (DPlain "body").
Proof.
  assert (H1 : 1700000000000 <> 0) by lia.
  assert (H2 : enabled (l1 productionConfig) || enabled (l2 productionConfig)
               || enabled (l3 productionConfig) = true) by reflexivity.
  assert (H3 : nodup_levels threeKeys).
  { split_and!; refine (bool_decide_unpack _ _); vm_compute; exact I. }
  assert (H4 : _isExpired 1700000030000
                 (Entry (DPlain "body") 1700000000000
                    (or_num (Some 60) (cfg_ttl (l1 productionConfig))) 0)
               = false) by reflexivity.
  assert (H5 : due 1700000030000 "scoring:tournamentId:14"
                 (set productionConfig 1700000000000
                    "scoring:tournamentId:14" (DPlain "body") (Some 60)
                    threeKeys) = false) by reflexivity.
  assert (H6 : Forall (fun b : Z * background => b.1 <= 1700000030000)
                 [(1700000010000, Timeout "tournament:season:2024");
                  (1700000020000, Cleanup)]).
  { repeat (apply Forall_cons_2; [simpl; lia|]). apply Forall_nil_2. }
  assert (H7 : background_run
                 [(1700000010000, Timeout "tournament:season:2024");
                  (1700000020000, Cleanup)]
                 (set productionConfig 1700000000000
                    "scoring:tournamentId:14" (DPlain "body") (Some 60)
                    threeKeys)
               = Some (_cleanupExpiredEntries 1700000020000
                         (delete "tournament:season:2024"
                            (set productionConfig 1700000000000
                               "scoring:tournamentId:14" (DPlain "body")
                               (Some 60) threeKeys)).2).2)
    by reflexivity.
  do 7 (split; [assumption|]).
  exact (get_after_set productionConfig 1700000000000 1700000030000
           "scoring:tournamentId:14" (DPlain "body") (Some 60) threeKeys _
           _ H1 H2 H3 H4 H5 H6 H7).
Defined.

(** A read of a key that no level holds misses. *)
Lemma get_uncached cfg now key c :
  cached key c = false -> (get cfg now key c).1 = None.
Proof.
  unfold cached, assoc_has. intros H.
  destruct (assoc_get key (l1Cache c)) eqn:E1; [done|].
  destruct (assoc_get key (l2Cache c)) eqn:E2; [done|].
  destruct (assoc_get key (l3Cache c)) eqn:E3; [done|].
  assert (P1 : forall c0, assoc_get key (l1Cache c0) = None ->
                 _getFromL1 now key c0
                 = (None, set_l1Stats c0 (miss (l1Stats c0)))).
  { intros c0 E. unfold _getFromL1. by rewrite E. }
  assert (P2 : forall c0, assoc_get key (l2Cache c0) = None ->
                 _getFromL2 now key c0
                 = (None, set_l2Stats c0 (miss (l2Stats c0)))).
  { intros c0 E. unfold _getFromL2. by rewrite E. }
  assert (P3 : forall c0, assoc_get key (l3Cache c0) = None ->
                 _getFromL3 now key c0
                 = (None, set_l3Stats c0 (miss (l3Stats c0)))).
  { intros c0 E. unfold _getFromL3. by rewrite E. }
  unfold get.
  destruct (enabled (l1 cfg)), (enabled (l2 cfg)), (enabled (l3 cfg));
    rewrite ?P1, ?P2, ?P3; done.
Qed.

(** X25.  A TTL of more than [TIMEOUT_MAX] milliseconds defeats the
    cache: the timer that [set] arms is due one millisecond after the
    [set], since [setTimeout] replaces such a delay by 1.  Until its
    callback runs a [get] returns the stored data; once it has run the
    key is gone from every level, although [_isExpired] keeps the entry
    for the whole TTL. *)
Theorem long_ttl_dropped_at_once (cfg : cacheConfig) (now now' : Z)
    (key : string) (d : jsdata) (t : num) (c : cache) (z : Z) :
  now <> 0 ->
  enabled (l1 cfg) = true ->
  or_num t (cfg_ttl (l1 cfg)) = Some z ->
  TIMEOUT_MAX < z * 1000 ->
  nodup_levels c ->
  now + 1 <= now' -> now' - now <= z * 1000 ->
  _isExpired now' (Entry d now (Some z) 0) = false
  /\ (get cfg now' key (set cfg now key d t c)).1 = Some d
  /\ background_run [(now + 1, Timeout key)] (set cfg now key d t c)
     = Some (delete key (set cfg now key d t c)).2
  /\ (get cfg now' key (delete key (set cfg now key d t c)).2).1 = None.
Proof.
  intros Hnow E1 Et Hz Hnd Hlo Hhi.
  assert (Hz0 : z <> 0) by (unfold TIMEOUT_MAX in Hz; lia).
  assert (Hfresh : _isExpired now' (Entry d now (Some z) 0) = false).
  { unfold _isExpired. simpl. destruct (Z.eqb_spec z 0) as [|_]; [done|].
    apply Z.ltb_ge. lia. }
  split; [exact Hfresh|]. split.
  { pose proof (set_entries_all cfg now key d t c Hnow) as Hst.
    rewrite Et in Hst.
    apply (get_stored cfg now' key (Entry d now (Some z) 0) _); try done.
    by rewrite E1. }
  assert (Hdue : due (now + 1) key (set cfg now key d t c) = true).
  { rewrite (set_due_armed cfg now (now + 1) key d t c z E1 Et Hz0).
    unfold setTimeout_delay.
    destruct (Z.leb_spec (z * 1000) TIMEOUT_MAX) as [|_]; [lia|].
    rewrite andb_false_r. apply Z.leb_le. lia. }
  split.
  { cbn [background_run background_step]. by rewrite Hdue. }
  apply get_uncached.
  destruct (set_nodup cfg now key d t c Hnd) as (N1 & N2 & N3).
  unfold cached, delete. cbn [snd l1Cache l2Cache l3Cache].
  by rewrite !assoc_has_delete_eq.
Qed.

Lemma long_ttl_dropped_at_once_witness :
  1700000000000 <> 0 /\
  enabled (l1 productionConfig) = true /\
  or_num (Some 3000000) (cfg_ttl (l1 productionConfig)) = Some 3000000 /\
  TIMEOUT_MAX < 3000000 * 1000 /\
  nodup_levels empty /\
  1700000000000 + 1 <= 1700000000050 /\
  1700000000050 - 1700000000000 <= 3000000 * 1000 /\
  (_isExpired 1700000000050
     (Entry (DPlain "body") 1700000000000 (Some 3000000) 0) = false
   /\ (get productionConfig 1700000000050 "rankings:tour:PGA"
         (set productionConfig 1700000000000 "rankings:tour:PGA"
            (DPlain "body") (Some 3000000) empty)).1 = Some (DPlain "body")
   /\ background_run [(1700000000000 + 1, Timeout "rankings:tour:PGA")]
        (set productionConfig 1700000000000 "rankings:tour:PGA"
           (DPlain "body") (Some 3000000) empty)
      = Some (delete "rankings:tour:PGA"
                (set productionConfig 1700000000000 "rankings:tour:PGA"
                   (DPlain "body") (Some 3000000) empty)).2
   /\ (get productionConfig 1700000000050 "rankings:tour:PGA"
         (delete "rankings:tour:PGA"
            (set productionConfig 1700000000000 "rankings:tour:PGA"
               (DPlain "body") (Some 3000000) empty)).2).1 = None).
Proof.
  assert (H1 : 1700000000000 <> 0) by lia.
  assert (H2 : enabled (l1 productionConfig) = true) by reflexivity.
  assert (H3 : or_num (Some 3000000) (cfg_ttl (l1 productionConfig))
               = Some 3000000) by reflexivity.
  assert (H4 : TIMEOUT_MAX < 3000000 * 1000) by (unfold TIMEOUT_MAX; lia).
  assert (H5 : nodup_levels empty) by (split_and!; apply NoDup_nil_2).
  assert (H6 : 1700000000000 + 1 <= 1700000000050) by lia.
  assert (H7 : 1700000000050 - 1700000000000 <= 3000000 * 1000) by lia.
  do 7 (split; [assumption|]).
  exact (long_ttl_dropped_at_once productionConfig 1700000000000
           1700000000050 "rankings:tour:PGA" (DPlain "body") (Some 3000000)
           empty 3000000 H1 H2 H3 H4 H5 H6 H7).
Defined.

(** A TTL above 2,147,483 seconds: [setTimeout] replaces the delay by one
    millisecond, so the timer of [longLived] is due at once, and after
    its callback a read made fifty milliseconds after the [set] misses,
    although the entry has not expired. *)
Example longLived_dropped :
  _isExpired 1700000000050
    (Entry (DPlain "body") 1700000000000 (Some 3000000) 0) = false
  /\ assoc_get "rankings:tour:PGA" (ttlTimers longLived)
     = Some 1700000000001
  /\ (get productionConfig 1700000000050 "rankings:tour:PGA"
        (default empty
           (background_run [(1700000000001, Timeout "rankings:tour:PGA")]
              longLived))).1 = None
  /\ (get productionConfig 1700000000050 "rankings:tour:PGA" longLived).1
     = Some (DPlain "body").
Proof. by vm_compute. Qed.

(** A [set] that arms no timer does not clear an earlier one: the body
    stored without a TTL at 1700000050000 is deleted by the timer of
    the first [set], due sixty seconds after that one. *)
Example storedTwice_dropped :
  assoc_get "rankings:tour:PGA" (ttlTimers storedTwice)
  = Some 1700000060000
  /\ (get noDefaultTtl 1700000059999 "rankings:tour:PGA" storedTwice).1
     = Some (DPlain "new")
  /\ (get noDefaultTtl 1700000061000 "rankings:tour:PGA"
        (default empty
           (background_run [(1700000060000, Timeout "rankings:tour:PGA")]
              storedTwice))).1 = None.
Proof. by vm_compute. Qed.

End CacheBackgroundFacts.

(** ** The session middleware *)

Module SessionMoreFacts.
Import Js Session SessionFacts SessionMore.

Section Middleware.
Variable pbkdf2Sync : string -> bytes -> bytes.
Variable cipher : bytes -> bytes -> bytes -> bytes * bytes.
Variable decipher : bytes -> bytes -> bytes -> bytes -> option bytes.
Variable stringify : sessionData -> bytes.
Variable parse : bytes -> option sessionData.
Variable toBase64 : bytes -> string.
Variable fromBase64 : string -> bytes.

(** On a working installation the token of a record decrypts to it. *)
Lemma decrypt_encrypt (data : sessionData) (masterKey : string)
    (salt iv : bytes) :
  List.length salt = SALT_LENGTH -> List.length iv = IV_LENGTH ->
  List.length
    (cipher (deriveKey pbkdf2Sync masterKey salt) salt (stringify data)).2
  = TAG_LENGTH ->
  decipher (deriveKey pbkdf2Sync masterKey salt) salt
    (cipher (deriveKey pbkdf2Sync masterKey salt) salt (stringify data)).2
    (cipher (deriveKey pbkdf2Sync masterKey salt) salt (stringify data)).1
  = Some (stringify data) ->
  parse (stringify data) = Some data ->
  fromBase64
    (toBase64 (combine pbkdf2Sync cipher stringify data masterKey salt iv))
  = combine pbkdf2Sync cipher stringify data masterKey salt iv ->
  decryptSessionData pbkdf2Sync decipher parse fromBase64
    (encryptSessionData pbkdf2Sync cipher stringify toBase64
       data masterKey salt iv)
    masterKey
  = Session data.
Proof.
  intros Hs Hi Htag Hdec Hparse Hb64.
  unfold decryptSessionData, encryptSessionData. rewrite Hb64.
  unfold combine.
  destruct (cipher _ _ _) as [encrypted tag]. simpl in Htag, Hdec.
  destruct (slices salt iv tag encrypted Hs Hi Htag) as (-> & _ & -> & ->).
  by rewrite Hdec, Hparse.
Qed.

(** X15.  A request that presents the token made for a record is given
    that record back, refreshed, as long as the record is valid at the
    time of the request: same id and creation time, one request more,
    expiry a day after this request, and a new token for it in the
    response.  When the record has expired or is over age, the token is
    cleared and the request gets a new session with a new id and no
    request counted.  The assumptions are those of a working
    installation for the token presented. *)
Theorem sessionManager_own_token (data : sessionData) (key : string)
    (salt0 iv0 : bytes) (isTesting : bool) (now : Z) (uuid : string)
    (salt iv : bytes) (req : request) :
  String.prefix "/health" (path req) = false ->
  truthy_str key = true ->
  extractSessionToken req
  = Some (encryptSessionData pbkdf2Sync cipher stringify toBase64
            data key salt0 iv0) ->
  List.length salt0 = SALT_LENGTH -> List.length iv0 = IV_LENGTH ->
  List.length
    (cipher (deriveKey pbkdf2Sync key salt0) salt0 (stringify data)).2
  = TAG_LENGTH ->
  decipher (deriveKey pbkdf2Sync key salt0) salt0
    (cipher (deriveKey pbkdf2Sync key salt0) salt0 (stringify data)).2
    (cipher (deriveKey pbkdf2Sync key salt0) salt0 (stringify data)).1
  = Some (stringify data) ->
  parse (stringify data) = Some data ->
  fromBase64
    (toBase64 (combine pbkdf2Sync cipher stringify data key salt0 iv0))
  = combine pbkdf2Sync cipher stringify data key salt0 iv0 ->
  sessionManager pbkdf2Sync cipher decipher stringify parse toBase64
    fromBase64 (Some key) isTesting now uuid salt iv req
  = if isSessionValid now data then
      Next (Some (SessionData (id data) (createdAt data) now
                    (now + SESSION_TIMEOUT) (userAgent data)
                    (clientIp data) (preferences data)
                    (Analytics (requestCount (usage data) + 1) now)))
           (setSessionToken isTesting
              (encryptSessionData pbkdf2Sync cipher stringify toBase64
                 (updateSessionAccess now data) key salt iv))
    else
      Next (Some (SessionData uuid now now (now + SESSION_TIMEOUT)
                    (or_default (userAgentHeader req) "unknown")
                    (or_default (ip req) "unknown") [] (Analytics 0 now)))
           (clearSessionToken isTesting
            ++ setSessionToken isTesting
                 (encryptSessionData pbkdf2Sync cipher stringify toBase64
                    (createSessionData now uuid req) key salt iv))%list.
Proof.
  intros Hpath Hkey Htok Hs Hi Htag Hdec Hparse Hb64.
  unfold sessionManager. rewrite Hpath. simpl. rewrite Hkey, Htok.
  rewrite decrypt_encrypt by done.
  by destruct (isSessionValid now data).
Qed.
End Middleware.

(** *** The lifetime of a session *)

Lemma isSessionValid_iff now d :
  truthy_str (id d) = true -> 0 < createdAt d -> 0 < expiresAt d ->
  isSessionValid now d = true
  <-> now < expiresAt d /\ now <= createdAt d + maxAge.
Proof.
  intros Hid Hc He. unfold isSessionValid. rewrite Hid. simpl.
  destruct (Z.eqb_spec (createdAt d) 0) as [? | _]; [lia|].
  destruct (Z.eqb_spec (expiresAt d) 0) as [? | _]; [lia|]. simpl.
  destruct (Z.leb_spec (expiresAt d) now);
    destruct (Z.ltb_spec maxAge (now - createdAt d));
    split; try done; lia.
Qed.

Lemma renew_spec d times d' :
  truthy_str (id d) = true -> 0 < createdAt d -> 0 < lastAccessedAt d ->
  expiresAt d = lastAccessedAt d + SESSION_TIMEOUT ->
  Forall (fun t => 0 < t) times ->
  renew d times = Some d'
  <-> in_time (lastAccessedAt d) times
      /\ Forall (fun t => t <= createdAt d + maxAge) times
      /\ d' = SessionData (id d) (createdAt d)
                (List.last times (lastAccessedAt d))
                (List.last times (lastAccessedAt d) + SESSION_TIMEOUT)
                (userAgent d) (clientIp d) (preferences d)
                (Analytics
                   (requestCount (usage d) + Z.of_nat (List.length times))
                   (List.last times (lastRequestAt (usage d)))).
Proof.
  intros Hid Hc Hl He Hpos. revert d Hid Hc Hl He.
  induction Hpos as [|t times Ht Hpos IH]; intros d Hid Hc Hl He.
  - simpl. destruct d as [i c l e ua ip p [rc lr]]. simpl in *. subst e.
    rewrite Z.add_0_r. split.
    + intros [= <-]. split_and!; done.
    + intros (_ & _ & ->). done.
  - cbn [renew in_time].
    assert (He' : 0 < expiresAt d) by (unfold SESSION_TIMEOUT in He; lia).
    pose proof (isSessionValid_iff t d Hid Hc He') as Hv.
    rewrite !(ServiceMoreFacts.last_cons_default times t).
    rewrite Forall_cons.
    destruct (isSessionValid t d).
    + destruct Hv as [[Hv1 Hv2] _]; [done|].
      rewrite (IH (updateSessionAccess t d)) by done. simpl.
      rewrite <- He.
      replace (requestCount (usage d) + 1 + Z.of_nat (List.length times))
        with (requestCount (usage d)
              + Z.of_nat (S (List.length times))) by lia.
      tauto.
    + split; [done|]. intros ([Hlt _] & [Hle _] & _).
      rewrite <- He in Hlt.
      destruct Hv as [_ Hv]. by specialize (Hv (conj Hlt Hle)).
Qed.

(** X16.  Requests keep a session alive as long as each one comes less
    than a day after the one before and none comes more than seven days
    after the session was created: exactly then every request of the
    run is answered with the same session, which counts the requests;
    no amount of activity carries a session past its seventh day. *)
Theorem session_lifetime (t0 : Z) (uuid : string) (req : request)
    (times : list Z) (d' : sessionData) :
  0 < t0 -> uuid <> "" -> Forall (fun t => 0 < t) times ->
  renew (createSessionData t0 uuid req) times = Some d'
  <-> in_time t0 times
      /\ Forall (fun t => t <= t0 + maxAge) times
      /\ d' = SessionData uuid t0 (List.last times t0)
                (List.last times t0 + SESSION_TIMEOUT)
                (or_default (userAgentHeader req) "unknown")
                (or_default (ip req) "unknown") []
                (Analytics (Z.of_nat (List.length times))
                   (List.last times t0)).
Proof.
  intros Ht0 Hid Hpos.
  apply (renew_spec (createSessionData t0 uuid req) times d'); try done.
  by destruct uuid.
Qed.

Import Instance.

Lemma sessionManager_own_token_witness :
  String.prefix "/health" (path returning) = false /\
  truthy_str masterKey = true /\
  extractSessionToken returning
  = Some (encryptSessionData pbkdf2Sync cipher stringify Base64.encode
            sample masterKey salt iv) /\
  List.length salt = SALT_LENGTH /\ List.length iv = IV_LENGTH /\
  List.length
    (cipher (deriveKey pbkdf2Sync masterKey salt) salt (stringify sample)).2
  = TAG_LENGTH /\
  decipher (deriveKey pbkdf2Sync masterKey salt) salt
    (cipher (deriveKey pbkdf2Sync masterKey salt) salt (stringify sample)).2
    (cipher (deriveKey pbkdf2Sync masterKey salt) salt (stringify sample)).1
  = Some (stringify sample) /\
  parse (stringify sample) = Some sample /\
  Base64.decode
    (Base64.encode
       (combine pbkdf2Sync cipher stringify sample masterKey salt iv))
  = combine pbkdf2Sync cipher stringify sample masterKey salt iv /\
  sessionManager pbkdf2Sync cipher decipher stringify parse Base64.encode
    Base64.decode (Some masterKey) false 1700000100000
    "0b7c2a9e-5d1f-4e3a-9c8b-6f4d2e1a0b9c" salt iv' returning
  = if isSessionValid 1700000100000 sample then
      Next (Some (SessionData (id sample) (createdAt sample) 1700000100000
                    (1700000100000 + SESSION_TIMEOUT) (userAgent sample)
                    (clientIp sample) (preferences sample)
                    (Analytics (requestCount (usage sample) + 1)
                       1700000100000)))
           (setSessionToken false
              (encryptSessionData pbkdf2Sync cipher stringify
                 Base64.encode
                 (updateSessionAccess 1700000100000 sample) masterKey
                 salt iv'))
    else
      Next (Some (SessionData "0b7c2a9e-5d1f-4e3a-9c8b-6f4d2e1a0b9c"
                    1700000100000 1700000100000
                    (1700000100000 + SESSION_TIMEOUT)
                    (or_default (userAgentHeader returning) "unknown")
                    (or_default (ip returning) "unknown") []
                    (Analytics 0 1700000100000)))
           (clearSessionToken false
            ++ setSessionToken false
                 (encryptSessionData pbkdf2Sync cipher stringify
                    Base64.encode
                    (createSessionData 1700000100000
                       "0b7c2a9e-5d1f-4e3a-9c8b-6f4d2e1a0b9c" returning)
                    masterKey salt iv'))%list.
Proof.
  assert (H1 : String.prefix "/health" (path returning) = false)
    by reflexivity.
  assert (H2 : truthy_str masterKey = true) by reflexivity.
  assert (H3 : extractSessionToken returning
               = Some (encryptSessionData pbkdf2Sync cipher stringify
                         Base64.encode sample masterKey salt iv))
    by reflexivity.
  assert (H4 : List.length salt = SALT_LENGTH) by reflexivity.
  assert (H5 : List.length iv = IV_LENGTH) by reflexivity.
  assert (H6 : List.length
                 (cipher (deriveKey pbkdf2Sync masterKey salt) salt
                    (stringify sample)).2 = TAG_LENGTH)
    by (vm_compute; reflexivity).
  assert (H7 : decipher (deriveKey pbkdf2Sync masterKey salt) salt
                 (cipher (deriveKey pbkdf2Sync masterKey salt) salt
                    (stringify sample)).2
                 (cipher (deriveKey pbkdf2Sync masterKey salt) salt
                    (stringify sample)).1
               = Some (stringify sample))
    by (vm_compute; reflexivity).
  assert (H8 : parse (stringify sample) = Some sample)
    by (vm_compute; reflexivity).
  assert (H9 : Base64.decode
                 (Base64.encode
                    (combine pbkdf2Sync cipher stringify sample masterKey
                       salt iv))
               = combine pbkdf2Sync cipher stringify sample masterKey
                   salt iv)
    by (vm_compute; reflexivity).
  repeat (split; [assumption|]).
  exact (sessionManager_own_token pbkdf2Sync cipher decipher stringify
           parse Base64.encode Base64.decode sample masterKey salt iv
           false 1700000100000 "0b7c2a9e-5d1f-4e3a-9c8b-6f4d2e1a0b9c"
           salt iv' returning H1 H2 H3 H4 H5 H6 H7 H8 H9).
Defined.

Lemma session_lifetime_witness :
  0 < 1700000000000 /\ "3f2b8c1e" <> "" /\
  Forall (fun t => 0 < t) [1700050000000; 1700100000000] /\
  (renew (createSessionData 1700000000000 "3f2b8c1e" returning)
     [1700050000000; 1700100000000]
   = Some (SessionData "3f2b8c1e" 1700000000000 1700100000000
             (1700100000000 + SESSION_TIMEOUT) "Mozilla/5.0" "203.0.113.7"
             [] (Analytics 2 1700100000000))
   <-> in_time 1700000000000 [1700050000000; 1700100000000]
       /\ Forall (fun t => t <= 1700000000000 + maxAge)
            [1700050000000; 1700100000000]
       /\ SessionData "3f2b8c1e" 1700000000000 1700100000000
            (1700100000000 + SESSION_TIMEOUT) "Mozilla/5.0" "203.0.113.7"
            [] (Analytics 2 1700100000000)
          = SessionData "3f2b8c1e" 1700000000000
              (List.last [1700050000000; 1700100000000] 1700000000000)
              (List.last [1700050000000; 1700100000000] 1700000000000
               + SESSION_TIMEOUT)
              (or_default (userAgentHeader returning) "unknown")
              (or_default (ip returning) "unknown") []
              (Analytics
                 (Z.of_nat (List.length [1700050000000; 1700100000000]))
                 (List.last [1700050000000; 1700100000000]
                    1700000000000))).
Proof.
  assert (H1 : 0 < 1700000000000) by lia.
  assert (H2 : "3f2b8c1e" <> "") by discriminate.
  assert (H3 : Forall (fun t => 0 < t) [1700050000000; 1700100000000])
    by (repeat constructor).
  repeat (split; [assumption|]).
  exact (session_lifetime 1700000000000 "3f2b8c1e" returning
           [1700050000000; 1700100000000] _ H1 H2 H3).
Defined.

(** Eight days of daily use: the request of the eighth day is answered
    with a new session. *)
Example eighth_day :
  renew (createSessionData 1700000000000 "3f2b8c1e" returning)
    ((fun k => 1700000000000 + k * 80000000) <$> [1; 2; 3; 4; 5; 6; 7])
  <> None
  /\ renew (createSessionData 1700000000000 "3f2b8c1e" returning)
       ((fun k => 1700000000000 + k * 80000000)
          <$> [1; 2; 3; 4; 5; 6; 7; 8])
     = None.
Proof. split; [vm_compute; discriminate | reflexivity]. Qed.

End SessionMoreFacts.

(** ** The pipeline and the cache together *)

Module ServiceCacheFacts.
Import Js Service ServiceFacts ServiceCache.

Lemma begin_closed cfg now key s :
  Breaker.cb_state (circuitBreaker s) = Breaker.CLOSED ->
  Z.of_nat (List.length (requests (limiter s))) < maxRequests (limiter s) ->
  begin cfg now key true s
  = (AwaitGet (Cache.get cfg now key (cache s)).1,
     ServiceState (Cache.get cfg now key (cache s)).2 (circuitBreaker s)
       (_checkRateLimit now (limiter s)).2
       (Metrics (totalRequests (stats s) + 1) (cacheHits (stats s))
          (cacheMisses (stats s)) (errors (stats s)) (Some now))).
Proof.
  intros Hb Hroom. unfold begin.
  cbn [with_stats limiter stats cache circuitBreaker].
  destruct (_checkRateLimit_allowed now (limiter s) Hroom) as (Ha & _).
  destruct (_checkRateLimit now (limiter s)) as [allowed rl].
  simpl in Ha. subst allowed. simpl.
  unfold Breaker._checkCircuitBreaker. rewrite Hb. simpl.
  by destruct (Cache.get cfg now key (cache s)) as [cached c'].
Qed.

(** A caller that misses the cache, fetches, stores and returns. *)
Lemma fetch_round cfg key t body s tasks0 t1 t1' t2 t2' :
  Breaker.cb_state (circuitBreaker s) = Breaker.CLOSED ->
  Z.of_nat (List.length (requests (limiter s))) < maxRequests (limiter s) ->
  (Cache.get cfg t1 key (cache s)).1 = None ->
  run cfg [ (t1, Call key true t); (t1', Resume (List.length tasks0));
            (t2, Respond (List.length tasks0) (Client.Resolved body));
            (t2', Resume (List.length tasks0)) ] (System s tasks0)
  = System
      (ServiceState
         (Cache.set cfg t2 key (Cache.DPlain body) t
            (Cache.get cfg t1 key (cache s)).2)
         (Breaker._recordSuccess (circuitBreaker s))
         (_checkRateLimit t1 (limiter s)).2
         (Metrics (totalRequests (stats s) + 1) (cacheHits (stats s))
            (cacheMisses (stats s) + 1) (errors (stats s)) (Some t1)))
      (tasks0 ++ [Task key true t (Returned (Cache.DPlain body))])%list.
Proof.
  intros Hb Hroom Hmiss. unfold run. cbn [fold_left fst snd].
  cbn [step svc tasks]. rewrite begin_closed by done. rewrite Hmiss.
  cbn [svc tasks]. rewrite list_lookup_middle by done.
  unfold settle, succeeded, afterGet, afterFetch.
  cbn -[Cache.get Cache.set _checkRateLimit Breaker._recordSuccess
        insert lookup].
  rewrite insert_last. rewrite list_lookup_middle by done.
  unfold settle, succeeded, afterGet, afterFetch.
  cbn -[Cache.get Cache.set _checkRateLimit Breaker._recordSuccess
        insert lookup].
  rewrite insert_last. rewrite list_lookup_middle by done.
  unfold settle, succeeded, afterGet, afterFetch.
  cbn -[Cache.get Cache.set _checkRateLimit Breaker._recordSuccess
        insert lookup].
  by rewrite insert_last.
Qed.

(** A caller that finds the key in the cache. *)
Lemma hit_round cfg key t d s tasks0 t3 t3' :
  Breaker.cb_state (circuitBreaker s) = Breaker.CLOSED ->
  Z.of_nat (List.length (requests (limiter s))) < maxRequests (limiter s) ->
  (Cache.get cfg t3 key (cache s)).1 = Some d ->
  step cfg t3 (Call key true t) (System s tasks0)
  = System
      (ServiceState (Cache.get cfg t3 key (cache s)).2 (circuitBreaker s)
         (_checkRateLimit t3 (limiter s)).2
         (Metrics (totalRequests (stats s) + 1) (cacheHits (stats s))
            (cacheMisses (stats s)) (errors (stats s)) (Some t3)))
      (tasks0 ++ [Task key true t (AwaitGet (Some d))])%list
  /\ run cfg [ (t3, Call key true t); (t3', Resume (List.length tasks0)) ]
       (System s tasks0)
     = System
         (ServiceState (Cache.get cfg t3 key (cache s)).2
            (Breaker._recordSuccess (circuitBreaker s))
            (_checkRateLimit t3 (limiter s)).2
            (Metrics (totalRequests (stats s) + 1) (cacheHits (stats s) + 1)
               (cacheMisses (stats s)) (errors (stats s)) (Some t3)))
         (tasks0 ++ [Task key true t (Returned d)])%list.
Proof.
  intros Hb Hroom Hhit. unfold run. cbn [fold_left fst snd].
  cbn [step svc tasks]. rewrite begin_closed by done. rewrite Hhit.
  split; [done|].
  cbn [svc tasks]. rewrite list_lookup_middle by done.
  unfold settle, succeeded, afterGet, afterFetch.
  cbn -[Cache.get Cache.set _checkRateLimit Breaker._recordSuccess
        insert lookup].
  by rewrite insert_last.
Qed.

(** X17.  What one caller fetched, the next one gets from the cache: when
    a caller has missed the cache, fetched a body and stored it, a later
    caller for the same key, arriving before the entry expires and
    before the TTL timer of the key is due, is handed that body by its
    cache lookup and returns it without an upstream call, whichever
    callbacks of the cache (timers of other keys, the periodic sweep)
    ran in between; the metrics count one miss and one hit. *)
Theorem second_caller_served_from_cache (cfg : Cache.cacheConfig)
    (key body : string) (t t' : Cache.num) (s : service)
    (tasks0 : list task) (t1 t1' t2 t2' t3 t3' : Z)
    (bs : list (Z * CacheMore.background)) (sys : system) :
  Breaker.cb_state (circuitBreaker s) = Breaker.CLOSED ->
  Z.of_nat (List.length (requests (limiter s))) + 2
  <= maxRequests (limiter s) ->
  CacheMore.nodup_levels (cache s) ->
  (Cache.get cfg t1 key (cache s)).1 = None ->
  t2 <> 0 ->
  Cache.enabled (Cache.l1 cfg) || Cache.enabled (Cache.l2 cfg)
  || Cache.enabled (Cache.l3 cfg) = true ->
  Cache._isExpired t3
    (Cache.Entry (Cache.DPlain body) t2
       (Cache.or_num t (Cache.cfg_ttl (Cache.l1 cfg))) 0) = false ->
  CacheMore.due t3 key
    (cache (svc (run cfg
                   (fetches key t (List.length tasks0) body t1 t1' t2 t2')
                   (System s tasks0)))) = false ->
  Forall (fun b => b.1 <= t3) bs ->
  background bs
    (run cfg (fetches key t (List.length tasks0) body t1 t1' t2 t2')
       (System s tasks0)) = Some sys ->
  at_ <$> tasks (run cfg [ (t3, Call key true t') ] sys)
          !! S (List.length tasks0)
  = Some (AwaitGet (Some (Cache.DPlain body)))
  /\ at_ <$> tasks
       (run cfg [ (t3, Call key true t');
                  (t3', Resume (S (List.length tasks0))) ] sys)
       !! S (List.length tasks0)
     = Some (Returned (Cache.DPlain body))
  /\ cacheMisses
       (stats (svc
          (run cfg [ (t3, Call key true t');
                     (t3', Resume (S (List.length tasks0))) ] sys)))
     = cacheMisses (stats s) + 1
  /\ cacheHits
       (stats (svc
          (run cfg [ (t3, Call key true t');
                     (t3', Resume (S (List.length tasks0))) ] sys)))
     = cacheHits (stats s) + 1.
Proof.
  intros Hb Hroom Hnd Hmiss Ht2 Hen Hfresh Hdue Hbs Hbg.
  assert (Hroom1 : Z.of_nat (List.length (requests (limiter s)))
                   < maxRequests (limiter s)) by lia.
  destruct (_checkRateLimit_allowed t1 (limiter s) Hroom1)
    as (_ & Hmax & Hlen).
  pose proof (fetch_round cfg key t body s tasks0 t1 t1' t2 t2'
                Hb Hroom1 Hmiss) as Hround.
  unfold fetches in Hdue, Hbg. rewrite Hround in Hdue, Hbg. clear Hround.
  unfold background in Hbg. cbn [svc cache tasks circuitBreaker limiter stats]
    in Hdue, Hbg.
  destruct (CacheMore.background_run bs _) as [c'|] eqn:Hrun; [|done].
  injection Hbg as <-.
  set (s1 := ServiceState c' _ _ _).
  set (tasks1 := (tasks0 ++ [_])%list).
  assert (Hn : List.length tasks1 = S (List.length tasks0)).
  { unfold tasks1. rewrite length_app. simpl. lia. }
  assert (Hb1 : Breaker.cb_state (circuitBreaker s1) = Breaker.CLOSED).
  { unfold s1. simpl. unfold Breaker._recordSuccess. by rewrite Hb. }
  assert (Hroom2 : Z.of_nat (List.length (requests (limiter s1)))
                   < maxRequests (limiter s1)).
  { unfold s1. simpl. rewrite Hmax. lia. }
  assert (Hhit : (Cache.get cfg t3 key (cache s1)).1
                 = Some (Cache.DPlain body)).
  { unfold s1. simpl.
    apply (CacheBackgroundFacts.get_set_background cfg t2 t3 key
             (Cache.DPlain body) t (Cache.get cfg t1 key (cache s)).2 bs c');
      try done.
    by apply CacheBackgroundFacts.get_nodup. }
  destruct (hit_round cfg key t' (Cache.DPlain body) s1 tasks1 t3 t3'
              Hb1 Hroom2 Hhit) as [Hcall Hboth].
  rewrite Hn in Hboth.
  assert (E5 : run cfg [ (t3, Call key true t') ] (System s1 tasks1)
               = step cfg t3 (Call key true t') (System s1 tasks1))
    by reflexivity.
  rewrite E5, Hcall, Hboth. cbn [tasks svc stats].
  rewrite <- Hn. rewrite !list_lookup_middle by done.
  split_and!; done.
Qed.

Lemma second_caller_served_from_cache_witness :
  Breaker.cb_state (circuitBreaker initial) = Breaker.CLOSED /\
  Z.of_nat (List.length (requests (limiter initial))) + 2
  <= maxRequests (limiter initial) /\
  CacheMore.nodup_levels (cache initial) /\
  (Cache.get Cache.productionConfig 1000 "scoring:tournamentId:14"
     (cache initial)).1 = None /\
  1500 <> 0 /\
  Cache.enabled (Cache.l1 Cache.productionConfig)
  || Cache.enabled (Cache.l2 Cache.productionConfig)
  || Cache.enabled (Cache.l3 Cache.productionConfig) = true /\
  Cache._isExpired 20000
    (Cache.Entry (Cache.DPlain "leaderboard") 1500
       (Cache.or_num (Some 30)
          (Cache.cfg_ttl (Cache.l1 Cache.productionConfig))) 0) = false /\
  CacheMore.due 20000 "scoring:tournamentId:14"
    (cache (svc (run Cache.productionConfig
                   (fetches "scoring:tournamentId:14" (Some 30)
                      (List.length (@nil task)) "leaderboard"
                      1000 1001 1500 1501)
                   (System initial [])))) = false /\
  Forall (fun b => b.1 <= 20000) [(10000, CacheMore.Cleanup)] /\
  background [(10000, CacheMore.Cleanup)]
    (run Cache.productionConfig
       (fetches "scoring:tournamentId:14" (Some 30)
          (List.length (@nil task)) "leaderboard" 1000 1001 1500 1501)
       (System initial [])) = Some afterFirstCaller /\
  (at_ <$> tasks
     (run Cache.productionConfig
        [ (20000, Call "scoring:tournamentId:14" true (Some 30)) ]
        afterFirstCaller)
     !! S (List.length (@nil task))
   = Some (AwaitGet (Some (Cache.DPlain "leaderboard")))
   /\ at_ <$> tasks
        (run Cache.productionConfig
           [ (20000, Call "scoring:tournamentId:14" true (Some 30));
             (20001, Resume (S (List.length (@nil task)))) ]
           afterFirstCaller)
        !! S (List.length (@nil task))
      = Some (Returned (Cache.DPlain "leaderboard"))
   /\ cacheMisses
        (stats (svc
           (run Cache.productionConfig
              [ (20000, Call "scoring:tournamentId:14" true (Some 30));
                (20001, Resume (S (List.length (@nil task)))) ]
              afterFirstCaller)))
      = cacheMisses (stats initial) + 1
   /\ cacheHits
        (stats (svc
           (run Cache.productionConfig
              [ (20000, Call "scoring:tournamentId:14" true (Some 30));
                (20001, Resume (S (List.length (@nil task)))) ]
              afterFirstCaller)))
      = cacheHits (stats initial) + 1).
Proof.
  assert (H1 : Breaker.cb_state (circuitBreaker initial) = Breaker.CLOSED)
    by reflexivity.
  assert (H2 : Z.of_nat (List.length (requests (limiter initial))) + 2
               <= maxRequests (limiter initial)) by (vm_compute; discriminate).
  assert (H2' : CacheMore.nodup_levels (cache initial)).
  { split_and!; apply NoDup_nil_2. }
  assert (H3 : (Cache.get Cache.productionConfig 1000
                  "scoring:tournamentId:14" (cache initial)).1 = None)
    by reflexivity.
  assert (H4 : 1500 <> 0) by lia.
  assert (H5 : Cache.enabled (Cache.l1 Cache.productionConfig)
               || Cache.enabled (Cache.l2 Cache.productionConfig)
               || Cache.enabled (Cache.l3 Cache.productionConfig) = true)
    by reflexivity.
  assert (H6 : Cache._isExpired 20000
                 (Cache.Entry (Cache.DPlain "leaderboard") 1500
                    (Cache.or_num (Some 30)
                       (Cache.cfg_ttl (Cache.l1 Cache.productionConfig))) 0)
               = false) by reflexivity.
  assert (H7 : CacheMore.due 20000 "scoring:tournamentId:14"
                 (cache (svc (run Cache.productionConfig
                   (fetches "scoring:tournamentId:14" (Some 30)
                      (List.length (@nil task)) "leaderboard"
                      1000 1001 1500 1501)
                   (System initial [])))) = false) by reflexivity.
  assert (H8 : Forall (fun b : Z * CacheMore.background => b.1 <= 20000)
                 [(10000, CacheMore.Cleanup)]).
  { apply Forall_cons_2; [simpl; lia | apply Forall_nil_2]. }
  assert (H9 : background [(10000, CacheMore.Cleanup)]
                 (run Cache.productionConfig
                    (fetches "scoring:tournamentId:14" (Some 30)
                       (List.length (@nil task)) "leaderboard"
                       1000 1001 1500 1501)
                    (System initial [])) = Some afterFirstCaller)
    by reflexivity.
  do 10 (split; [assumption|]).
  exact (second_caller_served_from_cache Cache.productionConfig
           "scoring:tournamentId:14" "leaderboard" (Some 30) (Some 30)
           initial [] 1000 1001 1500 1501 20000 20001
           [(10000, CacheMore.Cleanup)] afterFirstCaller
           H1 H2 H2' H3 H4 H5 H6 H7 H8 H9).
Defined.

(** Once the timer has run, the later caller misses: with a TTL of
    thirty seconds the timer is due at 31500, and a caller at 40000 who
    arrives after its callback fetches again. *)
Example second_caller_after_timer :
  CacheMore.due 40000 "scoring:tournamentId:14"
    (cache (svc (run Cache.productionConfig
                   (fetches "scoring:tournamentId:14" (Some 30) 0
                      "leaderboard" 1000 1001 1500 1501)
                   (System initial [])))) = true
  /\ (at_ <$> tasks
        (run Cache.productionConfig
           [ (40000, Call "scoring:tournamentId:14" true (Some 30)) ]
           (default boot
              (background
                 [(31500, CacheMore.Timeout "scoring:tournamentId:14")]
                 (run Cache.productionConfig
                    (fetches "scoring:tournamentId:14" (Some 30) 0
                       "leaderboard" 1000 1001 1500 1501)
                    (System initial [])))))
        !! 1%nat)
     = Some (AwaitGet None).
Proof. split; reflexivity. Qed.

End ServiceCacheFacts.

(** ** The invalidation of the service *)

Module ServiceCacheMoreFacts.
Import Js JsFacts CacheKey CacheKeyFacts Cache CacheMore CacheMoreFacts
       ServiceCache.

Lemma prefix_append (a b : string) : String.prefix a (a ++ b) = true.
Proof.
  induction a as [|x a IH]; simpl; [by destruct b|].
  destruct (Ascii.ascii_dec x x); done.
Qed.

Lemma assoc_get_unmatched test (m : list (string * loc)) k :
  test k = false -> assoc_get k (unmatched test m) = assoc_get k m.
Proof.
  intros Hk. unfold unmatched.
  induction m as [|[k0 v0] m IH]; [done|].
  rewrite filter_cons. simpl.
  destruct (String.eqb_spec k k0) as [-> | Hne].
  - rewrite decide_True by done. simpl. by rewrite String.eqb_refl.
  - destruct (decide (test k0 = false)); simpl; [|done].
    destruct (String.eqb_spec k k0); done.
Qed.

Lemma cached_unmatched test c c' k :
  l1Cache c' = unmatched test (l1Cache c) ->
  l2Cache c' = unmatched test (l2Cache c) ->
  l3Cache c' = unmatched test (l3Cache c) ->
  test k = true -> cached k c' = false.
Proof.
  intros H1 H2 H3 Hk. unfold cached. rewrite H1, H2, H3.
  by rewrite !unmatched_has.
Qed.

Lemma generateKey_registered pattern b p :
  assoc_get pattern keyPatterns = Some b -> truthy_str b = true ->
  generateKey pattern p
  = Key (if truthy_str (paramString p) then b ++ paramString p
         else slice_0_m1 b).
Proof.
  intros Hb Ht. unfold generateKey, resolve. rewrite Hb, Ht.
  by destruct (truthy_str (paramString p)).
Qed.

(** One endpoint: its registered base, and the prefix that its data type
    invalidates. *)
Lemma invalidateCache_endpoint pattern dataType stem c p k :
  assoc_get pattern keyPatterns = Some (stem ++ ":") ->
  pattern_test dataType = Some (String.prefix (stem ++ ":")) ->
  String.prefix (stem ++ ":") stem = false ->
  nodup_levels c -> generateKey pattern p = Key k ->
  exists r, invalidateCache dataType c = Some r
    /\ (p <> [] -> cached k r.2 = false)
    /\ (p = [] ->
        k = stem
        /\ assoc_get k (l1Cache r.2) = assoc_get k (l1Cache c)
        /\ assoc_get k (l2Cache r.2) = assoc_get k (l2Cache c)
        /\ assoc_get k (l3Cache r.2) = assoc_get k (l3Cache c)).
Proof.
  intros Hb Htest Hbare Hnd Hk.
  rewrite (generateKey_registered pattern (stem ++ ":")) in Hk;
    [|done | by destruct stem].
  unfold invalidateCache. rewrite Htest.
  destruct (invalidateByPattern_spec (String.prefix (stem ++ ":")) c Hnd)
    as (_ & P1 & P2 & P3 & _).
  exists (invalidateByPattern (Some (String.prefix (stem ++ ":"))) c).
  split; [reflexivity|]. split.
  - intros Hp. destruct p as [|[k0 v0] p]; [done|].
    rewrite (paramString_truthy _ k0) in Hk
      by (simpl; apply elem_of_cons; by left).
    injection Hk as <-.
    eapply cached_unmatched; [done..|]. apply prefix_append.
  - intros ->. rewrite paramString_empty in Hk. simpl in Hk.
    rewrite slice_strips_last in Hk. injection Hk as <-.
    rewrite P1, P2, P3. by rewrite !assoc_get_unmatched.
Qed.

(** X18.  The invalidation of a data type reaches the entries whose key
    carries parameters and spares the entry of the request without
    parameters: [generateKey] gives that request the bare stem (as
    [tournament]), which the pattern of the data type (as
    [^tournament:]) does not match, so the entry stays in every level
    that held it. *)
Theorem invalidateCache_spares_bare_key :
  Forall (fun e =>
            forall (c : cache) (p : params) (k : string),
              nodup_levels c -> generateKey e.1 p = Key k ->
              exists r, invalidateCache e.2 c = Some r
                /\ (p <> [] -> cached k r.2 = false)
                /\ (p = [] ->
                    assoc_get k (l1Cache r.2) = assoc_get k (l1Cache c)
                    /\ assoc_get k (l2Cache r.2) = assoc_get k (l2Cache c)
                    /\ assoc_get k (l3Cache r.2) = assoc_get k (l3Cache c)))
         endpoints.
Proof.
  assert (H : forall pattern dataType stem,
             assoc_get pattern keyPatterns = Some (stem ++ ":") ->
             pattern_test dataType = Some (String.prefix (stem ++ ":")) ->
             String.prefix (stem ++ ":") stem = false ->
             forall (c : cache) (p : params) (k : string),
               nodup_levels c -> generateKey pattern p = Key k ->
               exists r, invalidateCache dataType c = Some r
                 /\ (p <> [] -> cached k r.2 = false)
                 /\ (p = [] ->
                     assoc_get k (l1Cache r.2) = assoc_get k (l1Cache c)
                     /\ assoc_get k (l2Cache r.2) = assoc_get k (l2Cache c)
                     /\ assoc_get k (l3Cache r.2)
                        = assoc_get k (l3Cache c))).
  { intros pattern dataType stem Hb Ht Hs c p k Hnd Hk.
    destruct (invalidateCache_endpoint pattern dataType stem c p k
                Hb Ht Hs Hnd Hk) as (r & Hr & Hfull & Hbare).
    exists r. split_and!; [done | done |]. intros Hp.
    by destruct (Hbare Hp) as (_ & ? & ? & ?). }
  unfold endpoints.
  repeat (apply List.Forall_cons); try apply List.Forall_nil.
  - intros c p k. by apply (H "tournament" "tournaments" "tournament").
  - intros c p k. by apply (H "rankings" "rankings" "rankings").
  - intros c p k. by apply (H "field" "field" "field").
  - intros c p k. by apply (H "scoring" "scoring" "scoring").
  - intros c p k. by apply (H "playerStats" "playerStats" "player-stats").
  - intros c p k. by apply (H "bettingOdds" "bettingOdds" "betting-odds").
Qed.

(** After [DELETE /cache/tournaments] the list cached for
    [GET /tournaments] is still served. *)
Example bare_tournament_key_survives :
  generateKey "tournament" [] = Key "tournament"
  /\ (keys ∘ l1Cache ∘ snd) <$> invalidateCache "tournaments"
                                   twoTournamentKeys
     = Some ["tournament"]
  /\ fst <$> invalidateCache "tournaments" twoTournamentKeys = Some 1.
Proof. repeat split; reflexivity. Qed.

End ServiceCacheMoreFacts.

(** ** More of the cache keys *)

Module CacheKeyMoreFacts.
Import Js JsFacts CacheKey CacheKeyFacts.

Lemma merge_sort_pair (k1 k2 : string) :
  String.le k1 k2 -> merge_sort String.le [k1; k2] = [k1; k2].
Proof.
  intros Hle. apply (Sorted_unique String.le).
  - apply Sorted_merge_sort, _.
  - by repeat constructor.
  - by rewrite merge_sort_Permutation.
Qed.

Lemma paramString_pair (k1 k2 : string) (v1 v2 : pvalue) :
  k1 <> k2 -> String.le k1 k2 ->
  paramString [(k1, v1); (k2, v2)]
  = k1 ++ ":" ++ to_display v1 ++ "|" ++ k2 ++ ":" ++ to_display v2.
Proof.
  intros Hne Hle. unfold paramString. simpl fmap.
  rewrite merge_sort_pair by done. unfold render. simpl.
  rewrite String.eqb_refl.
  destruct (String.eqb_spec k2 k1) as [-> | _]; [done|].
  rewrite String.eqb_refl.
  by rewrite !append_assoc.
Qed.

Lemma paramString_single (k : string) (v : pvalue) :
  paramString [(k, v)] = k ++ ":" ++ to_display v.
Proof.
  unfold paramString. simpl. unfold render. simpl.
  by rewrite String.eqb_refl.
Qed.

(** X19.  The key does not tell the parameters apart from their text: a
    value that contains the separators stands for further parameters.
    The bag with the one parameter [k1 = v1|k2:v2] and the bag with the
    two parameters [k1 = v1] and [k2 = v2] get the same cache key, for
    every pattern. *)
Theorem generateKey_separator_collision (pattern k1 k2 v1 v2 : string) :
  k1 <> k2 -> String.le k1 k2 ->
  generateKey pattern [(k1, PStr (v1 ++ "|" ++ k2 ++ ":" ++ v2))]
  = generateKey pattern [(k1, PStr v1); (k2, PStr v2)].
Proof.
  intros Hne Hle. unfold generateKey.
  by rewrite paramString_single, paramString_pair.
Qed.

Lemma generateKey_separator_collision_witness :
  "season" <> "tour" /\ String.le "season" "tour" /\
  generateKey "rankings"
    [("season", PStr ("2024" ++ "|" ++ "tour" ++ ":" ++ "PGA"))]
  = generateKey "rankings" [("season", PStr "2024"); ("tour", PStr "PGA")].
Proof.
  assert (H1 : "season" <> "tour") by discriminate.
  assert (H2 : String.le "season" "tour") by (vm_compute; exact I).
  repeat (split; [assumption|]).
  exact (generateKey_separator_collision "rankings" "season" "tour"
           "2024" "PGA" H1 H2).
Defined.

(** *** Keys of clean bags *)

Import CacheKeyMore.

Lemma has_char_append c (a b : string) :
  has_char c (a ++ b) = has_char c a || has_char c b.
Proof.
  induction a as [|x a IH]; [done|].
  change (Ascii.eqb x c || has_char c (a ++ b)
          = Ascii.eqb x c || has_char c a || has_char c b).
  rewrite IH. by destruct (Ascii.eqb x c).
Qed.

Lemma has_char_head c (r : string) : has_char c (String c r) = true.
Proof. simpl. by rewrite Ascii.eqb_refl. Qed.

Lemma has_char_cut c (x r : string) : has_char c (x ++ String c r) = true.
Proof. by rewrite has_char_append, has_char_head, orb_true_r. Qed.

(** A text is cut in one way only at the first occurrence of a
    character. *)
Lemma split_unique c (x x' r r' : string) :
  has_char c x = false -> has_char c x' = false ->
  x ++ String c r = x' ++ String c r' -> x = x' /\ r = r'.
Proof.
  revert x'. induction x as [|a x IH]; intros [|a' x'] Hx Hx' Heq.
  - by injection Heq as ->.
  - injection Heq as <- _. by rewrite has_char_head in Hx'.
  - injection Heq as -> _. by rewrite has_char_head in Hx.
  - injection Heq as <- Heq. simpl in Hx, Hx'.
    apply orb_false_iff in Hx as [_ Hx].
    apply orb_false_iff in Hx' as [_ Hx'].
    destruct (IH x' Hx Hx' Heq) as [-> ->]. done.
Qed.

Lemma append_inv_head (a b c : string) : a ++ b = a ++ c -> b = c.
Proof.
  induction a as [|x a IH]; [done|]. intros [= H]. auto.
Qed.

Lemma join_empty (x : string) (l : list string) :
  join "|" (x :: l) = "" -> x = "".
Proof.
  destruct x; [done|]. intros H.
  pose proof (join_nonempty "|" (String a x) l eq_refl) as Ht.
  by rewrite H in Ht.
Qed.

Lemma join_inj (l1 l2 : list string) :
  Forall (fun s => has_char "|" s = false /\ s <> "") l1 ->
  Forall (fun s => has_char "|" s = false /\ s <> "") l2 ->
  join "|" l1 = join "|" l2 -> l1 = l2.
Proof.
  intros H1. revert l2.
  induction H1 as [|x l1 [Hx Hxne] H1 IH]; intros l2 H2 Heq.
  - destruct H2 as [|x' l2 [_ Hne] _]; [done|].
    symmetry in Heq. by apply join_empty in Heq.
  - destruct H2 as [|x' l2 [Hx' Hxne'] H2].
    { by apply join_empty in Heq. }
    destruct l1 as [|y l1], l2 as [|y' l2].
    + simpl in Heq. by subst.
    + rewrite (join_cons_cons "|" x' y' l2) in Heq.
      change (x = x' ++ String "|" (join "|" (y' :: l2))) in Heq.
      rewrite Heq, has_char_cut in Hx. done.
    + rewrite (join_cons_cons "|" x y l1) in Heq.
      change (x ++ String "|" (join "|" (y :: l1)) = x') in Heq.
      rewrite <- Heq, has_char_cut in Hx'. done.
    + rewrite (join_cons_cons "|" x y l1),
              (join_cons_cons "|" x' y' l2) in Heq.
      change (x ++ String "|" (join "|" (y :: l1))
              = x' ++ String "|" (join "|" (y' :: l2))) in Heq.
      destruct (split_unique _ _ _ _ _ Hx Hx' Heq) as [-> Hrest].
      f_equal. by apply IH.
Qed.

Lemma render_inj (p1 p2 : params) (k1 k2 : string) :
  has_char ":" k1 = false -> has_char ":" k2 = false ->
  render p1 k1 = render p2 k2 ->
  k1 = k2
  /\ match assoc_get k1 p1 with
     | Some v => to_display v
     | None => "undefined"
     end
     = match assoc_get k2 p2 with
       | Some v => to_display v
       | None => "undefined"
       end.
Proof.
  intros H1 H2 Heq. unfold render in Heq.
  by apply (split_unique ":" k1 k2).
Qed.

Lemma render_clean (p : params) (k : string) :
  clean p -> k ∈ p.*1 ->
  has_char "|" (render p k) = false /\ render p k <> ""
  /\ has_char ":" k = false.
Proof.
  intros Hc Hk. apply CacheMoreFacts.assoc_has_elem in Hk.
  unfold assoc_has in Hk.
  destruct (assoc_get k p) as [v|] eqn:Ev; [|done].
  pose proof (assoc_get_elem _ _ _ Ev) as Hin.
  destruct (proj1 (Forall_forall _ _) Hc _ Hin) as (Hk1 & Hk2 & Hv).
  simpl in Hk1, Hk2, Hv. split_and!; [| | done].
  - unfold render. rewrite Ev, !has_char_append, Hk2, Hv. done.
  - unfold render. by destruct k.
Qed.

Lemma renders_inj (p1 p2 : params) (ks1 ks2 : list string) :
  Forall (fun k => has_char ":" k = false) ks1 ->
  Forall (fun k => has_char ":" k = false) ks2 ->
  render p1 <$> ks1 = render p2 <$> ks2 ->
  ks1 = ks2
  /\ Forall (fun k =>
               match assoc_get k p1 with
               | Some v => to_display v
               | None => "undefined"
               end
               = match assoc_get k p2 with
                 | Some v => to_display v
                 | None => "undefined"
                 end) ks1.
Proof.
  intros H1. revert ks2.
  induction H1 as [|k1 ks1 Hk1 H1 IH]; intros ks2 H2 Heq.
  - destruct ks2; [done | by simpl in Heq].
  - destruct H2 as [|k2 ks2 Hk2 H2]; [done|].
    simpl in Heq. injection Heq as Hhead Htail.
    destruct (render_inj p1 p2 k1 k2 Hk1 Hk2 Hhead) as [-> Hd].
    destruct (IH ks2 H2 Htail) as [-> Hrest].
    split; [done|]. by constructor.
Qed.

Lemma paramString_inj (p1 p2 : params) :
  clean p1 -> clean p2 -> paramString p1 = paramString p2 ->
  forall k, to_display <$> assoc_get k p1 = to_display <$> assoc_get k p2.
Proof.
  intros C1 C2 Heq. unfold paramString in Heq.
  set (ks1 := merge_sort String.le (p1.*1)) in *.
  set (ks2 := merge_sort String.le (p2.*1)) in *.
  assert (M1 : forall k, k ∈ ks1 <-> k ∈ p1.*1)
    by (intros k; unfold ks1; by rewrite merge_sort_Permutation).
  assert (M2 : forall k, k ∈ ks2 <-> k ∈ p2.*1)
    by (intros k; unfold ks2; by rewrite merge_sort_Permutation).
  assert (R1 : Forall (fun s => has_char "|" s = false /\ s <> "")
                 (render p1 <$> ks1)).
  { apply Forall_fmap, Forall_forall. intros k Hk. simpl.
    destruct (render_clean p1 k C1) as (? & ? & _); [by apply M1 | done]. }
  assert (R2 : Forall (fun s => has_char "|" s = false /\ s <> "")
                 (render p2 <$> ks2)).
  { apply Forall_fmap, Forall_forall. intros k Hk. simpl.
    destruct (render_clean p2 k C2) as (? & ? & _); [by apply M2 | done]. }
  apply (join_inj _ _ R1 R2) in Heq.
  assert (K1 : Forall (fun k => has_char ":" k = false) ks1).
  { apply Forall_forall. intros k Hk.
    by destruct (render_clean p1 k C1) as (_ & _ & ?); [apply M1|]. }
  assert (K2 : Forall (fun k => has_char ":" k = false) ks2).
  { apply Forall_forall. intros k Hk.
    by destruct (render_clean p2 k C2) as (_ & _ & ?); [apply M2|]. }
  destruct (renders_inj p1 p2 ks1 ks2 K1 K2 Heq) as [Hks Hd].
  intros k. destruct (decide (k ∈ ks1)) as [Hin | Hout].
  - pose proof (proj1 (Forall_forall _ _) Hd k Hin) as Hk.
    cbv beta in Hk.
    assert (Hin2 : k ∈ ks2) by by rewrite <- Hks.
    apply M1, CacheMoreFacts.assoc_has_elem in Hin.
    apply M2, CacheMoreFacts.assoc_has_elem in Hin2.
    unfold assoc_has in Hin, Hin2.
    destruct (assoc_get k p1) as [v1|] eqn:G1; [|done].
    destruct (assoc_get k p2) as [v2|] eqn:G2; [|done].
    simpl. f_equal. exact Hk.
  - assert (Hout2 : k ∉ ks2) by by rewrite <- Hks.
    rewrite M1 in Hout. rewrite M2 in Hout2.
    by rewrite !assoc_get_None.
Qed.

Lemma paramString_nonempty (p : params) :
  p <> [] -> truthy_str (paramString p) = true.
Proof.
  destruct p as [|[k v] p]; [done|]. intros _.
  apply (paramString_truthy _ k). simpl. apply elem_of_cons. by left.
Qed.

Lemma slice_not_longer (b s : string) :
  truthy_str s = true -> slice_0_m1 b <> b ++ s.
Proof.
  intros Hs Heq. apply (f_equal String.length) in Heq.
  rewrite length_append in Heq. unfold slice_0_m1 in Heq.
  rewrite length_substring_0 in Heq by lia.
  destruct s; [done|]. simpl in Heq. lia.
Qed.

(** X24.  On clean parameter bags the key is faithful: when the names
    hold neither [:] nor [|] and the printed values hold no [|], two bags
    that get the same key under one pattern give every name the same
    printed value (and hold the same names). *)
Theorem generateKey_injective_on_clean (pattern : string)
    (p1 p2 : params) :
  clean p1 -> clean p2 ->
  generateKey pattern p1 = generateKey pattern p2 ->
  forall k, to_display <$> assoc_get k p1 = to_display <$> assoc_get k p2.
Proof.
  intros C1 C2 Heq.
  destruct p1 as [|kv1 p1'] eqn:E1, p2 as [|kv2 p2'] eqn:E2; [done | | |].
  - exfalso. unfold generateKey in Heq. rewrite paramString_empty in Heq.
    rewrite (paramString_nonempty (kv2 :: p2')) in Heq by done.
    simpl in Heq. destruct (resolve pattern); [|done].
    injection Heq as Heq.
    by apply slice_not_longer in Heq; [|apply paramString_nonempty].
  - exfalso. unfold generateKey in Heq. rewrite paramString_empty in Heq.
    rewrite (paramString_nonempty (kv1 :: p1')) in Heq by done.
    simpl in Heq. destruct (resolve pattern); [|done].
    injection Heq as Heq. symmetry in Heq.
    by apply slice_not_longer in Heq; [|apply paramString_nonempty].
  - rewrite <- E1, <- E2 in *. apply paramString_inj; try done.
    unfold generateKey in Heq.
    rewrite !paramString_nonempty in Heq by (by subst).
    destruct (resolve pattern); injection Heq as Heq;
      by apply append_inv_head in Heq.
Qed.

Lemma generateKey_injective_on_clean_witness :
  clean [("tour", PStr "PGA"); ("season", PInt 2024)] /\
  clean [("season", PStr "2024"); ("tour", PStr "PGA")] /\
  generateKey "rankings" [("tour", PStr "PGA"); ("season", PInt 2024)]
  = generateKey "rankings" [("season", PStr "2024"); ("tour", PStr "PGA")] /\
  forall k,
    to_display <$> assoc_get k [("tour", PStr "PGA"); ("season", PInt 2024)]
    = to_display <$> assoc_get k [("season", PStr "2024");
                                  ("tour", PStr "PGA")].
Proof.
  assert (H1 : clean [("tour", PStr "PGA"); ("season", PInt 2024)])
    by (repeat constructor).
  assert (H2 : clean [("season", PStr "2024"); ("tour", PStr "PGA")])
    by (repeat constructor).
  assert (H3 : generateKey "rankings"
                 [("tour", PStr "PGA"); ("season", PInt 2024)]
               = generateKey "rankings"
                   [("season", PStr "2024"); ("tour", PStr "PGA")])
    by (vm_compute; reflexivity).
  repeat (split; [assumption|]).
  exact (generateKey_injective_on_clean "rankings"
           [("tour", PStr "PGA"); ("season", PInt 2024)]
           [("season", PStr "2024"); ("tour", PStr "PGA")] H1 H2 H3).
Defined.

End CacheKeyMoreFacts.

(** ** More of the circuit breaker *)

Module BreakerMoreFacts.
Import Breaker BreakerMore.

Lemma apply_invariant (c : call) (cb : circuitBreaker) :
  1 <= threshold cb ->
  (cb_state cb = CLOSED -> 0 <= failureCount cb < threshold cb) ->
  (cb_state cb <> CLOSED ->
   threshold cb <= failureCount cb /\ lastFailureTime cb <> None) ->
  same_settings (apply c cb) cb
  /\ (cb_state (apply c cb) = CLOSED ->
      0 <= failureCount (apply c cb) < threshold cb)
  /\ (cb_state (apply c cb) <> CLOSED ->
      threshold cb <= failureCount (apply c cb)
      /\ lastFailureTime (apply c cb) <> None).
Proof.
  intros Ht Hc Ho. destruct cb as [st fc lf sc th to rt]. simpl in *.
  destruct c as [now | | now]; simpl.
  - unfold _checkCircuitBreaker. simpl.
    destruct st; simpl; [by auto | | by auto].
    destruct (to <? now - to_number lf); simpl; [|by auto].
    split_and!; [done | done |]. intros _. by apply Ho.
  - unfold _recordSuccess. simpl.
    destruct st; simpl.
    + split_and!; [done | intros _; lia | done].
    + by auto.
    + destruct (rt <=? sc + 1); simpl.
      * split_and!; [done | intros _; lia | done].
      * split_and!; [done | done |]. intros _. by apply Ho.
  - unfold _recordFailure. simpl.
    destruct (Z.leb_spec th (fc + 1)); simpl.
    + split_and!; [done | done |]. intros _. split; [lia | done].
    + destruct st; simpl.
      * split_and!; [done | intros _; specialize (Hc eq_refl); lia | done].
      * destruct Ho as [? _]; [done | lia].
      * destruct Ho as [? _]; [done | lia].
Qed.

Lemma trace_invariant (calls : list call) (cb : circuitBreaker) :
  1 <= threshold cb ->
  (cb_state cb = CLOSED -> 0 <= failureCount cb < threshold cb) ->
  (cb_state cb <> CLOSED ->
   threshold cb <= failureCount cb /\ lastFailureTime cb <> None) ->
  same_settings (trace calls cb) cb
  /\ (cb_state (trace calls cb) = CLOSED ->
      0 <= failureCount (trace calls cb) < threshold cb)
  /\ (cb_state (trace calls cb) <> CLOSED ->
      threshold cb <= failureCount (trace calls cb)
      /\ lastFailureTime (trace calls cb) <> None).
Proof.
  revert cb. induction calls as [|c calls IH]; intros cb Ht Hc Ho.
  - by split_and!.
  - change (trace (c :: calls) cb) with (trace calls (apply c cb)).
    destruct (apply_invariant c cb Ht Hc Ho) as ((E1 & E2 & E3) & Hc' & Ho').
    destruct (IH (apply c cb)) as ((F1 & F2 & F3) & Hc'' & Ho'');
      rewrite ?E1; try done.
    rewrite E1 in Hc'', Ho''. split_and!; [|done..].
    unfold same_settings. by rewrite F1, F2, F3.
Qed.

(** X20.  Whatever calls the breaker of the constructor has received, in
    whatever order: its settings are those of the constructor; while it
    is CLOSED fewer than [threshold] failures are counted; while it is
    OPEN or HALF_OPEN at least [threshold] are, and the time of the last
    failure is known.  So a single failure recorded in HALF_OPEN re-opens
    the circuit, however many trial requests have succeeded before. *)
Theorem breaker_invariant (calls : list call) :
  same_settings (trace calls initial) initial
  /\ (cb_state (trace calls initial) = CLOSED ->
      0 <= failureCount (trace calls initial) < 5)
  /\ (cb_state (trace calls initial) <> CLOSED ->
      5 <= failureCount (trace calls initial)
      /\ lastFailureTime (trace calls initial) <> None)
  /\ forall now,
       cb_state (trace calls initial) = HALF_OPEN ->
       cb_state (_recordFailure now (trace calls initial)) = OPEN.
Proof.
  destruct (trace_invariant calls initial) as (Hs & Hc & Ho);
    [done | by intros _ | done |].
  split_and!; try done.
  intros now Hh. destruct Hs as (Ht & _). simpl in Ht.
  destruct Ho as [Hf _]; [by rewrite Hh|].
  unfold _recordFailure. simpl. rewrite Ht.
  destruct (Z.leb_spec 5 (failureCount (trace calls initial) + 1)); [done|].
  simpl in Hf. lia.
Qed.

End BreakerMoreFacts.

(** ** The metrics of the pipeline *)

Module PipelineMoreFacts.
Import Service PipelineMore.

Lemma tally_app f l t :
  tally f (l ++ [t])%list = tally f l + (if f t then 1 else 0).
Proof.
  unfold tally. rewrite filter_app, length_app.
  destruct (f t) eqn:E.
  - rewrite filter_cons_True by done. simpl. lia.
  - rewrite filter_cons_False by (by rewrite E). simpl. lia.
Qed.

Lemma tally_insert f l i x y :
  l !! i = Some x ->
  tally f (<[i := y]> l)
  = tally f l - (if f x then 1 else 0) + (if f y then 1 else 0).
Proof.
  unfold tally. revert i. induction l as [|a l IH]; intros i Hi; [done|].
  destruct i as [|i]; simpl in Hi.
  - injection Hi as ->. simpl. rewrite !filter_cons.
    destruct (f x) eqn:Ex, (f y) eqn:Ey;
      repeat first [rewrite decide_True by done
                   | rewrite decide_False by done]; simpl; lia.
  - specialize (IH i Hi). simpl. rewrite !filter_cons.
    destruct (decide (f a = true)); simpl; lia.
Qed.

(** What the start of an invocation does to the counters. *)
Lemma begin_counts cfg now key use s :
  totalRequests (stats (begin cfg now key use s).2)
  = totalRequests (stats s) + 1
  /\ cacheHits (stats (begin cfg now key use s).2) = cacheHits (stats s)
  /\ cacheMisses (stats (begin cfg now key use s).2) = cacheMisses (stats s)
  /\ errors (stats (begin cfg now key use s).2)
     = errors (stats s)
       + (if threw (Task key use None (begin cfg now key use s).1)
          then 1 else 0)
  /\ looked_up (Task key use None (begin cfg now key use s).1) = false
  /\ waits_with_cache (Task key use None (begin cfg now key use s).1).
Proof.
  unfold begin. cbn [with_stats limiter stats cache circuitBreaker].
  destruct (_checkRateLimit now (limiter s)) as [allowed rl].
  destruct allowed; simpl; [|by destruct use].
  destruct (Breaker._checkCircuitBreaker now (circuitBreaker s))
    as [admitted cb].
  destruct admitted; simpl; [|by destruct use].
  destruct use; simpl.
  - destruct (Cache.get cfg now key (cache s)) as [cached c]. simpl.
    split_and!; try done; lia.
  - split_and!; try done; lia.
Qed.

Lemma step_accounted cfg now e sys :
  accounted sys -> accounted (step cfg now e sys).
Proof.
  intros (Ht & He & Hl & Hh & Hm & Hw).
  destruct e as [key use t | i | i r]; cbn [step].
  - pose proof (begin_counts cfg now key use (svc sys))
      as (Bt & Bh & Bm & Be & Bl & Bw).
    destruct (begin cfg now key use (svc sys)) as [p s'].
    cbn [fst snd] in *. unfold accounted. cbn [svc tasks].
    rewrite !tally_app, length_app. simpl.
    change (threw (Task key use t p)) with (threw (Task key use None p)).
    change (looked_up (Task key use t p))
      with (looked_up (Task key use None p)).
    rewrite Bl. split_and!; try lia.
    apply Forall_app. split; [done|]. by apply Forall_singleton.
  - destruct (tasks sys !! i) as [t|] eqn:Ei; [|by split_and!].
    pose proof (proj1 (Forall_lookup _ _) Hw i t Ei) as Hwt.
    destruct t as [k u tt p]. unfold waits_with_cache in Hwt.
    simpl in Hwt. cbn [at_].
    destruct p as [cached | | d | d | err]; try by split_and!.
    + subst u. unfold settle, accounted. cbn [svc tasks cacheKey useCache
                                               ttl].
      rewrite length_insert, !(tally_insert _ _ _ _ _ Ei).
      destruct cached as [d|]; simpl; (split_and!; try lia);
        apply Forall_insert; done.
    + subst u. unfold settle, accounted. cbn [svc tasks cacheKey useCache
                                               ttl].
      rewrite length_insert, !(tally_insert _ _ _ _ _ Ei). simpl.
      split_and!; try lia. apply Forall_insert; done.
  - destruct (tasks sys !! i) as [t|] eqn:Ei; [|by split_and!].
    destruct t as [k u tt p]. cbn [at_].
    destruct p as [cached | | d | d | err]; try by split_and!.
    unfold settle, accounted, afterFetch.
    cbn [svc tasks cacheKey useCache ttl].
    destruct r as [body | f].
    + destruct u; simpl;
        rewrite length_insert, !(tally_insert _ _ _ _ _ Ei); simpl;
        (split_and!; try lia); apply Forall_insert; done.
    + simpl. rewrite length_insert, !(tally_insert _ _ _ _ _ Ei). simpl.
      split_and!; try lia; [by destruct u; simpl; lia|].
      apply Forall_insert; done.
Qed.

Lemma run_accounted cfg schedule sys :
  accounted sys -> accounted (run cfg schedule sys).
Proof.
  revert sys. induction schedule as [|[now e] schedule IH]; intros sys H;
    [done|].
  apply (IH (step cfg now e sys)). by apply step_accounted.
Qed.

Lemma tally_le f l : 0 <= tally f l <= Z.of_nat (List.length l).
Proof.
  unfold tally. pose proof (length_filter (fun t => f t = true) l). lia.
Qed.

(** X21.  The counters stay consistent under every interleaving of
    invocations: after any schedule of calls, resumptions and upstream
    answers on the service that the constructor builds, [totalRequests]
    is the number of invocations, [errors] the number of those that
    threw, and [cacheHits + cacheMisses] the number of those that use the
    cache and have had their lookup answered; so neither the hits nor
    the errors exceed the requests. *)
Theorem metrics_accounted (cfg : Cache.cacheConfig)
    (schedule : list (Z * event)) :
  totalRequests (stats (svc (run cfg schedule boot)))
  = Z.of_nat (List.length (tasks (run cfg schedule boot)))
  /\ errors (stats (svc (run cfg schedule boot)))
     = tally threw (tasks (run cfg schedule boot))
  /\ cacheHits (stats (svc (run cfg schedule boot)))
     + cacheMisses (stats (svc (run cfg schedule boot)))
     = tally looked_up (tasks (run cfg schedule boot))
  /\ 0 <= cacheHits (stats (svc (run cfg schedule boot)))
       <= totalRequests (stats (svc (run cfg schedule boot)))
  /\ 0 <= errors (stats (svc (run cfg schedule boot)))
       <= totalRequests (stats (svc (run cfg schedule boot))).
Proof.
  assert (H0 : accounted boot).
  { unfold accounted, boot, tally. simpl. split_and!; try done. }
  destruct (run_accounted cfg schedule boot H0)
    as (Ht & He & Hl & Hh & Hm & _).
  pose proof (tally_le threw (tasks (run cfg schedule boot))).
  pose proof (tally_le looked_up (tasks (run cfg schedule boot))).
  split_and!; try done; lia.
Qed.

End PipelineMoreFacts.
